(** * Schema nodes of the i-PI input layer

    A shallow embedding of [utils/inputvalue.py] (classes [input_default],
    [Input], [InputValue], [InputArray]) and of [inputs/motion/motion.py]
    (classes [InputMotionBase], [InputMotion]).

    Python objects are mutable; every method is modelled as a state
    transformer on the receiver that also yields either a result or the
    exception that was raised.  The state that is returned next to an
    exception is the receiver as the exception left it, because several
    properties are about exactly that. *)

From Stdlib Require Import String Ascii List ZArith Bool Lia.
Import ListNotations.
Open Scope string_scope.
Open Scope Z_scope.

Set Implicit Arguments.
Set Warnings "-register-all".

(** ** Exceptions and the receiver monad *)

Inductive exn : Type :=
| ValueError (msg : string)
| NameError (msg : string)
| TypeError (msg : string)
| AttributeError (msg : string)
| IndexError (msg : string)
| KeyError (msg : string).

Inductive res (A : Type) : Type :=
| Ok (a : A)
| Raise (e : exn).
Arguments Ok {A} a.
Arguments Raise {A} e.

Definition is_ok {A} (r : res A) : bool :=
  match r with Ok _ => true | Raise _ => false end.

(** A method of a class whose instances have type [S]. *)
Definition M (S A : Type) : Type := S -> S * res A.

Definition ret {S A} (a : A) : M S A := fun s => (s, Ok a).
Definition raise {S A} (e : exn) : M S A := fun s => (s, Raise e).
Definition bind {S A B} (m : M S A) (k : A -> M S B) : M S B :=
  fun s => match m s with
           | (s', Ok a) => k a s'
           | (s', Raise e) => (s', Raise e)
           end.
Definition get {S} : M S S := fun s => (s, Ok s).
Definition modify {S} (f : S -> S) : M S unit := fun s => (f s, Ok tt).
Definition lift {S A} (r : res A) : M S A := fun s => (s, r).

(** Running a method of an attribute object [self.x] from a method of
    [self]: the attribute is read, updated in place, and the exception (if
    any) propagates. *)
Definition on_attr {S T A} (rd : S -> T) (wr : T -> S -> S) (m : M T A) : M S A :=
  fun s => let (t', r) := m (rd s) in (wr t' s, r).

Declare Scope py_scope.
Delimit Scope py_scope with py.
Notation "x <- m ;; k" := (bind m (fun x => k))
  (at level 61, m at next level, right associativity) : py_scope.
Notation "m ;;; k" := (bind m (fun _ => k))
  (at level 61, right associativity) : py_scope.
Open Scope py_scope.

(** Pure results, for code that touches no receiver. *)
Definition rbind {A B} (r : res A) (k : A -> res B) : res B :=
  match r with Ok a => k a | Raise e => Raise e end.

Fixpoint mapM {A B} (f : A -> res B) (l : list A) : res (list B) :=
  match l with
  | [] => Ok []
  | x :: xs => rbind (f x) (fun y => rbind (mapM f xs) (fun ys => Ok (y :: ys)))
  end.

(** ** Python values *)

Inductive pyval : Type :=
| PNone
| PBool (b : bool)
| PInt (z : Z)
| PStr (s : string)
| PTuple (items : list pyval)
| PList (items : list pyval)
| PDict (entries : list (string * pyval))
| PArray (shape : list Z) (data : list pyval)   (* numpy.ndarray, row major *)
| PInstance (cls : string) (attrs : list (string * pyval)).
                                                (* an instance of class [cls] *)

Definition b2z (b : bool) : Z := if b then 1 else 0.

(** [a == b]; [bool] is a subclass of [int].  Containers and instances are
    compared entry by entry. *)
Fixpoint py_eq (a b : pyval) {struct a} : bool :=
  let fix all2 (l1 l2 : list pyval) {struct l1} : bool :=
    match l1, l2 with
    | [], [] => true
    | x :: xs, y :: ys => py_eq x y && all2 xs ys
    | _, _ => false
    end in
  let fix all2kv (l1 l2 : list (string * pyval)) {struct l1} : bool :=
    match l1, l2 with
    | [], [] => true
    | (k1, x) :: xs, (k2, y) :: ys => String.eqb k1 k2 && py_eq x y && all2kv xs ys
    | _, _ => false
    end in
  match a, b with
  | PNone, PNone => true
  | PBool x, PBool y => Bool.eqb x y
  | PBool x, PInt y => Z.eqb (b2z x) y
  | PInt x, PBool y => Z.eqb x (b2z y)
  | PInt x, PInt y => Z.eqb x y
  | PStr x, PStr y => String.eqb x y
  | PTuple l1, PTuple l2 => all2 l1 l2
  | PList l1, PList l2 => all2 l1 l2
  | PDict l1, PDict l2 => all2kv l1 l2
  | PArray s1 d1, PArray s2 d2 =>
      (if list_eq_dec Z.eq_dec s1 s2 then true else false) && all2 d1 d2
  | PInstance c1 l1, PInstance c2 l2 => String.eqb c1 c2 && all2kv l1 l2
  | _, _ => false
  end.

(** [x in l] *)
Definition py_in (x : pyval) (l : list pyval) : bool := existsb (py_eq x) l.

(** A callable used as a data type: [self.type(value)]. *)
Definition pytype : Type := pyval -> res pyval.

(** [bool(x)]; the truth of an ndarray is that of its single element,
    and is not defined for more than one element. *)
Fixpoint py_bool (v : pyval) : res pyval :=
  match v with
  | PNone => Ok (PBool false)
  | PBool b => Ok (PBool b)
  | PInt z => Ok (PBool (negb (Z.eqb z 0)))
  | PStr s => Ok (PBool (negb (String.eqb s "")))
  | PTuple l | PList l => Ok (PBool match l with [] => false | _ => true end)
  | PDict l => Ok (PBool match l with [] => false | _ => true end)
  | PArray _ d =>
      match d with
      | [] => Ok (PBool false)
      | [x] => py_bool x
      | _ => Raise (ValueError "The truth value of an array with more than one element is ambiguous. Use a.any() or a.all()")
      end
  | PInstance _ _ => Ok (PBool true)
  end.

Fixpoint chars (s : string) : list pyval :=
  match s with
  | EmptyString => []
  | String c r => PStr (String c EmptyString) :: chars r
  end.

Fixpoint rows (fuel : nat) (width : nat) (d : list pyval) : list (list pyval) :=
  match fuel with
  | O => []
  | S k => firstn width d :: rows k width (skipn width d)
  end.

Definition prodZ (l : list Z) : Z := fold_right Z.mul 1 l.

(** [tuple(x)] *)
Definition py_tuple : pytype := fun v =>
  match v with
  | PTuple l | PList l => Ok (PTuple l)
  | PDict l => Ok (PTuple (map (fun kv => PStr (fst kv)) l))
  | PStr s => Ok (PTuple (chars s))
  | PArray [] _ => Raise (TypeError "iteration over a 0-d array")
  | PArray [_] d => Ok (PTuple d)
  | PArray (n :: rest) d =>
      Ok (PTuple (map (PArray rest) (rows (Z.to_nat n) (Z.to_nat (prodZ rest)) d)))
  | _ => Raise (TypeError "object is not iterable")
  end.

(** ** The collaborators that live outside these two files

    [io.io_xml] supplies the readers and [units] the conversion; they are
    taken as given. *)

Inductive xml_node : Type :=
| XText (text : string)                     (* payload of a "_text" entry *)
| XNode (name : string) (attribs : list (string * string))
        (fields : list (string * xml_node)).

Record external : Type := mkExternal {
  read_type : pytype -> xml_node -> res pyval;
  read_array : pytype -> xml_node -> res (list pyval);
  unit_to_internal : string -> string -> pyval -> pyval;
  np_mul : pyval -> pyval -> pyval;         (* ndarray * float *)
  float_one : pyval;                        (* the literal 1.0 *)
  py_str : pyval -> string;                 (* the builtin str() *)
  py_int : pytype;                          (* the builtin int() *)
  type_str : pyval -> string                (* str(type(x)) *)
}.

(** [str] used as a data type *)
Definition str_type (E : external) : pytype := fun v => Ok (PStr (py_str E v)).

(** dictionaries whose iteration order matters are association lists *)
Fixpoint assoc {A} (k : string) (l : list (string * A)) : option A :=
  match l with
  | [] => None
  | (k', v) :: r => if String.eqb k k' then Some v else assoc k r
  end.

Definition has_key {A} (k : string) (l : list (string * A)) : bool :=
  match assoc k l with Some _ => true | None => false end.

Fixpoint assoc_set {A} (k : string) (v : A) (l : list (string * A)) : list (string * A) :=
  match l with
  | [] => [(k, v)]
  | (k', v') :: r => if String.eqb k k' then (k, v) :: r else (k', v') :: assoc_set k v r
  end.

(** ** input_default *)

Module input_default.
Record t : Type := mk {
  factory : list pyval -> list (string * pyval) -> res pyval;
  args : list pyval;
  kwargs : list (string * pyval)
}.

Definition __init__ (factory : list pyval -> list (string * pyval) -> res pyval)
           (args : option (list pyval)) (kwargs : option (list (string * pyval))) : t :=
  mk factory
     (match args with None => [] | Some a => a end)
     (match kwargs with None => [] | Some k => k end).
End input_default.

(** The [default] argument of a constructor. *)
Inductive default_arg : Type :=
| DValue (v : pyval)                 (* [None] or a literal *)
| DFactory (d : input_default.t).    (* an [input_default] instance *)

(** ** Input: what every schema node has *)

Module Input.

(** The instance attributes set by [Input.__init__].  The [extra] list is
    kept by the classes that use it. *)
Record t : Type := mk {
  _help : string;
  _dimension : string;
  units : string;
  _default : pyval;
  _optional : bool;
  _explicit : bool;
  _label : string
}.

Definition default_help := "Generic input value".
Definition default_dimension := "undefined".
Definition default_units := "".
Definition default_value := PNone.
Definition default_label := "".

Definition set_explicit (b : bool) (i : t) : t :=
  mk (_help i) (_dimension i) (units i) (_default i) (_optional i) b (_label i).
Definition set_units (u : string) (i : t) : t :=
  mk (_help i) (_dimension i) u (_default i) (_optional i) (_explicit i) (_label i).

Definition or_default {A} (o : option A) (d : A) : A :=
  match o with None => d | Some a => a end.

(** A class derived from [Input], as far as the inherited methods see it:
    where the [Input] attributes sit in an instance, the class name, the
    class attributes [default_help] and [default_label], and the [store]
    that [self.store] resolves to. *)
Record class (S : Type) : Type := mkClass {
  base : S -> t;
  with_base : t -> S -> S;
  __name__ : string;
  class_help : string;
  class_label : string;
  vstore : pyval -> M S unit
}.

Section Inherited.
Context {S : Type} (C : class S).

Definition explicit (s : S) : bool := _explicit (base C s).
Definition optional (s : S) : bool := _optional (base C s).
Definition mark (b : bool) (s : S) : S := with_base C (set_explicit b (base C s)) s.

(** [Input.store]: lines 185-189 *)
Definition store (value : pyval) : M S unit := modify (mark true).

(** [Input.check]: lines 197-205 *)
Definition check : M S unit := fun s =>
  if negb (explicit s || optional s)
  then (s, Raise (ValueError ("Uninitialized Input value of type " ++ __name__ C)))
  else (s, Ok tt).

(** The three ways [default] is taken in: lines 149-157.  The result is
    [_default] and [_optional]. *)
Definition take_default (default : default_arg) : res (pyval * bool) :=
  match default with
  | DValue PNone => Ok (default_value, false)
  | DFactory d =>
      rbind (input_default.factory d (input_default.args d) (input_default.kwargs d))
            (fun v => Ok (v, true))
  | DValue v => Ok (v, true)
  end.

(** The last statement of [__init__]: lines 173-175. *)
Definition apply_default : M S unit := fun s =>
  match _default (base C s) with
  | PNone => (s, Ok tt)
  | d => (vstore C d ;;; modify (mark false)) s
  end.

(** [Input.__init__]: lines 118-175.  [children] stands for the part of
    the instance that is in place when line 173 is reached: what the
    derived constructor set before calling up, and the field and
    attribute objects created by the loops of lines 167-171 around the
    attributes of lines 134-161. *)
Definition __init__ (help dimension units : option string) (default : default_arg)
           (children : t -> res S) : res S :=
  match take_default default with
  | Raise e => Raise e
  | Ok (d, opt) =>
      let b := mk (or_default help (class_help C))
                  (or_default dimension default_dimension)
                  (or_default units default_units)
                  d opt false (class_label C) in
      rbind (children b) (fun s =>
        match apply_default s with
        | (s', Ok _) => Ok s'
        | (_, Raise e) => Raise e
        end)
  end.
End Inherited.

End Input.

(** ** InputValue: the scalar leaf *)

Module InputValue.

Record t : Type := mk {
  base : Input.t;
  type : pytype;
  value : option pyval;            (* [None]: the attribute does not exist yet *)
  _valid : option (list pyval)
}.

Definition with_base (b : Input.t) (s : t) : t := mk b (type s) (value s) (_valid s).
Definition set_value (v : pyval) (s : t) : t := mk (base s) (type s) (Some v) (_valid s).
Definition set_valid (o : option (list pyval)) (s : t) : t := mk (base s) (type s) (value s) o.
Definition set_units (u : string) (s : t) : t := with_base (Input.set_units u (base s)) s.

Definition read_value : M t pyval := fun s =>
  match value s with
  | Some v => (s, Ok v)
  | None => (s, Raise (AttributeError "'InputValue' object has no attribute 'value'"))
  end.

(** [InputValue.store]: lines 574-582 *)
Definition store (v : pyval) : M t unit :=
  modify (fun s => with_base (Input.set_explicit true (base s)) s) ;;;
  fun s => match type s v with
           | Ok v' => (set_value v' s, Ok tt)
           | Raise e => (s, Raise e)
           end.

Definition cls : Input.class t :=
  Input.mkClass base with_base "InputValue" Input.default_help Input.default_label store.

(** [InputValue.check]: lines 593-602 *)
Definition check (E : external) : M t unit :=
  Input.check cls ;;;
  fun s => match _valid s with
           | None => (s, Ok tt)
           | Some opts =>
               (v <- read_value ;;
                if py_in v opts then ret tt
                else raise (ValueError (py_str E v ++ " is not a valid option ("
                                        ++ py_str E (PList opts) ++ ")"))) s
           end.

(** [InputValue.fetch]: lines 584-591; [Input.fetch] calls [self.check()] *)
Definition fetch (E : external) : M t pyval :=
  check E ;;;
  fun s => if negb (String.eqb (Input._dimension (base s)) "undefined")
           then (v <- read_value ;;
                 ret (unit_to_internal E (Input._dimension (base s)) (Input.units (base s)) v)) s
           else read_value s.

(** [InputValue.__init__]: lines 548-572.  A constructor either raises or
    yields the new instance. *)
Definition is_none (d : default_arg) : bool :=
  match d with DValue PNone => true | _ => false end.

Definition __init__ (E : external) (help dimension units : option string)
           (default : default_arg) (dtype : option pytype)
           (options : option (list pyval)) : res t :=
  match dtype with
  | None => Raise (TypeError "You must provide dtype")
  | Some ty =>
      rbind (Input.__init__ cls help dimension units default
                            (fun b => Ok (mk b ty None None)))
            (fun s =>
               match options with
               | Some opts =>
                   let s := set_valid (Some opts) s in
                   if negb (is_none default) && negb (py_in (Input._default (base s)) opts)
                   then Raise (ValueError ("Default value not in option list "
                                           ++ py_str E (PList opts)))
                   else Ok s
               | None => Ok (set_valid None s)
               end)
  end.

(** The keys of [self.__dict__]. *)
Definition dict_keys (s : t) : list string :=
  ["type"; "extra"; "_help"; "_dimension"; "units"; "_default"; "_optional";
   "_explicit"; "_label"; "_valid"] ++ (match value s with Some _ => ["value"] | None => [] end).

Definition unrecognized_attribute (a name : string) : exn :=
  NameError ("Attribute name '" ++ a ++ "' is not a recognized property of '"
             ++ name ++ "' objects").

(** The loop of lines 647-651: every key of [self.__dict__] holds a plain
    value, whose [.store] does not exist. *)
Fixpoint parse_attribs (name : string) (keys : list string)
         (attribs : list (string * string)) : res unit :=
  match attribs with
  | [] => Ok tt
  | (a, _) :: rest =>
      if String.eqb a "units" then parse_attribs name keys rest
      else if negb (existsb (String.eqb a) keys) then Raise (unrecognized_attribute a name)
      else Raise (AttributeError "object has no attribute 'store'")
  end.

(** [InputValue.parse]: lines 631-653 *)
Definition parse (E : external) (xml : option xml_node) (text : string) : M t unit :=
  modify (fun s => with_base (Input.set_explicit true (base s)) s) ;;;
  match xml with
  | None =>
      fun s => match read_type E (type s) (XText text) with
               | Ok v => (set_value v s, Ok tt)
               | Raise e => (s, Raise e)
               end
  | Some (XText _) => raise (AttributeError "'str' object has no attribute 'attribs'")
  | Some (XNode name attribs fields) =>
      modify (fun s => match assoc "units" attribs with
                       | Some u => set_units u s
                       | None => s
                       end) ;;;
      (fun s => (s, parse_attribs name (dict_keys s) attribs)) ;;;
      match fields with
      | [] => raise (IndexError "list index out of range")
      | (_, body) :: _ =>
          fun s => match read_type E (type s) body with
                   | Ok v => (set_value v s, Ok tt)
                   | Raise e => (s, Raise e)
                   end
      end
  end.

End InputValue.

(** ** numpy, as far as the array leaf uses it *)

Module np.

(** [value.shape] *)
Definition shape (v : pyval) : res pyval :=
  match v with
  | PArray sh _ => Ok (PTuple (map PInt sh))
  | _ => Raise (AttributeError "object has no attribute 'shape'")
  end.

(** [np.array(value, dtype=ty).flatten().copy()] for an ndarray [value] *)
Definition flatten (ty : pytype) (v : pyval) : res (list pyval) :=
  match v with
  | PArray _ d => mapM ty d
  | _ => Raise (AttributeError "object has no attribute 'shape'")
  end.

(** The entries of a shape tuple, as integers. *)
Definition dim (v : pyval) : res Z :=
  match v with
  | PInt z => Ok z
  | PBool b => Ok (b2z b)
  | _ => Raise (TypeError "an integer is required")
  end.

Definition dims (v : pyval) : res (list Z) :=
  match v with
  | PTuple l => mapM dim l
  | _ => Raise (TypeError "expected sequence object")
  end.

Definition count_unknown (l : list Z) : nat :=
  length (filter (fun z => Z.ltb z 0) l).
Definition known (l : list Z) : list Z := filter (fun z => negb (Z.ltb z 0)) l.

Definition cannot_reshape : exn := ValueError "total size of new array must be unchanged".

(** [a.reshape(newshape)] on flat data: one entry may be negative and is
    then inferred from the others; the sizes must agree. *)
Definition reshape (data : list pyval) (newshape : pyval) : res pyval :=
  rbind (dims newshape) (fun l =>
    let n := Z.of_nat (length data) in
    match count_unknown l with
    | O => if Z.eqb (prodZ l) n then Ok (PArray l data) else Raise cannot_reshape
    | S O =>
        let p := prodZ (known l) in
        if Z.eqb p 0 then Raise cannot_reshape
        else if Z.eqb (n mod p) 0
             then Ok (PArray (map (fun z => if Z.ltb z 0 then n / p else z) l) data)
             else Raise cannot_reshape
    | _ => Raise (ValueError "can only specify one unknown dimension")
    end).

(** [np.resize(a, 0).copy()] *)
Definition resize0 (data : list pyval) : pyval := PArray [0] [].

(** an ndarray as numpy builds it: nonnegative sizes whose product is the
    number of elements *)
Definition wf (sh : list Z) (d : list pyval) : Prop :=
  Forall (fun z => 0 <= z) sh /\ prodZ sh = Z.of_nat (length d).

End np.

(** ** InputArray: the array leaf *)

Module InputArray.

Record t : Type := mk {
  base : Input.t;
  type : pytype;
  value : option (list pyval);     (* flat; [None]: attribute not yet set *)
  shape : InputValue.t
}.

Definition with_base (b : Input.t) (s : t) : t := mk b (type s) (value s) (shape s).
Definition set_value (v : list pyval) (s : t) : t := mk (base s) (type s) (Some v) (shape s).
Definition set_shape (n : InputValue.t) (s : t) : t := mk (base s) (type s) (value s) n.
Definition set_units (u : string) (s : t) : t := with_base (Input.set_units u (base s)) s.

Definition shape_attr {A} (m : M InputValue.t A) : M t A := on_attr shape set_shape m.

Definition read_value : M t (list pyval) := fun s =>
  match value s with
  | Some v => (s, Ok v)
  | None => (s, Raise (AttributeError "'InputArray' object has no attribute 'value'"))
  end.

Definition zero_shape : pyval := PTuple [PInt 0].

(** [InputArray.store]: lines 696-708 *)
Definition store (E : external) (v : pyval) : M t unit :=
  modify (fun s => with_base (Input.set_explicit true (base s)) s) ;;;
  sh <- lift (np.shape v) ;;
  shape_attr (InputValue.store sh) ;;;
  (fun s => match np.flatten (type s) v with
            | Ok d => (set_value d s, Ok tt)
            | Raise e => (s, Raise e)
            end) ;;;
  cur <- shape_attr (InputValue.fetch E) ;;
  if py_eq cur zero_shape
  then d <- read_value ;;
       shape_attr (InputValue.store (PTuple [PInt (Z.of_nat (length d))]))
  else ret tt.

Definition cls (E : external) : Input.class t :=
  Input.mkClass base with_base "InputArray" Input.default_help Input.default_label
                (store E).

(** [InputArray.fetch]: lines 710-723 *)
Definition fetch (E : external) : M t pyval :=
  Input.check (cls E) ;;;
  cur <- shape_attr (InputValue.fetch E) ;;
  arr <- (if py_eq cur zero_shape
          then d <- read_value ;; ret (np.resize0 d)
          else d <- read_value ;;
               sh <- shape_attr (InputValue.fetch E) ;;
               lift (np.reshape d sh)) ;;
  fun s => if negb (String.eqb (Input._dimension (base s)) "undefined")
           then (s, Ok (np_mul E arr (unit_to_internal E (Input._dimension (base s))
                                                       (Input.units (base s)) (float_one E))))
           else (s, Ok arr).

(** The class-level [attribs] dictionary: lines 673-676. *)
Definition new_shape (E : external) : res InputValue.t :=
  InputValue.__init__ E (Some "The shape of the array.") None None
                      (DValue zero_shape) (Some py_tuple) None.

(** [InputArray.__init__]: lines 678-694 *)
Definition __init__ (E : external) (help dimension units : option string)
           (default : default_arg) (dtype : option pytype) : res t :=
  match dtype with
  | None => Raise (TypeError "You must provide dtype")
  | Some ty =>
      Input.__init__ (cls E) help dimension units default
                     (fun b => rbind (new_shape E) (fun n => Ok (mk b ty None n)))
  end.

Definition dict_keys (s : t) : list string :=
  ["type"; "extra"; "_help"; "_dimension"; "units"; "_default"; "_optional";
   "_explicit"; "_label"; "shape"] ++ (match value s with Some _ => ["value"] | None => [] end).

(** The loop of lines 793-797. *)
Fixpoint parse_attribs (name : string) (keys : list string)
         (attribs : list (string * string)) : res unit :=
  match attribs with
  | [] => Ok tt
  | (a, _) :: rest =>
      if String.eqb a "shape" || String.eqb a "units" then parse_attribs name keys rest
      else if negb (existsb (String.eqb a) keys)
           then Raise (InputValue.unrecognized_attribute a name)
           else Raise (AttributeError "object has no attribute 'store'")
  end.

Definition read_into_value (E : external) (body : xml_node) : M t unit := fun s =>
  match read_array E (type s) body with
  | Ok d => (set_value d s, Ok tt)
  | Raise e => (s, Raise e)
  end.

(** [InputArray.parse]: lines 771-797 *)
Definition parse (E : external) (xml : option xml_node) (text : string) : M t unit :=
  modify (fun s => with_base (Input.set_explicit true (base s)) s) ;;;
  match xml with
  | None => read_into_value E (XText text)
  | Some (XText _) => raise (AttributeError "'str' object has no attribute 'fields'")
  | Some (XNode _ _ []) => raise (IndexError "list index out of range")
  | Some (XNode name attribs ((tag, body) :: _)) =>
      if negb (String.eqb tag "_text")
      then raise (ValueError "InputArray should not contain further XML tags")
      else
        read_into_value E body ;;;
        modify (fun s => match assoc "units" attribs with
                         | Some u => set_units u s
                         | None => s
                         end) ;;;
        (match assoc "shape" attribs with
         | Some txt =>
             sh <- lift (read_type E py_tuple (XText txt)) ;;
             shape_attr (InputValue.store sh)
         | None =>
             d <- read_value ;;
             shape_attr (InputValue.store (PTuple [PInt (Z.of_nat (length d))]))
         end) ;;;
        fun s => (s, parse_attribs name (dict_keys s) attribs)
  end.

End InputArray.

(** ** Composite nodes: the methods of [Input] that walk the tree

    A class derived from [Input] that keeps the inherited [store], [parse]
    and [extend] is given by its three class-level dictionaries.  The
    entries [(cls, kwargs)] of those dictionaries are [schema] values. *)

Module Tree.

Inductive schema : Type :=
| SValue (help dimension units : option string) (default : default_arg)
         (dtype : option pytype) (options : option (list pyval))
| SArray (help dimension units : option string) (default : default_arg)
         (dtype : option pytype)
| SInput (cname : string) (attribs fields dynamic : list (string * schema))
         (help dimension units : option string) (default : default_arg).

Record decl : Type := mkDecl {
  cname : string;
  attribs : list (string * schema);
  fields : list (string * schema);
  dynamic : list (string * schema)
}.

Inductive node : Type :=
| NValue (v : InputValue.t)
| NArray (a : InputArray.t)
| NInput (c : composite)
with composite : Type :=
| Composite (base : Input.t) (d : decl)
            (dict : list (string * node))     (* the children in [__dict__] *)
            (extra : list (string * node)).

Definition base (c : composite) : Input.t := let (b, _, _, _) := c in b.
Definition cdecl (c : composite) : decl := let (_, d, _, _) := c in d.
Definition dict (c : composite) : list (string * node) := let (_, _, m, _) := c in m.
Definition extra (c : composite) : list (string * node) := let (_, _, _, x) := c in x.

Definition with_base (b : Input.t) (c : composite) : composite :=
  Composite b (cdecl c) (dict c) (extra c).
Definition set_dict (m : list (string * node)) (c : composite) : composite :=
  Composite (base c) (cdecl c) m (extra c).
Definition set_extra (x : list (string * node)) (c : composite) : composite :=
  Composite (base c) (cdecl c) (dict c) x.

Definition node_base (n : node) : Input.t :=
  match n with
  | NValue v => InputValue.base v
  | NArray a => InputArray.base a
  | NInput c => base c
  end.

(** [not (v._explicit or v._optional)] *)
Definition missing (n : node) : bool :=
  negb (Input._explicit (node_base n) || Input._optional (node_base n)).

Definition cls (D : decl) : Input.class composite :=
  Input.mkClass base with_base (cname D) Input.default_help Input.default_label
                (fun _ => modify (fun c => with_base (Input.set_explicit true (base c)) c)).

Section WithReaders.
Variable E : external.

(** The two loops of [Input.__init__], lines 167-171, given the
    constructor of each entry. *)
Fixpoint build (new : schema -> res node) (l : list (string * schema))
         (m : list (string * node)) : res (list (string * node)) :=
  match l with
  | [] => Ok m
  | (f, v) :: r => rbind (new v) (fun n => build new r (assoc_set f n m))
  end.

(** Calling the class of an entry of a class-level dictionary on its
    keyword arguments. *)
Fixpoint construct (s : schema) : res node :=
  match s with
  | SValue h d u def ty opts =>
      rbind (InputValue.__init__ E h d u def ty opts) (fun v => Ok (NValue v))
  | SArray h d u def ty =>
      rbind (InputArray.__init__ E h d u def ty) (fun a => Ok (NArray a))
  | SInput name ats fs dyn h d u def =>
      let D := mkDecl name ats fs dyn in
      rbind (Input.__init__ (cls D) h d u def
               (fun b => rbind (rbind (build construct fs []) (build construct ats))
                               (fun m => Ok (Composite b D m []))))
            (fun c => Ok (NInput c))
  end.

(** [child.parse(text=v)], whatever the class of the child *)
Definition parse_text (text : string) (self : node) : node * res unit :=
  match self with
  | NValue v => let (v', r) := InputValue.parse E None text v in (NValue v', r)
  | NArray a => let (a', r) := InputArray.parse E None text a in (NArray a', r)
  | NInput c =>
      (NInput (with_base (Input.set_explicit true (base c)) (set_extra [] c)),
       Raise (ValueError "Input.parse should be called with a xml tag"))
  end.

Definition unrecognized_tag (f name : string) : exn :=
  NameError ("Tag name '" ++ f ++ "' is not a recognized property of '"
             ++ name ++ "' objects").

Definition key_error (k : string) : exn := KeyError k.

(** The attribute loop of [Input.parse]: lines 285-291. *)
Fixpoint parse_attribs (name : string) (l : list (string * string)) : M composite unit :=
  match l with
  | [] => ret tt
  | (a, v) :: rest =>
      fun c =>
        if has_key a (attribs (cdecl c)) then
          match assoc a (dict c) with
          | None => (c, Raise (key_error a))
          | Some child =>
              let (child', r) := parse_text v child in
              let c' := set_dict (assoc_set a child' (dict c)) c in
              match r with
              | Ok _ => parse_attribs name rest c'
              | Raise e => (c', Raise e)
              end
          end
        else if String.eqb a "_text" then parse_attribs name rest c
        else (c, Raise (InputValue.unrecognized_attribute a name))
  end.

(** [Input.extend]: lines 207-220, given the [parse] of the new node *)
Definition extend (parse : xml_node -> node -> node * res unit)
           (name : string) (xml : xml_node) : M composite unit := fun c =>
  match assoc name (dynamic (cdecl c)) with
  | None => (c, Raise (key_error name))
  | Some tmpl =>
      match construct tmpl with
      | Raise e => (c, Raise e)
      | Ok newfield =>
          match parse xml newfield with
          | (_, Raise e) => (c, Raise e)
          | (newfield', Ok _) => (set_extra (extra c ++ [(name, newfield')]) c, Ok tt)
          end
      end
  end.

(** The child loop of [Input.parse]: lines 295-303. *)
Fixpoint parse_fields (parse : xml_node -> node -> node * res unit)
         (name : string) (l : list (string * xml_node)) : M composite unit :=
  match l with
  | [] => ret tt
  | (f, v) :: rest =>
      fun c =>
        if has_key f (fields (cdecl c)) then
          match assoc f (dict c) with
          | None => (c, Raise (key_error f))
          | Some child =>
              let (child', r) := parse v child in
              let c' := set_dict (assoc_set f child' (dict c)) c in
              match r with
              | Ok _ => parse_fields parse name rest c'
              | Raise e => (c', Raise e)
              end
          end
        else if String.eqb f "_text" then parse_fields parse name rest c
        else if has_key f (dynamic (cdecl c)) then
          (extend parse f v ;;; parse_fields parse name rest) c
        else (c, Raise (unrecognized_tag f name))
  end.

Definition mandatory_attribute (a name : string) : exn :=
  ValueError ("Attribute name '" ++ a
              ++ "' is mandatory and was not found in the input for the property " ++ name).
Definition mandatory_field (f name : string) : exn :=
  ValueError ("Field name '" ++ f
              ++ "' is mandatory and was not found in the input for the property " ++ name).

(** One of the two closing loops of [Input.parse]: lines 305-312. *)
Fixpoint first_missing (keys : list string) (m : list (string * node))
  : res (option string) :=
  match keys with
  | [] => Ok None
  | k :: rest =>
      match assoc k m with
      | None => Raise (key_error k)
      | Some n => if missing n then Ok (Some k) else first_missing rest m
      end
  end.

Definition check_mandatory (name : string) : M composite unit := fun c =>
  match first_missing (map fst (attribs (cdecl c))) (dict c) with
  | Raise e => (c, Raise e)
  | Ok (Some a) => (c, Raise (mandatory_attribute a name))
  | Ok None =>
      match first_missing (map fst (fields (cdecl c))) (dict c) with
      | Raise e => (c, Raise e)
      | Ok (Some f) => (c, Raise (mandatory_field f name))
      | Ok None => (c, Ok tt)
      end
  end.

(** [Input.adapt]: lines 178-183 *)
Definition adapt : M composite unit := ret tt.

(** The first two statements of [Input.parse]: lines 280-281. *)
Definition reset (c : composite) : composite :=
  with_base (Input.set_explicit true (base c)) (set_extra [] c).

(** [node.parse(xml=x)]: [InputValue.parse], [InputArray.parse] or
    [Input.parse] (lines 258-312), by the class of the node. *)
Fixpoint parse (x : xml_node) (self : node) {struct x} : node * res unit :=
  match self with
  | NValue v => let (v', r) := InputValue.parse E (Some x) "" v in (NValue v', r)
  | NArray a => let (a', r) := InputArray.parse E (Some x) "" a in (NArray a', r)
  | NInput c =>
      match x with
      | XText _ =>
          (NInput (reset c), Raise (AttributeError "'str' object has no attribute 'attribs'"))
      | XNode name xattribs xfields =>
          let (c', r) :=
            (parse_attribs name xattribs ;;;
             adapt ;;;
             parse_fields parse name xfields ;;;
             check_mandatory name) (reset c) in
          (NInput c', r)
      end
  end.

(** [node.store(value)] and [node.fetch()], by the class of the node;
    a composite node of this kind has the methods of [Input] itself
    (lines 185-195). *)
Definition store (v : pyval) (self : node) : node * res unit :=
  match self with
  | NValue x => let (x', r) := InputValue.store v x in (NValue x', r)
  | NArray a => let (a', r) := InputArray.store E v a in (NArray a', r)
  | NInput c => let (c', r) := Input.store (cls (cdecl c)) v c in (NInput c', r)
  end.

Definition fetch (self : node) : node * res pyval :=
  match self with
  | NValue x => let (x', r) := InputValue.fetch E x in (NValue x', r)
  | NArray a => let (a', r) := InputArray.fetch E a in (NArray a', r)
  | NInput c =>
      let (c', r) := (Input.check (cls (cdecl c)) ;;; ret PNone) c in (NInput c', r)
  end.

Definition is_explicit (n : node) : bool := Input._explicit (node_base n).
Definition is_optional (n : node) : bool := Input._optional (node_base n).

(** Whether key [k] of the instance dictionary [m] holds a node that
    is neither explicit nor optional. *)
Definition is_missing (m : list (string * node)) (k : string) : bool :=
  match assoc k m with
  | Some n => missing n
  | None => false
  end.

End WithReaders.

End Tree.


(** ** Domain objects

    Modelled from the spec: the classes of [ipi.engine.motion] are not part
    of these files.  By section 6 the core only needs, per kind, the
    constructor's keyword set; an object is its class together with the
    attributes the constructor was given, and [MultiMotion(motionlist=l)]
    keeps [l] as [mlist], the attribute that [InputMotion.store] reads. *)

Definition new_object (cls : string) (kwargs : list (string * pyval)) : pyval :=
  PInstance cls kwargs.

Definition new_MultiMotion (motionlist : list pyval) : pyval :=
  PInstance "MultiMotion" [("mlist", PList motionlist)].

(** [type(x) is cls] for one of the engine classes *)
Definition type_is (x : pyval) (cls : string) : bool :=
  match x with
  | PInstance c _ => String.eqb c cls
  | _ => false
  end.

(** [x.name] *)
Definition getattr (x : pyval) (name : string) : res pyval :=
  match x with
  | PInstance _ attrs =>
      match assoc name attrs with
      | Some v => Ok v
      | None => Raise (AttributeError ("object has no attribute '" ++ name ++ "'"))
      end
  | _ => Raise (AttributeError ("object has no attribute '" ++ name ++ "'"))
  end.

(** [for m in x] *)
Definition iterate (x : pyval) : res (list pyval) :=
  match x with
  | PList l | PTuple l => Ok l
  | _ => Raise (TypeError "object is not iterable")
  end.

(** ** The sub-schemas of the motion node

    [InputGeop], [InputNEB], [InputDynamics], [InputInitFile],
    [InputDynMatrix] and [InputAlchemy] are declared elsewhere; each is a
    schema node with a constructor, a [store] and a [fetch]. *)

Class Slots : Type := mkSlots {
  sub : Type;
  slot_new : string -> res sub;
  slot_store : string -> pyval -> M sub unit;
  slot_fetch : string -> M sub pyval
}.

(** ** InputMotionBase: the variant dispatcher *)

Module InputMotionBase.
Section WithSlots.
Context {SL : Slots}.
Variable E : external.

Record t : Type := mk {
  base : Input.t;
  mode : InputValue.t;
  fixcom : InputValue.t;
  fixatoms : InputArray.t;
  optimizer : sub;
  neb_optimizer : sub;
  dynamics : sub;
  file : sub;
  vibrations : sub;
  alchemy : sub
}.

Definition with_base b s := mk b (mode s) (fixcom s) (fixatoms s) (optimizer s)
  (neb_optimizer s) (dynamics s) (file s) (vibrations s) (alchemy s).
Definition set_mode x s := mk (base s) x (fixcom s) (fixatoms s) (optimizer s)
  (neb_optimizer s) (dynamics s) (file s) (vibrations s) (alchemy s).
Definition set_fixcom x s := mk (base s) (mode s) x (fixatoms s) (optimizer s)
  (neb_optimizer s) (dynamics s) (file s) (vibrations s) (alchemy s).
Definition set_fixatoms x s := mk (base s) (mode s) (fixcom s) x (optimizer s)
  (neb_optimizer s) (dynamics s) (file s) (vibrations s) (alchemy s).
Definition set_optimizer x s := mk (base s) (mode s) (fixcom s) (fixatoms s) x
  (neb_optimizer s) (dynamics s) (file s) (vibrations s) (alchemy s).
Definition set_neb_optimizer x s := mk (base s) (mode s) (fixcom s) (fixatoms s)
  (optimizer s) x (dynamics s) (file s) (vibrations s) (alchemy s).
Definition set_dynamics x s := mk (base s) (mode s) (fixcom s) (fixatoms s)
  (optimizer s) (neb_optimizer s) x (file s) (vibrations s) (alchemy s).
Definition set_file x s := mk (base s) (mode s) (fixcom s) (fixatoms s)
  (optimizer s) (neb_optimizer s) (dynamics s) x (vibrations s) (alchemy s).
Definition set_vibrations x s := mk (base s) (mode s) (fixcom s) (fixatoms s)
  (optimizer s) (neb_optimizer s) (dynamics s) (file s) x (alchemy s).
Definition set_alchemy x s := mk (base s) (mode s) (fixcom s) (fixatoms s)
  (optimizer s) (neb_optimizer s) (dynamics s) (file s) (vibrations s) x.

Definition mode_ {A} (m : M InputValue.t A) : M t A := on_attr mode set_mode m.
Definition fixcom_ {A} (m : M InputValue.t A) : M t A := on_attr fixcom set_fixcom m.
Definition fixatoms_ {A} (m : M InputArray.t A) : M t A := on_attr fixatoms set_fixatoms m.
Definition optimizer_ {A} (m : M sub A) : M t A := on_attr optimizer set_optimizer m.
Definition neb_optimizer_ {A} (m : M sub A) : M t A :=
  on_attr neb_optimizer set_neb_optimizer m.
Definition dynamics_ {A} (m : M sub A) : M t A := on_attr dynamics set_dynamics m.
Definition file_ {A} (m : M sub A) : M t A := on_attr file set_file m.
Definition vibrations_ {A} (m : M sub A) : M t A := on_attr vibrations set_vibrations m.
Definition alchemy_ {A} (m : M sub A) : M t A := on_attr alchemy set_alchemy m.

(** The option list of [mode], line 59.  [InputMotion.attribs] is a
    shallow copy of this class's dictionary, so the [append] of line 163
    acts on the one list both classes see. *)
Definition options_as_written : list pyval :=
  [PStr "vibrations"; PStr "minimize"; PStr "replay"; PStr "neb"; PStr "dynamics";
   PStr "alchemy"; PStr "dummy"].
Definition options : list pyval := options_as_written ++ [PStr "multi"].

(** [InputMotionBase.store]: lines 86-127 *)
Definition store (sc : pyval) : M t unit :=
  modify (fun s => with_base (Input.set_explicit true (base s)) s) ;;;
  tsc <- (if type_is sc "Motion" then
            mode_ (InputValue.store (PStr "dummy")) ;;; ret (-1)
          else if type_is sc "Replay" then
            mode_ (InputValue.store (PStr "replay")) ;;; ret 0
          else if type_is sc "GeopMotion" then
            mode_ (InputValue.store (PStr "minimize")) ;;;
            optimizer_ (slot_store "optimizer" sc) ;;; ret 1
          else if type_is sc "NEBMover" then
            mode_ (InputValue.store (PStr "neb")) ;;;
            neb_optimizer_ (slot_store "neb_optimizer" sc) ;;; ret 1
          else if type_is sc "Dynamics" then
            mode_ (InputValue.store (PStr "dynamics")) ;;;
            dynamics_ (slot_store "dynamics" sc) ;;; ret 1
          else if type_is sc "DynMatrixMover" then
            mode_ (InputValue.store (PStr "vibrations")) ;;;
            vibrations_ (slot_store "vibrations" sc) ;;; ret 1
          else if type_is sc "AlchemyMC" then
            mode_ (InputValue.store (PStr "alchemy")) ;;;
            alchemy_ (slot_store "alchemy" sc) ;;; ret 1
          else
            raise (ValueError ("Cannot store Mover calculator of type " ++ type_str E sc))) ;;
  if Z.eqb tsc 0 then
    intraj <- lift (getattr sc "intraj") ;;
    file_ (slot_store "file" intraj)
  else if Z.gtb tsc 0 then
    fc <- lift (getattr sc "fixcom") ;;
    fixcom_ (InputValue.store fc) ;;;
    fa <- lift (getattr sc "fixatoms") ;;
    fixatoms_ (InputArray.store E fa)
  else ret tt.

Definition default_help :=
  "Allow chosing the type of calculation to be performed. Holds all the information that is calculation specific, such as geometry optimization parameters, etc.".
Definition default_label := "MOTION".

Definition cls : Input.class t :=
  Input.mkClass base with_base "InputMotionBase" default_help default_label store.

(** The field and attribute objects of lines 57-79.

    Modelled from the spec: [InputAttribute], the class of [mode], comes
    from a later [inputvalue.py] than the one at hand.  Section 3 has the
    discriminator as "an enumerated Scalar Leaf", so it is built as an
    [InputValue]. *)
Definition new_mode : res InputValue.t :=
  InputValue.__init__ E (Some "How atoms should be moved at each step in the simulatio. 'replay' means that a simulation is restarted from a previous simulation.")
                      None None (DValue PNone) (Some (str_type E)) (Some options).
Definition new_fixcom : res InputValue.t :=
  InputValue.__init__ E (Some "This describes whether the centre of mass of the particles is fixed.")
                      None None (DValue (PBool true)) (Some py_bool) None.
Definition new_fixatoms : res InputArray.t :=
  InputArray.__init__ E (Some "Indices of the atmoms that should be held fixed.")
                      None None (DValue (PArray [0] [])) (Some (py_int E)).

(** The loops of lines 167-171 of [Input.__init__] for this class. *)
Definition children (b : Input.t) : res t :=
       rbind new_fixcom (fun fc =>
       rbind new_fixatoms (fun fa =>
       rbind (slot_new "optimizer") (fun o =>
       rbind (slot_new "neb_optimizer") (fun n =>
       rbind (slot_new "dynamics") (fun d =>
       rbind (slot_new "file") (fun f =>
       rbind (slot_new "vibrations") (fun v =>
       rbind (slot_new "alchemy") (fun a =>
       rbind new_mode (fun m =>
       Ok (mk b m fc fa o n d f v a)))))))))).

(** The constructor inherited from [Input]. *)
Definition __init__ (help dimension units : option string) (default : default_arg) : res t :=
  Input.__init__ cls help dimension units default children.

(** Keyword expansion of a fetched sub-schema after the two common
    keywords. *)
Definition expand (v : pyval) : res (list (string * pyval)) :=
  match v with
  | PDict kw =>
      if has_key "fixcom" kw || has_key "fixatoms" kw
      then Raise (TypeError "got multiple values for keyword argument")
      else Ok kw
  | _ => Raise (TypeError "argument after ** must be a mapping")
  end.

Definition mode_is (tag : string) : M t bool :=
  m <- mode_ (InputValue.fetch E) ;; ret (py_eq m (PStr tag)).

Definition common : M t (list (string * pyval)) :=
  fc <- fixcom_ (InputValue.fetch E) ;;
  fa <- fixatoms_ (InputArray.fetch E) ;;
  ret [("fixcom", fc); ("fixatoms", fa)].

Definition build (cls : string) (slot : M t pyval) : M t pyval :=
  kw <- common ;;
  v <- slot ;;
  extra <- lift (expand v) ;;
  ret (new_object cls (kw ++ extra)).

(** [InputMotionBase.fetch]: lines 129-155, run on an instance of the
    class called [name]: the [self.check()] of [Input.fetch] names
    [type(self)], which is a derived class when the method is reached
    through [super]. *)
Definition fetch_as (name : string) : M t pyval :=
  Input.check (Input.mkClass base with_base name default_help default_label store) ;;;
  b <- mode_is "replay" ;;
  if b then
    kw <- common ;;
    intraj <- file_ (slot_fetch "file") ;;
    ret (new_object "Replay" (kw ++ [("intraj", intraj)]))
  else
  b <- mode_is "minimize" ;;
  if b then build "GeopMotion" (optimizer_ (slot_fetch "optimizer")) else
  b <- mode_is "neb" ;;
  if b then build "NEBMover" (neb_optimizer_ (slot_fetch "neb_optimizer")) else
  b <- mode_is "dynamics" ;;
  if b then build "Dynamics" (dynamics_ (slot_fetch "dynamics")) else
  b <- mode_is "vibrations" ;;
  if b then build "DynMatrixMover" (vibrations_ (slot_fetch "vibrations")) else
  b <- mode_is "alchemy" ;;
  if b then build "AlchemyMC" (alchemy_ (slot_fetch "alchemy")) else
  ret (new_object "Motion" []).

Definition fetch : M t pyval := fetch_as "InputMotionBase".

End WithSlots.
End InputMotionBase.

(** ** InputMotion: the dispatcher with the "multi" kind *)

Module InputMotion.
Section WithSlots.
Context {SL : Slots}.
Variable E : external.

(** An [InputMotion] is an [InputMotionBase] whose [extra] list is in
    use; its entries are made by [store] (line 174) or from the dynamic
    template "motion" (line 165), both of class [InputMotionBase]. *)
Record t : Type := mk {
  as_base : InputMotionBase.t;
  extra : list (string * InputMotionBase.t)
}.

Definition set_as_base b s := mk b (extra s).
Definition set_extra x s := mk (as_base s) x.

Definition super {A} (m : M InputMotionBase.t A) : M t A := on_attr as_base set_as_base m.
Definition mode_ {A} (m : M InputValue.t A) : M t A := super (InputMotionBase.mode_ m).

Definition explicit (s : t) : bool := Input._explicit (InputMotionBase.base (as_base s)).

(** The loop of lines 173-176. *)
Fixpoint store_each (l : list pyval) : M t unit :=
  match l with
  | [] => ret tt
  | m :: rest =>
      im <- lift (InputMotionBase.__init__ E None None None (DValue PNone)) ;;
      (fun s => match InputMotionBase.store E m im with
                | (im', Ok _) => (set_extra (extra s ++ [("motion", im')]) s, Ok tt)
                | (_, Raise e) => (s, Raise e)
                end) ;;;
      store_each rest
  end.

(** [InputMotion.store]: lines 169-178 *)
Definition store (motion : pyval) : M t unit :=
  if type_is motion "MultiMotion" then
    mode_ (InputValue.store (PStr "multi")) ;;;
    ml <- lift (rbind (getattr motion "mlist") iterate) ;;
    store_each ml
  else super (InputMotionBase.store E motion).

(** The loop of lines 184-185: each entry is fetched in turn. *)
Fixpoint fetch_each (l : list (string * InputMotionBase.t))
  : list (string * InputMotionBase.t) * res (list pyval) :=
  match l with
  | [] => ([], Ok [])
  | (k, m) :: rest =>
      match InputMotionBase.fetch E m with
      | (m', Raise e) => ((k, m') :: rest, Raise e)
      | (m', Ok v) =>
          let (rest', r) := fetch_each rest in
          ((k, m') :: rest', rbind r (fun vs => Ok (v :: vs)))
      end
  end.

(** [InputMotion.fetch]: lines 180-190 *)
Definition fetch : M t pyval :=
  m <- mode_ (InputValue.fetch E) ;;
  if py_eq m (PStr "multi") then
    mlist <- on_attr extra set_extra fetch_each ;;
    ret (new_MultiMotion mlist)
  else super (InputMotionBase.fetch_as E "InputMotion").

Definition cls : Input.class t :=
  Input.mkClass (fun s => InputMotionBase.base (as_base s))
                (fun i s => set_as_base (InputMotionBase.with_base i (as_base s)) s)
                "InputMotion" InputMotionBase.default_help InputMotionBase.default_label
                store.

(** The constructor is the inherited one; [extra] starts empty
    (line 134). *)
Definition __init__ (help dimension units : option string) (default : default_arg) : res t :=
  Input.__init__ cls help dimension units default
                 (fun b => rbind (InputMotionBase.children E b) (fun x => Ok (mk x []))).

End WithSlots.
End InputMotion.

(** ** An environment to run the definitions in

    The readers are given by the texts they are asked to read; [str] and
    [int] are given on the values that occur below. *)

Module Sample.

Definition texts : list (string * pyval) :=
  [("(2, 3)", PTuple [PInt 2; PInt 3]);
   ("(0,)", PTuple [PInt 0]);
   ("(5,)", PTuple [PInt 5]);
   ("True", PBool true);
   ("minimize", PStr "minimize")].

Definition arrays : list (string * list pyval) :=
  [("[ 1, 2, 3, 4, 5 ]", [PInt 1; PInt 2; PInt 3; PInt 4; PInt 5]);
   ("[ 3, 7 ]", [PInt 3; PInt 7])].

Definition str (v : pyval) : string :=
  match v with
  | PStr s => s
  | PBool true => "True"
  | PBool false => "False"
  | PNone => "None"
  | _ => "<object>"
  end.

Definition int : pytype := fun v =>
  match v with
  | PInt z => Ok (PInt z)
  | PBool b => Ok (PInt (b2z b))
  | _ => Raise (TypeError "int() argument must be a string or a number")
  end.

Definition env : external :=
  mkExternal
    (fun ty x => match x with
                 | XText s => match assoc s texts with
                              | Some v => ty v
                              | None => Raise (ValueError "could not read the text")
                              end
                 | XNode _ _ _ => Raise (TypeError "expected a string")
                 end)
    (fun ty x => match x with
                 | XText s => match assoc s arrays with
                              | Some l => mapM ty l
                              | None => Raise (ValueError "could not read the text")
                              end
                 | XNode _ _ _ => Raise (TypeError "expected a string")
                 end)
    (fun _ _ v => v)
    (fun a _ => a)
    (PInt 1)
    str
    int
    (fun v => match v with PInstance c _ => c | _ => "<type>" end).

(** Sub-schemas that keep what they are given: the file slot returns the
    stored value, the others the stored object's attributes beyond the
    two common ones, as a keyword dictionary. *)
Definition kwargs_of (v : pyval) : pyval :=
  match v with
  | PInstance _ attrs =>
      PDict (filter (fun kv => negb (String.eqb (fst kv) "fixcom"
                                     || String.eqb (fst kv) "fixatoms")) attrs)
  | _ => PDict []
  end.

#[export] Instance slots : Slots :=
  mkSlots (fun _ => Ok PNone)
          (fun name v _ => (v, Ok tt))
          (fun name x => (x, Ok (if String.eqb name "file" then x else kwargs_of x))).

End Sample.

(** ** Vocabulary of the statements *)

Definition explicit_value (s : InputValue.t) : bool :=
  Input._explicit (InputValue.base s).

(** A mandatory scalar leaf of type [tuple] that was never given a value,
    as [InputValue(dtype=tuple)] builds it. *)
Definition bare_tuple_leaf : InputValue.t :=
  InputValue.mk (Input.mk "Generic input value" "undefined" "" PNone false false "")
                py_tuple None None.

Ltac run := unfold bind, modify, ret, raise, lift, on_attr; cbn.

(** The [shape] attribute of an array leaf is as the class declares it
    (lines 673-676): a [tuple] leaf without options or dimension. *)
Definition shape_as_declared (a : InputArray.t) : Prop :=
  InputValue.type (InputArray.shape a) = py_tuple /\
  InputValue._valid (InputArray.shape a) = None /\
  Input._dimension (InputValue.base (InputArray.shape a)) = "undefined".


(** The enumerated leaf [InputValue(dtype=str, options=['a', 'b'])]. *)
Definition ab_leaf : InputValue.t :=
  InputValue.mk (Input.mk "Generic input value" "undefined" "" PNone false false "")
                (str_type Sample.env) None (Some [PStr "a"; PStr "b"]).

(** The array leaf [InputArray(dtype=int)]. *)
Definition int_array_leaf : InputArray.t :=
  InputArray.mk (Input.mk "Generic input value" "undefined" "" PNone false false "")
                Sample.int None
                (InputValue.mk
                   (Input.mk "The shape of the array." "undefined" "" (PTuple [PInt 0])
                             true false "")
                   py_tuple (Some (PTuple [PInt 0])) None).

(** The shape node after [shape.store(t)] for a tuple [t]. *)
Definition shape_after (t : list pyval) (n : InputValue.t) : InputValue.t :=
  InputValue.set_value (PTuple t)
    (InputValue.with_base (Input.set_explicit true (InputValue.base n)) n).

(** An array leaf after a successful [store] of data [d] of shape [t]. *)
Definition array_after (t : list pyval) (d : list pyval) (a : InputArray.t) : InputArray.t :=
  InputArray.mk (Input.set_explicit true (InputArray.base a)) (InputArray.type a)
                (Some d) (shape_after t (InputArray.shape a)).

Arguments InputValue.store : simpl never.
Arguments InputValue.fetch : simpl never.
Arguments InputValue.check : simpl never.
Arguments InputValue.parse : simpl never.
Arguments InputArray.store : simpl never.
Arguments InputArray.fetch : simpl never.
Arguments InputArray.parse : simpl never.


(** The shape attribute of a new array leaf:
    [InputValue(dtype=tuple, help=..., default=(0,))]. *)
Definition new_shape_leaf : InputValue.t :=
  InputValue.mk (Input.mk "The shape of the array." "undefined" "" (PTuple [PInt 0])
                          true false "")
                py_tuple (Some (PTuple [PInt 0])) None.

(** An array leaf after [parse] read data [d] and a declared shape [t];
    [u] is the [units] attribute of the tag, if any. *)
Definition parsed_array (u : option string) (t d : list pyval) (a : InputArray.t)
  : InputArray.t :=
  InputArray.mk
    (match u with
     | Some x => Input.set_units x (Input.set_explicit true (InputArray.base a))
     | None => Input.set_explicit true (InputArray.base a)
     end)
    (InputArray.type a) (Some d) (shape_after t (InputArray.shape a)).

(** The attributes of an array tag that [InputArray.parse] handles. *)
Definition shape_or_units (kv : string * string) : bool :=
  String.eqb (fst kv) "shape" || String.eqb (fst kv) "units".

(** [<fixatoms shape='(2, 3)'> [ 1, 2, 3, 4, 5 ] </fixatoms>] *)
Definition five_as_2x3 : xml_node :=
  XNode "fixatoms" [("shape", "(2, 3)")] [("_text", XText "[ 1, 2, 3, 4, 5 ]")].

(** [Input.parse] on a tag up to, and without, its two closing loops: the
    receiver is reset, the attributes are parsed, [adapt] runs, and the
    children [l] are parsed. *)
Definition processed (E : external) (name : string) (xattribs : list (string * string))
           (l : list (string * xml_node)) (c : Tree.composite)
  : Tree.composite * res unit :=
  (Tree.parse_attribs E name xattribs ;;;
   Tree.adapt ;;;
   Tree.parse_fields E (Tree.parse E) name l) (Tree.reset c).

Definition attrib_names (c : Tree.composite) : list string :=
  map fst (Tree.attribs (Tree.cdecl c)).
Definition field_names (c : Tree.composite) : list string :=
  map fst (Tree.fields (Tree.cdecl c)).

(** Every declared name has its object in the instance dictionary, as
    after construction. *)
Definition children_present (c : Tree.composite) : bool :=
  forallb (fun k => has_key k (Tree.dict c)) (attrib_names c ++ field_names c).

(** A class with a mandatory attribute [mode], an optional field [fixcom]
    and a dynamic template [motion]. *)
Definition demo_schema : Tree.schema :=
  Tree.SInput "InputDemo"
    [("mode", Tree.SValue None None None (DValue PNone) (Some (str_type Sample.env)) None)]
    [("fixcom", Tree.SValue None None None (DValue (PBool true)) (Some py_bool) None)]
    [("motion", Tree.SInput "InputInner" [] [] [] None None None (DValue PNone))]
    None None None (DValue PNone).

Definition demo_node : Tree.composite :=
  Tree.Composite
    (Input.mk "Generic input value" "undefined" "" PNone false false "")
    (Tree.mkDecl "InputDemo"
       [("mode", Tree.SValue None None None (DValue PNone) (Some (str_type Sample.env)) None)]
       [("fixcom", Tree.SValue None None None (DValue (PBool true)) (Some py_bool) None)]
       [("motion", Tree.SInput "InputInner" [] [] [] None None None (DValue PNone))])
    [("fixcom",
      Tree.NValue (InputValue.mk
                     (Input.mk "Generic input value" "undefined" "" (PBool true) true false "")
                     py_bool (Some (PBool true)) None));
     ("mode",
      Tree.NValue (InputValue.mk
                     (Input.mk "Generic input value" "undefined" "" PNone false false "")
                     (str_type Sample.env) None None))]
    [].


(** [demo_node] after the attribute [mode='minimize'] has been parsed. *)
Definition demo_node_with_mode : Tree.composite :=
  fst (processed Sample.env "motion" [("mode", "minimize")] [] demo_node).

(** A new node of the dynamic template of [demo_schema], and the same
    node after parsing an empty tag. *)
Definition inner_node : Tree.node :=
  Tree.NInput (Tree.Composite
                 (Input.mk "Generic input value" "undefined" "" PNone false false "")
                 (Tree.mkDecl "InputInner" [] [] []) [] []).
Definition inner_node_parsed : Tree.node :=
  Tree.NInput (Tree.Composite
                 (Input.mk "Generic input value" "undefined" "" PNone false true "")
                 (Tree.mkDecl "InputInner" [] [] []) [] []).

(** The classes of the kinds that carry the two common attributes. *)
Definition common_kinds : list string :=
  ["GeopMotion"; "NEBMover"; "Dynamics"; "DynMatrixMover"; "AlchemyMC"].
Definition has_common (sc : pyval) : bool := existsb (type_is sc) common_kinds.

Arguments slot_store : simpl never.
Arguments slot_fetch : simpl never.
Arguments slot_new : simpl never.

(** [InputMotionBase()] in the sample environment. *)
Definition fresh_dispatcher : InputMotionBase.t (SL := Sample.slots) :=
  InputMotionBase.mk (SL := Sample.slots)
    (Input.mk InputMotionBase.default_help "undefined" "" PNone false false "MOTION")
    (InputValue.mk
       (Input.mk "How atoms should be moved at each step in the simulatio. 'replay' means that a simulation is restarted from a previous simulation."
                 "undefined" "" PNone false false "")
       (str_type Sample.env) None (Some InputMotionBase.options))
    (InputValue.mk
       (Input.mk "This describes whether the centre of mass of the particles is fixed."
                 "undefined" "" (PBool true) true false "")
       py_bool (Some (PBool true)) None)
    (InputArray.mk
       (Input.mk "Indices of the atmoms that should be held fixed."
                 "undefined" "" (PArray [0] []) true false "")
       Sample.int (Some []) (shape_after [PInt 0] new_shape_leaf))
    PNone PNone PNone PNone PNone PNone.

(** Domain objects of the scenario of section 8, and others. *)
Definition a_replay : pyval :=
  new_object "Replay" [("fixcom", PBool false); ("fixatoms", PArray [0] []);
                       ("intraj", PStr "in.xyz")].
Definition a_minimize : pyval :=
  new_object "GeopMotion" [("fixcom", PBool false);
                           ("fixatoms", PArray [2] [PInt 3; PInt 7])].

(** [InputMotion()] in the sample environment. *)
Definition fresh_motion : InputMotion.t (SL := Sample.slots) :=
  InputMotion.mk fresh_dispatcher [].

(** The discriminator values for which [InputMotionBase.fetch] has a
    branch that builds an object: lines 139-150. *)
Definition constructible_tags : list string :=
  ["replay"; "minimize"; "neb"; "dynamics"; "vibrations"; "alchemy"].

(** [Motion()], and a dispatcher that stored it. *)
Definition a_dummy : pyval := new_object "Motion" [].
Definition dummy_dispatcher : InputMotionBase.t (SL := Sample.slots) :=
  fst (InputMotionBase.store Sample.env a_dummy fresh_dispatcher).

(** The same dispatcher after [mode.store("foo")]. *)
Definition foo_dispatcher : InputMotionBase.t (SL := Sample.slots) :=
  fst (InputMotionBase.mode_ (InputValue.store (PStr "foo")) dummy_dispatcher).

(** The kinds [InputMotionBase.store] accepts, each with the
    discriminator it stores: lines 95-119. *)
Definition registered : list (string * string) :=
  [("Motion", "dummy"); ("Replay", "replay"); ("GeopMotion", "minimize");
   ("NEBMover", "neb"); ("Dynamics", "dynamics"); ("DynMatrixMover", "vibrations");
   ("AlchemyMC", "alchemy")].

Definition class_of (v : pyval) : option string :=
  match v with
  | PInstance c _ => Some c
  | _ => None
  end.

(** The discriminator node as the class declares it (line 57-59). *)
Definition mode_as_declared (E : external) (n : InputValue.t) : Prop :=
  InputValue.type n = str_type E /\
  InputValue._valid n = Some InputMotionBase.options /\
  Input._dimension (InputValue.base n) = "undefined".

(** The three nodes of a new dispatcher that do not depend on the
    sub-schemas: lines 57-66. *)
Definition fresh_mode (E : external) : InputValue.t :=
  InputValue.mk
    (Input.mk "How atoms should be moved at each step in the simulatio. 'replay' means that a simulation is restarted from a previous simulation."
              "undefined" "" PNone false false "")
    (str_type E) None (Some InputMotionBase.options).
Definition fresh_fixcom : InputValue.t :=
  InputValue.mk
    (Input.mk "This describes whether the centre of mass of the particles is fixed."
              "undefined" "" (PBool true) true false "")
    py_bool (Some (PBool true)) None.
Definition fresh_fixatoms (E : external) : InputArray.t :=
  InputArray.mk
    (Input.mk "Indices of the atmoms that should be held fixed."
              "undefined" "" (PArray [0] []) true false "")
    (py_int E) (Some []) (shape_after [PInt 0] new_shape_leaf).

(** The discriminator node of a dispatcher that stored an object
    registered under [tag]. *)
Definition mode_holding (E : external) (tag : string) : InputValue.t :=
  InputValue.set_value (PStr tag)
    (InputValue.with_base (Input.set_explicit true (InputValue.base (fresh_mode E)))
                          (fresh_mode E)).

(** What fetching a child dispatcher gives back of the object [m] that was
    stored into it: the kind; for the kinds with the common attributes, a
    boolean [fixcom] and a well-formed integer [fixatoms]; for "replay",
    the schema defaults in their place. *)
Definition reconstructs (E : external) (m o : pyval) : Prop :=
  class_of o = class_of m /\
  (has_common m = true ->
   (forall b, getattr m "fixcom" = Ok (PBool b) -> getattr o "fixcom" = Ok (PBool b)) /\
   (forall sh d, getattr m "fixatoms" = Ok (PArray sh d) -> np.wf sh d ->
                 Forall (fun x => py_int E x = Ok x) d ->
                 getattr o "fixatoms" = Ok (PArray sh d))) /\
  (type_is m "Replay" = true ->
   getattr o "fixcom" = Ok (PBool true) /\ getattr o "fixatoms" = Ok (PArray [0] [])).

(** The tags of the children of a tag that are neither declared fields nor
    "_text", in document order: the ones [Input.parse] hands to [extend]. *)
Definition dynamic_tags (D : Tree.decl) (xf : list (string * xml_node)) : list string :=
  filter (fun f => negb (has_key f (Tree.fields D)) && negb (String.eqb f "_text"))
         (map fst xf).

(** The [default] keyword of an entry of a class-level dictionary, and
    [type(self).__name__] of the node built from it. *)
Definition schema_default (s : Tree.schema) : default_arg :=
  match s with
  | Tree.SValue _ _ _ def _ _ => def
  | Tree.SArray _ _ _ def _ => def
  | Tree.SInput _ _ _ _ _ _ _ def => def
  end.

Definition class_name (n : Tree.node) : string :=
  match n with
  | Tree.NValue _ => "InputValue"
  | Tree.NArray _ => "InputArray"
  | Tree.NInput c => Tree.cname (Tree.cdecl c)
  end.

(** A method that leaves its receiver as it found it, whatever it
    returns or raises. *)
Definition read_only {S A : Type} (m : M S A) : Prop := forall s, fst (m s) = s.


(** What the last statements of [Input.__init__] (lines 173-175) leave
    when the default [v] is not [None]: the attributes were set with [v]
    as default and the node optional, the children were created, the
    class's own [store] took [v], and the explicit flag was put back. *)
Definition default_was_stored {S : Type} (C : Input.class S)
           (children : Input.t -> res S) (v : pyval) (s : S) : Prop :=
  exists b s0 s1,
    Input._default b = v /\ Input._optional b = true /\ Input._explicit b = false /\
    children b = Ok s0 /\
    Input.vstore C v s0 = (s1, Ok tt) /\
    s = Input.mark C false s1.

(** What they leave when the default is [None]: the node is as its
    children were created around the attributes, nothing was stored. *)
Definition nothing_was_stored {S : Type} (C : Input.class S)
           (children : Input.t -> res S) (optional : bool) (s : S) : Prop :=
  Input.optional C s = optional /\
  exists b,
    Input._default b = PNone /\ Input._optional b = optional /\
    Input._explicit b = false /\ children b = Ok s.

(** [input_default(factory=lambda: None)] *)
Definition descriptor_of_none : default_arg :=
  DFactory (input_default.__init__ (fun _ _ => Ok PNone) None None).

(** The sub-schema that [InputMotionBase.store] and [fetch] use for a
    class: its field name and where it sits (lines 100-119, 141-150). *)
Definition stored_in {SL : Slots} (cls : string)
  : option (string * (InputMotionBase.t -> sub)) :=
  if String.eqb cls "GeopMotion" then Some ("optimizer", InputMotionBase.optimizer)
  else if String.eqb cls "NEBMover" then Some ("neb_optimizer", InputMotionBase.neb_optimizer)
  else if String.eqb cls "Dynamics" then Some ("dynamics", InputMotionBase.dynamics)
  else if String.eqb cls "DynMatrixMover" then Some ("vibrations", InputMotionBase.vibrations)
  else if String.eqb cls "AlchemyMC" then Some ("alchemy", InputMotionBase.alchemy)
  else None.

(** The object [o] is what the constructor of class [cls] returns on the
    keywords that [InputMotionBase.fetch] reads from the nodes of [s]:
    none for [Motion]; [fixcom], [fixatoms] and the [intraj] fetched from
    the [file] node for [Replay]; [fixcom], [fixatoms] and the keywords
    fetched from the class's own sub-schema for the other kinds. *)
Definition built_from {SL : Slots} (s : InputMotionBase.t) (cls : string) (o : pyval)
  : Prop :=
  if String.eqb cls "Motion" then o = new_object "Motion" []
  else if String.eqb cls "Replay" then
    exists x fc fa,
      snd (slot_fetch "file" (InputMotionBase.file s)) = Ok x /\
      o = new_object "Replay" [("fixcom", fc); ("fixatoms", fa); ("intraj", x)]
  else
    match stored_in cls with
    | Some (k, sel) =>
        exists v kw fc fa,
          snd (slot_fetch k (sel s)) = Ok v /\
          InputMotionBase.expand v = Ok kw /\
          o = new_object cls ([("fixcom", fc); ("fixatoms", fa)] ++ kw)
    | None => False
    end.

(** The nodes of [s] hold what [InputMotionBase.store] puts there for
    the object [m], starting from the dispatcher [im0]: the [intraj] of a
    [Replay] in the [file] node, the object itself in the sub-schema of
    its class for the kinds that have one. *)
Definition holds_fields_of {SL : Slots} (im0 s : InputMotionBase.t) (m : pyval) : Prop :=
  match m with
  | PInstance cls _ =>
      if String.eqb cls "Replay" then
        exists intraj,
          getattr m "intraj" = Ok intraj /\
          InputMotionBase.file s = fst (slot_store "file" intraj (InputMotionBase.file im0))
      else
        match stored_in cls with
        | Some (k, sel) => sel s = fst (slot_store k m (sel im0))
        | None => True
        end
  | _ => False
  end.

(** The fields of a sub-object come back: [o] is built from the nodes
    of a dispatcher that holds the fields of [m]. *)
Definition rebuilt_from {SL : Slots} (im0 : InputMotionBase.t) (m o : pyval) : Prop :=
  exists s cls,
    class_of m = Some cls /\ holds_fields_of im0 s m /\ built_from s cls o.

(** The entry [e] of an [extra] list is a dynamic child of the tag that
    was parsed without error: its node is what [parse] made of a new
    instance of the template of its tag, on a child of the tag with that
    tag name. *)
Definition parsed_from (E : external) (D : Tree.decl) (xf : list (string * xml_node))
           (e : string * Tree.node) : Prop :=
  exists x tmpl nf,
    In (fst e, x) xf /\
    assoc (fst e) (Tree.dynamic D) = Some tmpl /\
    Tree.construct E tmpl = Ok nf /\
    Tree.parse E x nf = (snd e, Ok tt).

(** * Properties *)

(** ** The receiver monad *)

Lemma bind_ok {S A B} (m : M S A) (k : A -> M S B) s s' a :
  m s = (s', Ok a) -> bind m k s = k a s'.
Proof. intros H. unfold bind. now rewrite H. Qed.

Lemma bind_raise {S A B} (m : M S A) (k : A -> M S B) s s' e :
  m s = (s', Raise e) -> bind m k s = (s', Raise e).
Proof. intros H. unfold bind. now rewrite H. Qed.

Lemma bind_assoc {S A B C} (m : M S A) (k : A -> M S B) (h : B -> M S C) s :
  bind (bind m k) h s = bind m (fun a => bind (k a) h) s.
Proof.
  unfold bind. destruct (m s) as [s1 [a|e]]; reflexivity.
Qed.

(** ** Scalar leaves *)

Section ScalarLeaf.
Variable E : external.

Lemma value_store_explicit v s :
  explicit_value (fst (InputValue.store v s)) = true.
Proof.
  unfold InputValue.store. run. destruct (InputValue.type s v); reflexivity.
Qed.

Lemma value_store_ok v v' s :
  InputValue.type s v = Ok v' ->
  InputValue.store v s =
    (InputValue.set_value v'
       (InputValue.with_base (Input.set_explicit true (InputValue.base s)) s), Ok tt).
Proof. intros H. unfold InputValue.store. run. now rewrite H. Qed.

Lemma value_store_raise v e s :
  InputValue.type s v = Raise e ->
  InputValue.store v s =
    (InputValue.with_base (Input.set_explicit true (InputValue.base s)) s, Raise e).
Proof. intros H. unfold InputValue.store. run. now rewrite H. Qed.

(** What [fetch] returns on a node that passes its checks and has no
    dimension. *)
Lemma value_fetch_plain s v :
  (explicit_value s || Input._optional (InputValue.base s) = true)%bool ->
  InputValue.value s = Some v ->
  Input._dimension (InputValue.base s) = "undefined" ->
  match InputValue._valid s with None => True | Some opts => py_in v opts = true end ->
  InputValue.fetch E s = (s, Ok v).
Proof.
  intros Hx Hv Hd Hin.
  unfold InputValue.fetch, InputValue.check, Input.check, InputValue.read_value,
    Input.explicit, Input.optional, explicit_value in *.
  run. rewrite Hx. cbn.
  destruct (InputValue._valid s) as [opts|]; cbn; rewrite ?Hv, ?Hin, ?Hd; cbn;
    rewrite ?Hd, ?Hv; reflexivity.
Qed.

End ScalarLeaf.

(** C10.  When [store(value)] on a scalar leaf raises because [value]
    cannot be coerced to the declared type, the node is nevertheless
    explicit: the flag is set before the coercion is tried.  On a mandatory
    node that never held a value, the following [check()] therefore does
    not raise the missing-value error; it passes, or, when an option list
    is present, fails on the absent [value] attribute. *)
Theorem failed_store_leaves_explicit (E : external) (s : InputValue.t) (v : pyval) (e : exn) :
  InputValue.type s v = Raise e ->
  Input._optional (InputValue.base s) = false ->
  InputValue.value s = None ->
  snd (InputValue.store v s) = Raise e /\
  Input._explicit (InputValue.base (fst (InputValue.store v s))) = true /\
  snd (InputValue.check E (fst (InputValue.store v s))) <>
    Raise (ValueError "Uninitialized Input value of type InputValue") /\
  snd (InputValue.check E (fst (InputValue.store v s))) =
    match InputValue._valid s with
    | None => Ok tt
    | Some _ => Raise (AttributeError "'InputValue' object has no attribute 'value'")
    end.
Proof.
  intros Hty Hopt Hval.
  rewrite (value_store_raise _ _ Hty). cbn [fst snd].
  assert (Hc : snd (InputValue.check E
             (InputValue.with_base (Input.set_explicit true (InputValue.base s)) s)) =
    match InputValue._valid s with
    | None => Ok tt
    | Some _ => Raise (AttributeError "'InputValue' object has no attribute 'value'")
    end).
  { unfold InputValue.check, Input.check, InputValue.read_value. run.
    destruct (InputValue._valid s); cbn; rewrite ?Hval; reflexivity. }
  repeat split; try reflexivity.
  - rewrite Hc. destruct (InputValue._valid s); discriminate.
  - exact Hc.
Qed.

Lemma failed_store_leaves_explicit_witness :
  InputValue.__init__ Sample.env None None None (DValue PNone) (Some py_tuple) None
    = Ok bare_tuple_leaf /\
  snd (InputValue.store (PInt 5) bare_tuple_leaf)
    = Raise (TypeError "object is not iterable") /\
  Input._explicit (InputValue.base (fst (InputValue.store (PInt 5) bare_tuple_leaf))) = true /\
  snd (InputValue.check Sample.env (fst (InputValue.store (PInt 5) bare_tuple_leaf))) <>
    Raise (ValueError "Uninitialized Input value of type InputValue") /\
  snd (InputValue.check Sample.env (fst (InputValue.store (PInt 5) bare_tuple_leaf))) = Ok tt.
Proof.
  split; [reflexivity|].
  exact (failed_store_leaves_explicit Sample.env bare_tuple_leaf (PInt 5)
           (e := TypeError "object is not iterable") eq_refl eq_refl eq_refl).
Defined.

(** ** Array leaves *)

Lemma on_attr_eq {S T A} (rd : S -> T) (wr : T -> S -> S) (m : M T A) s t' r :
  m (rd s) = (t', r) -> on_attr rd wr m s = (wr t' s, r).
Proof. intros H. unfold on_attr. now rewrite H. Qed.

Lemma mapM_fixed {A} (f : A -> res A) (l : list A) :
  Forall (fun x => f x = Ok x) l -> mapM f l = Ok l.
Proof.
  induction 1 as [|x l Hx _ IH]; cbn; [reflexivity|].
  now rewrite Hx, IH.
Qed.

Lemma dims_of_ints (sh : list Z) : np.dims (PTuple (map PInt sh)) = Ok sh.
Proof.
  cbn. induction sh as [|z sh IH]; cbn; [reflexivity|]. now rewrite IH.
Qed.

Lemma zero_shape_test (sh : list Z) :
  py_eq (PTuple (map PInt sh)) InputArray.zero_shape = true <-> sh = [0].
Proof.
  destruct sh as [|z [|z' r]]; cbn.
  - split; discriminate.
  - rewrite andb_true_r. destruct (Z.eqb_spec z 0) as [->|Hz]; split; congruence.
  - rewrite andb_false_r. split; discriminate.
Qed.

Lemma no_unknown_dim (sh : list Z) :
  Forall (fun z => 0 <= z) sh -> np.count_unknown sh = O.
Proof.
  unfold np.count_unknown.
  induction 1 as [|z sh Hz _ IH]; cbn [filter length]; [reflexivity|].
  destruct (Z.ltb_spec z 0); [lia|]. exact IH.
Qed.

Lemma reshape_wf (sh : list Z) (d : list pyval) :
  np.wf sh d -> np.reshape d (PTuple (map PInt sh)) = Ok (PArray sh d).
Proof.
  intros [Hpos Hprod]. unfold np.reshape. rewrite dims_of_ints. cbn [rbind].
  rewrite (no_unknown_dim Hpos).
  rewrite Hprod, Z.eqb_refl. reflexivity.
Qed.

(** A reshape to sizes whose product is not the number of elements
    fails. *)
Lemma reshape_mismatch (sh : list Z) (d : list pyval) :
  Forall (fun z => 0 <= z) sh -> prodZ sh <> Z.of_nat (length d) ->
  np.reshape d (PTuple (map PInt sh)) = Raise np.cannot_reshape.
Proof.
  intros Hpos Hprod. unfold np.reshape. rewrite dims_of_ints. cbn [rbind].
  rewrite (no_unknown_dim Hpos).
  destruct (Z.eqb_spec (prodZ sh) (Z.of_nat (length d))); [contradiction|reflexivity].
Qed.

Section ArrayLeaf.
Variable E : external.

Lemma shape_store (t : list pyval) (n : InputValue.t) :
  InputValue.type n = py_tuple ->
  InputValue.store (PTuple t) n = (shape_after t n, Ok tt).
Proof.
  intros Hty. apply value_store_ok. now rewrite Hty.
Qed.

Lemma shape_fetch (t : list pyval) (n : InputValue.t) :
  InputValue._valid n = None ->
  Input._dimension (InputValue.base n) = "undefined" ->
  InputValue.fetch E (shape_after t n) = (shape_after t n, Ok (PTuple t)).
Proof.
  intros Hv Hd. apply value_fetch_plain; cbn; try reflexivity; try assumption.
  now rewrite Hv.
Qed.

Lemma shape_after_twice (t t' : list pyval) (n : InputValue.t) :
  shape_after t' (shape_after t n) = shape_after t' n.
Proof. reflexivity. Qed.

(** [store] of a well-formed array of the declared element type. *)
Lemma array_store_wf (a : InputArray.t) (sh : list Z) (d : list pyval) :
  shape_as_declared a -> np.wf sh d ->
  Forall (fun x => InputArray.type a x = Ok x) d ->
  InputArray.store E (PArray sh d) a = (array_after (map PInt sh) d a, Ok tt).
Proof.
  intros (Hty & Hv & Hd) Hwf Hel.
  unfold InputArray.store, InputArray.shape_attr.
  unfold bind at 1. cbn [modify].
  unfold bind at 1. cbn [lift np.shape].
  unfold bind at 1.
  erewrite on_attr_eq by (cbn; apply shape_store; exact Hty).
  unfold bind at 1. cbn [np.flatten InputArray.type InputArray.set_shape
                         InputArray.with_base InputArray.base InputArray.shape
                         InputArray.value].
  rewrite (mapM_fixed _ Hel).
  unfold bind at 1.
  erewrite on_attr_eq by (cbn; apply shape_fetch; assumption).
  cbv beta iota.
  destruct (py_eq (PTuple (map PInt sh)) InputArray.zero_shape) eqn:Hz.
  - apply zero_shape_test in Hz. subst sh.
    destruct Hwf as [_ Hlen]. cbn in Hlen.
    destruct d; [|cbn in Hlen; lia].
    unfold bind at 1. cbn.
    erewrite on_attr_eq by (cbn; apply shape_store; cbn; exact Hty).
    reflexivity.
  - reflexivity.
Qed.

(** [fetch] of what such a [store] left. *)
Lemma array_fetch_wf (a : InputArray.t) (sh : list Z) (d : list pyval) :
  shape_as_declared a -> np.wf sh d ->
  Input._dimension (InputArray.base a) = "undefined" ->
  snd (InputArray.fetch E (array_after (map PInt sh) d a)) = Ok (PArray sh d).
Proof.
  intros (Hty & Hv & Hd) Hwf Hdim.
  unfold InputArray.fetch, InputArray.shape_attr.
  unfold bind at 1. cbn [Input.check Input.explicit Input.optional array_after
                         InputArray.cls Input.base InputArray.base Input._explicit
                         Input.set_explicit orb negb].
  unfold bind at 1.
  erewrite on_attr_eq by (cbn; apply shape_fetch; assumption).
  cbv beta iota.
  cbv beta iota.
  destruct (py_eq (PTuple (map PInt sh)) InputArray.zero_shape) eqn:Hz.
  - apply zero_shape_test in Hz. subst sh.
    destruct Hwf as [_ Hlen]. cbn in Hlen.
    destruct d; [|cbn in Hlen; lia].
    run. rewrite Hdim. reflexivity.
  - unfold bind at 1. unfold bind at 1.
    cbn [InputArray.read_value InputArray.value array_after InputArray.set_shape].
    cbv beta iota.
    unfold bind at 1.
    erewrite on_attr_eq by (cbn; apply shape_fetch; assumption).
    cbv beta iota. cbn [lift]. rewrite (reshape_wf Hwf).
    cbn. rewrite Hdim. reflexivity.
Qed.

End ArrayLeaf.

(** ** Round trip through a leaf *)



(** The option check on an enumerated leaf: a string outside the option
    list is stored without complaint, and the following [fetch()] raises
    instead of returning it. *)
Lemma fetch_after_store_can_raise :
  InputValue.__init__ Sample.env None None None (DValue PNone)
                      (Some (str_type Sample.env)) (Some [PStr "a"; PStr "b"]) = Ok ab_leaf /\
  InputValue.type ab_leaf (PStr "c") = Ok (PStr "c") /\
  snd (Tree.store Sample.env (PStr "c") (Tree.NValue ab_leaf)) = Ok tt /\
  (exists msg,
     snd (Tree.fetch Sample.env (fst (Tree.store Sample.env (PStr "c") (Tree.NValue ab_leaf))))
       = Raise (ValueError msg)) /\
  snd (Tree.fetch Sample.env (fst (Tree.store Sample.env (PStr "c") (Tree.NValue ab_leaf))))
    <> Ok (PStr "c").
Proof.
  repeat split; try reflexivity.
  - eexists. reflexivity.
  - discriminate.
Qed.

(** ** Construction *)

Lemma take_default_literal (d : pyval) :
  d <> PNone -> Input.take_default (DValue d) = Ok (d, true).
Proof. destruct d; try reflexivity. now intros []. Qed.

Lemma apply_default_literal {S : Type} (C : Input.class S) (s : S) :
  Input._default (Input.base C s) <> PNone ->
  Input.apply_default C s =
    (Input.vstore C (Input._default (Input.base C s)) ;;; modify (Input.mark C false)) s.
Proof.
  unfold Input.apply_default. destruct (Input._default (Input.base C s));
    try reflexivity. now intros [].
Qed.

Lemma none_or_not (v : pyval) : {v = PNone} + {v <> PNone}.
Proof. destruct v; first [now left|now right]. Qed.

(** The constructor once the default is taken in: lines 161-175. *)
Lemma init_after_default {S : Type} (C : Input.class S)
      (help dimension units : option string) (default : default_arg)
      (children : Input.t -> res S) (d : pyval) (opt : bool) (s : S) :
  (forall b x, Input.base C (Input.with_base C b x) = b) ->
  (forall b x, children b = Ok x -> Input.base C x = b) ->
  Input.take_default default = Ok (d, opt) ->
  Input.__init__ C help dimension units default children = Ok s ->
  Input.explicit C s = false /\
  (d = PNone -> nothing_was_stored C children opt s) /\
  (d <> PNone -> opt = true -> default_was_stored C children d s).
Proof.
  intros Hlens Hch Htake. unfold Input.__init__. rewrite Htake.
  set (b := Input.mk _ _ _ d opt false _).
  destruct (children b) as [s0|e] eqn:Hs0; [|discriminate]. cbn [rbind].
  pose proof (Hch _ _ Hs0) as Hb.
  destruct (none_or_not d) as [->|Hd].
  - unfold Input.apply_default. rewrite Hb. cbn [Input._default b].
    intros [= <-]. unfold nothing_was_stored, Input.explicit, Input.optional. rewrite Hb.
    split; [reflexivity|]. split; [|intros H; now destruct H].
    intros _. split; [reflexivity|]. exists b. repeat split. exact Hs0.
  - rewrite apply_default_literal by (rewrite Hb; exact Hd).
    rewrite Hb. cbn [Input._default b]. unfold bind, modify.
    destruct (Input.vstore C d s0) as [s1 [[]|e]] eqn:Hst; [|discriminate].
    intros [= <-]. split; [|split].
    + unfold Input.explicit, Input.mark. now rewrite Hlens.
    + intros H. now destruct Hd.
    + intros _ ->. exists b, s0, s1. repeat split; assumption.
Qed.

(** C6, as the code has it.  For a node of any class derived from
    [Input]: when construction succeeds the node is not explicit.
    Without a default ([None]) it is not optional and nothing was stored.
    With a literal default other than [None] the node was made optional,
    the class's own [store] was applied to the literal, and only then was
    the explicit flag put back to false.  With a descriptor the factory
    was called on the descriptor's arguments; what it returned is treated
    as such a literal, except that when it returned [None] the node is
    optional and nothing was stored. *)
Theorem constructed_node_is_not_explicit
        {S : Type} (C : Input.class S) (help dimension units : option string)
        (default : default_arg) (children : Input.t -> res S) (s : S) :
  (forall b x, Input.base C (Input.with_base C b x) = b) ->
  (forall b x, children b = Ok x -> Input.base C x = b) ->
  Input.__init__ C help dimension units default children = Ok s ->
  Input.explicit C s = false /\
  (default = DValue PNone -> nothing_was_stored C children false s) /\
  (forall v, default = DValue v -> v <> PNone -> default_was_stored C children v s) /\
  (forall f, default = DFactory f ->
     exists v,
       input_default.factory f (input_default.args f) (input_default.kwargs f) = Ok v /\
       (v <> PNone -> default_was_stored C children v s) /\
       (v = PNone -> nothing_was_stored C children true s)).
Proof.
  intros Hlens Hch Hinit.
  assert (Hx : Input.explicit C s = false).
  { destruct (Input.take_default default) as [[d opt]|e] eqn:Htake.
    - exact (proj1 (@init_after_default _ C help dimension units default children d opt s
                      Hlens Hch Htake Hinit)).
    - unfold Input.__init__ in Hinit. rewrite Htake in Hinit. discriminate. }
  split; [exact Hx|]. split; [|split].
  - intros ->.
    destruct (@init_after_default _ C help dimension units (DValue PNone) children
                PNone false s Hlens Hch eq_refl Hinit) as (_ & Hnone & _).
    now apply Hnone.
  - intros v -> Hv.
    destruct (@init_after_default _ C help dimension units (DValue v) children
                v true s Hlens Hch (take_default_literal Hv) Hinit) as (_ & _ & Hst).
    now apply Hst.
  - intros f ->.
    destruct (input_default.factory f (input_default.args f) (input_default.kwargs f))
      as [v|e] eqn:Hf.
    + assert (Htake : Input.take_default (DFactory f) = Ok (v, true))
        by (cbn [Input.take_default]; now rewrite Hf).
      destruct (@init_after_default _ C help dimension units (DFactory f) children
                  v true s Hlens Hch Htake Hinit) as (_ & Hnone & Hst).
      exists v. split; [reflexivity|]. split; [intros Hv; now apply Hst|exact Hnone].
    + exfalso. unfold Input.__init__ in Hinit. cbn [Input.take_default] in Hinit.
      rewrite Hf in Hinit. discriminate.
Qed.

Lemma constructed_node_is_not_explicit_witness :
  let children := fun b => Ok (InputValue.mk b py_tuple None None) in
  (forall b x, Input.base InputValue.cls (Input.with_base InputValue.cls b x) = b) /\
  (forall b x, children b = Ok x -> Input.base InputValue.cls x = b) /\
  Input.__init__ InputValue.cls (Some "The shape of the array.") None None
                 (DValue (PTuple [PInt 0])) children = Ok new_shape_leaf /\
  Input.explicit InputValue.cls new_shape_leaf = false /\
  default_was_stored InputValue.cls children (PTuple [PInt 0]) new_shape_leaf.
Proof.
  intros children.
  assert (H1 : forall b x,
             Input.base InputValue.cls (Input.with_base InputValue.cls b x) = b)
    by reflexivity.
  assert (H2 : forall b x, children b = Ok x -> Input.base InputValue.cls x = b)
    by (intros b x [= <-]; reflexivity).
  assert (H3 : Input.__init__ InputValue.cls (Some "The shape of the array.") None None
                 (DValue (PTuple [PInt 0])) children = Ok new_shape_leaf)
    by reflexivity.
  destruct (constructed_node_is_not_explicit InputValue.cls _ _ _ _ children H1 H2 H3)
    as (He & _ & Hd & _).
  split; [exact H1|]. split; [exact H2|]. split; [exact H3|]. split; [exact He|].
  apply (Hd (PTuple [PInt 0]) eq_refl). discriminate.
Defined.

(** A descriptor whose factory returns [None] is a default for which
    the claim fails: the scalar leaf built with it is optional, yet no
    [store] ran.  The leaf has no value, where [store(None)] would have
    left the string of [None], and its [fetch] finds no value to
    return. *)
Lemma descriptor_of_none_is_not_stored :
  exists s,
    InputValue.__init__ Sample.env None None None descriptor_of_none
                        (Some (str_type Sample.env)) None = Ok s /\
    Input._optional (InputValue.base s) = true /\
    explicit_value s = false /\
    InputValue.value s = None /\
    InputValue.value (fst (InputValue.store PNone s)) = Some (PStr "None") /\
    snd (InputValue.fetch Sample.env s) =
      Raise (AttributeError "'InputValue' object has no attribute 'value'").
Proof.
  eexists. split; [reflexivity|]. repeat split.
Qed.

(** ** Parsing an array with a declared shape *)

Lemma array_attribs_ok (name : string) (keys : list string) (attribs : list (string * string)) :
  forallb shape_or_units attribs = true ->
  InputArray.parse_attribs name keys attribs = Ok tt.
Proof.
  induction attribs as [|[a v] rest IH]; cbn; [reflexivity|].
  intros H. apply andb_prop in H as [Ha Hrest].
  unfold shape_or_units in Ha. cbn in Ha. rewrite Ha. now apply IH.
Qed.

Lemma array_fetch_parsed (E : external) (b : Input.t) (ty : pytype)
      (t d : list pyval) (n : InputValue.t) :
  Input._explicit b = true ->
  InputValue._valid n = None ->
  Input._dimension (InputValue.base n) = "undefined" ->
  Input._dimension b = "undefined" ->
  snd (InputArray.fetch E (InputArray.mk b ty (Some d) (shape_after t n))) =
    if py_eq (PTuple t) InputArray.zero_shape then Ok (np.resize0 d)
    else np.reshape d (PTuple t).
Proof.
  intros Hx Hv Hd Hdim.
  unfold InputArray.fetch, InputArray.shape_attr.
  unfold bind at 1.
  unfold Input.check, Input.explicit, Input.optional.
  cbn [InputArray.cls Input.base InputArray.base].
  rewrite Hx. cbn [orb negb].
  unfold bind at 1.
  erewrite on_attr_eq by (cbn; apply shape_fetch; assumption).
  cbv beta iota.
  destruct (py_eq (PTuple t) InputArray.zero_shape) eqn:Hz.
  - run. rewrite Hdim. reflexivity.
  - unfold bind at 1. unfold bind at 1.
    cbn [InputArray.read_value InputArray.value InputArray.set_shape].
    cbv beta iota.
    unfold bind at 1.
    erewrite on_attr_eq by (cbn; apply shape_fetch; assumption).
    cbv beta iota. cbn [lift].
    destruct (np.reshape d (PTuple t)) as [arr|e]; cbn; [|reflexivity].
    rewrite Hdim. reflexivity.
Qed.

Lemma array_fetch_checked (E : external) (b : Input.t) (ty : pytype)
      (t d : list pyval) (n : InputValue.t) :
  (Input._explicit b || Input._optional b)%bool = true ->
  InputValue._valid n = None ->
  Input._dimension (InputValue.base n) = "undefined" ->
  Input._dimension b = "undefined" ->
  snd (InputArray.fetch E (InputArray.mk b ty (Some d) (shape_after t n))) =
    if py_eq (PTuple t) InputArray.zero_shape then Ok (np.resize0 d)
    else np.reshape d (PTuple t).
Proof.
  intros Hx Hv Hd Hdim.
  unfold InputArray.fetch, InputArray.shape_attr.
  unfold bind at 1.
  unfold Input.check, Input.explicit, Input.optional.
  cbn [InputArray.cls Input.base InputArray.base].
  rewrite Hx. cbn [orb negb].
  unfold bind at 1.
  erewrite on_attr_eq by (cbn; apply shape_fetch; assumption).
  cbv beta iota.
  destruct (py_eq (PTuple t) InputArray.zero_shape) eqn:Hz.
  - run. rewrite Hdim. reflexivity.
  - unfold bind at 1. unfold bind at 1.
    cbn [InputArray.read_value InputArray.value InputArray.set_shape].
    cbv beta iota.
    unfold bind at 1.
    erewrite on_attr_eq by (cbn; apply shape_fetch; assumption).
    cbv beta iota. cbn [lift].
    destruct (np.reshape d (PTuple t)) as [arr|e]; cbn; [|reflexivity].
    rewrite Hdim. reflexivity.
Qed.

Lemma array_fetch_reshape_raises (E : external) (b : Input.t) (ty : pytype)
      (t d : list pyval) (n : InputValue.t) (e : exn) :
  (Input._explicit b || Input._optional b)%bool = true ->
  InputValue._valid n = None ->
  Input._dimension (InputValue.base n) = "undefined" ->
  py_eq (PTuple t) InputArray.zero_shape = false ->
  np.reshape d (PTuple t) = Raise e ->
  snd (InputArray.fetch E (InputArray.mk b ty (Some d) (shape_after t n))) = Raise e.
Proof.
  intros Hx Hv Hd Hz Hre.
  unfold InputArray.fetch, InputArray.shape_attr.
  unfold bind at 1.
  unfold Input.check, Input.explicit, Input.optional.
  cbn [InputArray.cls Input.base InputArray.base].
  rewrite Hx. cbn [orb negb].
  unfold bind at 1.
  erewrite on_attr_eq by (cbn; apply shape_fetch; assumption).
  cbv beta iota. rewrite Hz.
  unfold bind at 1. unfold bind at 1.
  cbn [InputArray.read_value InputArray.value InputArray.set_shape].
  cbv beta iota.
  unfold bind at 1.
  erewrite on_attr_eq by (cbn; apply shape_fetch; assumption).
  cbv beta iota. cbn [lift]. rewrite Hre. reflexivity.
Qed.

(** C1, as the code has it.  Parsing an array tag whose [shape] attribute
    reads as the tuple [t] succeeds whatever the number of elements read:
    the node becomes explicit, holds the flat data and records [t] as its
    shape.  Nothing is compared at that point.  The disagreement shows only
    at the next [fetch]: it reshapes the data to [t], which raises when the
    sizes are nonnegative, are not [(0,)] and have another product than the
    number of elements, on a leaf with or without a dimension; for the
    shape [(0,)] a leaf without dimension returns the empty array.
    [store] is given no shape: a well-formed array of the element type
    stored afterwards puts its own shape in place of the declared one. *)
Theorem parse_records_declared_shape
        (E : external) (a : InputArray.t) (name : string) (attribs : list (string * string))
        (body : xml_node) (rest : list (string * xml_node))
        (txt : string) (t d : list pyval) :
  shape_as_declared a ->
  forallb shape_or_units attribs = true ->
  assoc "shape" attribs = Some txt ->
  read_array E (InputArray.type a) body = Ok d ->
  read_type E py_tuple (XText txt) = Ok (PTuple t) ->
  let xml := XNode name attribs (("_text", body) :: rest) in
  let a' := parsed_array (assoc "units" attribs) t d a in
  InputArray.parse E (Some xml) "" a = (a', Ok tt) /\
  Input._explicit (InputArray.base a') = true /\
  InputArray.value a' = Some d /\
  InputValue.value (InputArray.shape a') = Some (PTuple t) /\
  (forall sh, t = map PInt sh -> Forall (fun z => 0 <= z) sh -> sh <> [0] ->
              prodZ sh <> Z.of_nat (length d) ->
              snd (InputArray.fetch E a') = Raise np.cannot_reshape) /\
  (t = [PInt 0] -> Input._dimension (InputArray.base a) = "undefined" ->
   snd (InputArray.fetch E a') = Ok (PArray [0] [])) /\
  (forall sh' d', np.wf sh' d' ->
                  Forall (fun x => InputArray.type a x = Ok x) d' ->
                  snd (InputArray.store E (PArray sh' d') a') = Ok tt /\
                  InputValue.value (InputArray.shape (fst (InputArray.store E (PArray sh' d') a')))
                    = Some (PTuple (map PInt sh'))).
Proof.
  intros (Hty & Hv & Hd) Hattr Hshape Hdata Htuple xml a'.
  assert (Hx : (Input._explicit (InputArray.base a')
                || Input._optional (InputArray.base a'))%bool = true)
    by (unfold a', parsed_array; destruct (assoc "units" attribs); reflexivity).
  split; [|split; [|split; [|split; [|split; [|split]]]]].
  - unfold InputArray.parse, xml, InputArray.read_into_value, InputArray.shape_attr.
    run. rewrite Hdata, Hshape. cbn. rewrite Htuple.
    unfold InputValue.store. run.
    destruct (assoc "units" attribs) as [u|]; cbn; rewrite Hty; cbn;
      rewrite array_attribs_ok by assumption; reflexivity.
  - unfold a', parsed_array. destruct (assoc "units" attribs); reflexivity.
  - reflexivity.
  - reflexivity.
  - intros sh -> Hpos Hnz Hprod. unfold a', parsed_array.
    apply array_fetch_reshape_raises; try assumption.
    + destruct (py_eq (PTuple (map PInt sh)) InputArray.zero_shape) eqn:Hz;
        [|reflexivity].
      apply zero_shape_test in Hz. contradiction.
    + now apply reshape_mismatch.
  - intros -> Hdim. unfold a', parsed_array.
    rewrite array_fetch_checked; try assumption; [reflexivity|].
    destruct (assoc "units" attribs); cbn; assumption.
  - intros sh' d' Hwf Hel.
    rewrite array_store_wf; [split; reflexivity|repeat split; assumption|exact Hwf|exact Hel].
Qed.

(** C1 as stated fails: five elements under a declared shape of two by
    three are parsed without any exception. *)
Lemma mismatched_shape_is_parsed :
  InputArray.__init__ Sample.env None None None (DValue PNone) (Some Sample.int)
    = Ok int_array_leaf /\
  read_array Sample.env Sample.int (XText "[ 1, 2, 3, 4, 5 ]")
    = Ok [PInt 1; PInt 2; PInt 3; PInt 4; PInt 5] /\
  read_type Sample.env py_tuple (XText "(2, 3)") = Ok (PTuple [PInt 2; PInt 3]) /\
  2 * 3 <> Z.of_nat (length [PInt 1; PInt 2; PInt 3; PInt 4; PInt 5]) /\
  snd (InputArray.parse Sample.env (Some five_as_2x3) "" int_array_leaf) = Ok tt.
Proof.
  repeat split; try reflexivity. cbn. lia.
Qed.

Lemma parse_records_declared_shape_witness :
  let a' := parsed_array None [PInt 2; PInt 3]
                         [PInt 1; PInt 2; PInt 3; PInt 4; PInt 5] int_array_leaf in
  InputArray.parse Sample.env (Some five_as_2x3) "" int_array_leaf = (a', Ok tt) /\
  Input._explicit (InputArray.base a') = true /\
  InputValue.value (InputArray.shape a') = Some (PTuple [PInt 2; PInt 3]) /\
  snd (InputArray.fetch Sample.env a') = Raise np.cannot_reshape /\
  InputValue.value
    (InputArray.shape (fst (InputArray.store Sample.env (PArray [2] [PInt 3; PInt 7]) a')))
    = Some (PTuple [PInt 2]).
Proof.
  intros a'.
  assert (Hsh : shape_as_declared int_array_leaf) by (repeat split).
  destruct (@parse_records_declared_shape Sample.env int_array_leaf "fixatoms"
              [("shape", "(2, 3)")] (XText "[ 1, 2, 3, 4, 5 ]") []
              "(2, 3)" [PInt 2; PInt 3] [PInt 1; PInt 2; PInt 3; PInt 4; PInt 5]
              Hsh eq_refl eq_refl eq_refl eq_refl)
    as (Hp & Hx & _ & Hv & Hr & _ & Hst).
  split; [exact Hp|]. split; [exact Hx|]. split; [exact Hv|]. split.
  - apply (Hr [2; 3] eq_refl).
    + repeat constructor; lia.
    + discriminate.
    + cbn. lia.
  - apply (Hst [2] [PInt 3; PInt 7]).
    + split; [repeat constructor; lia|reflexivity].
    + repeat constructor.
Defined.

(** ** Parsing a composite node *)

Lemma demo_node_constructed : Tree.construct Sample.env demo_schema = Ok (Tree.NInput demo_node).
Proof. reflexivity. Qed.

Lemma parse_composite (E : external) (name : string) (xa : list (string * string))
      (xf : list (string * xml_node)) (c : Tree.composite) :
  Tree.parse E (XNode name xa xf) (Tree.NInput c) =
    let (c', r) := (Tree.parse_attribs E name xa ;;;
                    Tree.adapt ;;;
                    Tree.parse_fields E (Tree.parse E) name xf ;;;
                    Tree.check_mandatory name) (Tree.reset c) in
    (Tree.NInput c', r).
Proof. reflexivity. Qed.

Lemma parse_after_processing (E : external) (name : string) (xa : list (string * string))
      (xf : list (string * xml_node)) (c c' : Tree.composite) :
  processed E name xa xf c = (c', Ok tt) ->
  Tree.parse E (XNode name xa xf) (Tree.NInput c) =
    let (c'', r) := Tree.check_mandatory name c' in (Tree.NInput c'', r).
Proof.
  rewrite parse_composite. unfold processed, bind, Tree.adapt, ret.
  destruct (Tree.parse_attribs E name xa (Tree.reset c)) as [c1 [[]|e]]; [|discriminate].
  destruct (Tree.parse_fields E (Tree.parse E) name xf c1) as [c2 [[]|e]]; [|discriminate].
  now intros [= ->].
Qed.

Lemma parse_stops_at_error (E : external) (name : string) (xa : list (string * string))
      (xf : list (string * xml_node)) (c c' : Tree.composite) (e : exn) :
  processed E name xa xf c = (c', Raise e) ->
  Tree.parse E (XNode name xa xf) (Tree.NInput c) = (Tree.NInput c', Raise e).
Proof.
  rewrite parse_composite. unfold processed, bind, Tree.adapt, ret.
  destruct (Tree.parse_attribs E name xa (Tree.reset c)) as [c1 [[]|e1]].
  - destruct (Tree.parse_fields E (Tree.parse E) name xf c1) as [c2 [[]|e2]];
      [discriminate|]. now intros [= -> ->].
  - now intros [= -> ->].
Qed.

(** The closing loops find the first declared name whose node is neither
    explicit nor optional. *)
Lemma first_missing_found (m : list (string * Tree.node)) (keys : list string) :
  forallb (fun k => has_key k m) keys = true ->
  existsb (Tree.is_missing m) keys = true ->
  exists pre k post,
    keys = (pre ++ k :: post)%list /\
    existsb (Tree.is_missing m) pre = false /\
    Tree.is_missing m k = true /\
    Tree.first_missing keys m = Ok (Some k).
Proof.
  induction keys as [|k keys IH]; cbn; [discriminate|].
  intros Hp Hm. apply andb_prop in Hp as [Hk Hp].
  unfold has_key in Hk. unfold Tree.is_missing at 1 in Hm. unfold Tree.is_missing at 2.
  destruct (assoc k m) as [n|] eqn:Hn; [|discriminate].
  destruct (Tree.missing n) eqn:Hmiss.
  - exists [], k, keys. repeat split. unfold Tree.is_missing. now rewrite Hn.
  - cbn in Hm. destruct (IH Hp Hm) as (pre & k' & post & -> & Hpre & Hk' & Hf).
    exists (k :: pre), k', post. repeat split; try assumption.
    cbn. unfold Tree.is_missing at 1. now rewrite Hn, Hmiss.
Qed.

Lemma first_missing_none (m : list (string * Tree.node)) (keys : list string) :
  forallb (fun k => has_key k m) keys = true ->
  existsb (Tree.is_missing m) keys = false ->
  Tree.first_missing keys m = Ok None.
Proof.
  induction keys as [|k keys IH]; cbn; [reflexivity|].
  intros Hp Hm. apply andb_prop in Hp as [Hk Hp].
  apply orb_false_elim in Hm as [Hm1 Hm2].
  unfold has_key in Hk. unfold Tree.is_missing in Hm1.
  destruct (assoc k m) as [n|]; [|discriminate].
  rewrite Hm1. now apply IH.
Qed.

(** C8.  Once [parse] has gone through all attributes and children of the
    tag without error, a declared attribute or field whose node is neither
    explicit nor optional makes [parse] raise the error for a mandatory
    item, naming it and the tag: the first such attribute in the order of
    the attribute dictionary, or, when no attribute is missing, the first
    such field. *)
Theorem missing_item_is_reported
        (E : external) (name : string) (xa : list (string * string))
        (xf : list (string * xml_node)) (c c' : Tree.composite) :
  processed E name xa xf c = (c', Ok tt) ->
  children_present c' = true ->
  existsb (Tree.is_missing (Tree.dict c')) (attrib_names c' ++ field_names c') = true ->
  exists pre k post,
    Tree.is_missing (Tree.dict c') k = true /\
    existsb (Tree.is_missing (Tree.dict c')) pre = false /\
    ((attrib_names c' = (pre ++ k :: post)%list /\
      Tree.parse E (XNode name xa xf) (Tree.NInput c) =
        (Tree.NInput c', Raise (Tree.mandatory_attribute k name)))
     \/
     (existsb (Tree.is_missing (Tree.dict c')) (attrib_names c') = false /\
      field_names c' = (pre ++ k :: post)%list /\
      Tree.parse E (XNode name xa xf) (Tree.NInput c) =
        (Tree.NInput c', Raise (Tree.mandatory_field k name)))).
Proof.
  intros Hproc Hpres Hmiss.
  rewrite (@parse_after_processing _ _ _ _ _ _ Hproc).
  unfold children_present in Hpres. rewrite forallb_app in Hpres.
  apply andb_prop in Hpres as [Hpa Hpf].
  rewrite existsb_app in Hmiss.
  unfold Tree.check_mandatory. fold (attrib_names c'). fold (field_names c').
  destruct (existsb (Tree.is_missing (Tree.dict c')) (attrib_names c')) eqn:Ha.
  - destruct (@first_missing_found _ _ Hpa Ha) as (pre & k & post & Heq & Hpre & Hk & Hf).
    exists pre, k, post. rewrite Hf. split; [assumption|]. split; [assumption|].
    left. now split.
  - cbn in Hmiss. rewrite (@first_missing_none _ _ Hpa Ha).
    destruct (@first_missing_found _ _ Hpf Hmiss) as (pre & k & post & Heq & Hpre & Hk & Hf).
    exists pre, k, post. rewrite Hf. split; [assumption|]. split; [assumption|].
    right. repeat split; assumption.
Qed.

Lemma missing_item_is_reported_witness :
  Tree.construct Sample.env demo_schema = Ok (Tree.NInput demo_node) /\
  Tree.parse Sample.env (XNode "motion" [] []) (Tree.NInput demo_node) =
    (Tree.NInput (Tree.reset demo_node),
     Raise (ValueError "Attribute name 'mode' is mandatory and was not found in the input for the property motion")).
Proof.
  split; [reflexivity|].
  destruct (@missing_item_is_reported Sample.env "motion" [] [] demo_node
              (Tree.reset demo_node) eq_refl eq_refl eq_refl)
    as (pre & k & post & Hk & Hpre & Hcase).
  destruct Hcase as [[Hn Hp]|[Ha _]].
  - destruct pre as [|k0 pre]; cbn in Hn.
    + injection Hn as <- _. exact Hp.
    + injection Hn as _ Hn. destruct pre; discriminate.
  - discriminate Ha.
Defined.

(** The class-level dictionaries are only read. *)
Lemma attribs_keep_decl (E : external) (name : string) (l : list (string * string)) :
  forall c c' r, Tree.parse_attribs E name l c = (c', r) -> Tree.cdecl c' = Tree.cdecl c.
Proof.
  induction l as [|[a v] rest IH]; intros c c' r; cbn.
  - unfold ret. now intros [= <- _].
  - destruct (has_key a (Tree.attribs (Tree.cdecl c))).
    + destruct (assoc a (Tree.dict c)) as [child|]; [|now intros [= <- _]].
      destruct (Tree.parse_text E v child) as [child' [[]|e]].
      * intros H. apply IH in H. rewrite H. now destruct c.
      * intros [= <- _]. now destruct c.
    + destruct (String.eqb a "_text"); [apply IH|now intros [= <- _]].
Qed.

Lemma extend_keeps_decl (E : external) (p : xml_node -> Tree.node -> Tree.node * res unit)
      (f : string) (v : xml_node) (c c' : Tree.composite) (r : res unit) :
  Tree.extend E p f v c = (c', r) -> Tree.cdecl c' = Tree.cdecl c.
Proof.
  unfold Tree.extend.
  destruct (assoc f (Tree.dynamic (Tree.cdecl c))) as [tmpl|]; [|now intros [= <- _]].
  destruct (Tree.construct E tmpl) as [nf|e]; [|now intros [= <- _]].
  destruct (p v nf) as [nf' [[]|e]]; intros [= <- _]; now destruct c.
Qed.

Lemma fields_keep_decl (E : external) (p : xml_node -> Tree.node -> Tree.node * res unit)
      (name : string) (l : list (string * xml_node)) :
  forall c c' r, Tree.parse_fields E p name l c = (c', r) -> Tree.cdecl c' = Tree.cdecl c.
Proof.
  induction l as [|[f v] rest IH]; intros c c' r; cbn.
  - unfold ret. now intros [= <- _].
  - destruct (has_key f (Tree.fields (Tree.cdecl c))).
    + destruct (assoc f (Tree.dict c)) as [child|]; [|now intros [= <- _]].
      destruct (p v child) as [child' [[]|e]].
      * intros H. apply IH in H. rewrite H. now destruct c.
      * intros [= <- _]. now destruct c.
    + destruct (String.eqb f "_text"); [apply IH|].
      destruct (has_key f (Tree.dynamic (Tree.cdecl c))); [|now intros [= <- _]].
      unfold bind.
      destruct (Tree.extend E p f v c) as [c1 [[]|e]] eqn:Hext.
      * intros H. apply IH in H. rewrite H. eapply extend_keeps_decl; eassumption.
      * intros [= <- _]. eapply extend_keeps_decl; eassumption.
Qed.

Lemma processed_keeps_decl (E : external) (name : string) (xa : list (string * string))
      (l : list (string * xml_node)) (c c' : Tree.composite) (r : res unit) :
  processed E name xa l c = (c', r) -> Tree.cdecl c' = Tree.cdecl c.
Proof.
  unfold processed, bind, Tree.adapt, ret.
  destruct (Tree.parse_attribs E name xa (Tree.reset c)) as [c1 [[]|e]] eqn:Ha.
  - intros H. apply fields_keep_decl in H. rewrite H.
    apply attribs_keep_decl in Ha. rewrite Ha. now destruct c.
  - intros [= <- _]. apply attribs_keep_decl in Ha. rewrite Ha. now destruct c.
Qed.

(** The child loop goes through the children in order. *)
Lemma parse_fields_app (E : external) (p : xml_node -> Tree.node -> Tree.node * res unit)
      (name : string) (l1 l2 : list (string * xml_node)) :
  forall c, Tree.parse_fields E p name (l1 ++ l2) c =
            match Tree.parse_fields E p name l1 c with
            | (c1, Ok _) => Tree.parse_fields E p name l2 c1
            | (c1, Raise e) => (c1, Raise e)
            end.
Proof.
  induction l1 as [|[f v] rest IH]; intros c; cbn [Tree.parse_fields app].
  - reflexivity.
  - destruct (has_key f (Tree.fields (Tree.cdecl c))).
    + destruct (assoc f (Tree.dict c)) as [child|]; [|reflexivity].
      destruct (p v child) as [child' [[]|e]]; [apply IH|reflexivity].
    + destruct (String.eqb f "_text"); [apply IH|].
      destruct (has_key f (Tree.dynamic (Tree.cdecl c))); [|reflexivity].
      unfold bind.
      destruct (Tree.extend E p f v c) as [c1 [[]|e]]; [apply IH|reflexivity].
Qed.

Lemma processed_app (E : external) (name : string) (xa : list (string * string))
      (l1 l2 : list (string * xml_node)) (c c1 : Tree.composite) :
  processed E name xa l1 c = (c1, Ok tt) ->
  processed E name xa (l1 ++ l2) c = Tree.parse_fields E (Tree.parse E) name l2 c1.
Proof.
  unfold processed, bind, Tree.adapt, ret.
  destruct (Tree.parse_attribs E name xa (Tree.reset c)) as [c0 [[]|e]]; [|discriminate].
  rewrite parse_fields_app.
  destruct (Tree.parse_fields E (Tree.parse E) name l1 c0) as [c2 [[]|e]]; [|discriminate].
  now intros [= ->].
Qed.

(** C9.  When [parse] has gone through the attributes of a tag and the
    children before a child [f] without error, and [f] is neither a
    declared field nor "_text": if [f] is no dynamic template either,
    [parse] raises the error for an unrecognized tag, naming [f] and the
    tag being parsed; if [f] is a dynamic template, a node is made from
    the template, the child is parsed into it and the pair is appended to
    [extra]. *)
Theorem unknown_tag_is_rejected
        (E : external) (name : string) (xa : list (string * string))
        (pre post : list (string * xml_node)) (f : string) (v : xml_node)
        (c c1 : Tree.composite) :
  processed E name xa pre c = (c1, Ok tt) ->
  has_key f (Tree.fields (Tree.cdecl c)) = false ->
  f <> "_text" ->
  (has_key f (Tree.dynamic (Tree.cdecl c)) = false ->
     Tree.parse E (XNode name xa (pre ++ (f, v) :: post)) (Tree.NInput c) =
       (Tree.NInput c1, Raise (Tree.unrecognized_tag f name))) /\
  (forall tmpl nf nf',
     assoc f (Tree.dynamic (Tree.cdecl c)) = Some tmpl ->
     Tree.construct E tmpl = Ok nf ->
     Tree.parse E v nf = (nf', Ok tt) ->
     processed E name xa (pre ++ [(f, v)]) c =
       (Tree.set_extra (Tree.extra c1 ++ [(f, nf')]) c1, Ok tt)).
Proof.
  intros Hpre Hfield Htext.
  pose proof (@processed_keeps_decl _ _ _ _ _ _ _ Hpre) as Hdecl.
  apply String.eqb_neq in Htext.
  split.
  - intros Hdyn. apply parse_stops_at_error.
    rewrite (@processed_app _ _ _ _ _ _ _ Hpre). cbn [Tree.parse_fields].
    now rewrite Hdecl, Hfield, Htext, Hdyn.
  - intros tmpl nf nf' Hdyn Hnew Hparse.
    rewrite (@processed_app _ _ _ _ _ _ _ Hpre). cbn [Tree.parse_fields].
    rewrite Hdecl, Hfield, Htext. unfold has_key. rewrite Hdyn.
    unfold bind, Tree.extend, ret. now rewrite Hdecl, Hdyn, Hnew, Hparse.
Qed.

Lemma unknown_tag_is_rejected_witness :
  Tree.parse Sample.env
             (XNode "motion" [("mode", "minimize")]
                    ([] ++ ("bogus", XNode "bogus" [] []) :: [("fixcom", XText "True")]))
             (Tree.NInput demo_node) =
    (Tree.NInput demo_node_with_mode,
     Raise (NameError "Tag name 'bogus' is not a recognized property of 'motion' objects")) /\
  processed Sample.env "motion" [("mode", "minimize")]
            ([] ++ [("motion", XNode "motion" [] [])]) demo_node =
    (Tree.set_extra (Tree.extra demo_node_with_mode ++ [("motion", inner_node_parsed)])
                    demo_node_with_mode, Ok tt).
Proof.
  split.
  - assert (Hneq : "bogus" <> "_text") by discriminate.
    exact (proj1 (@unknown_tag_is_rejected Sample.env "motion" [("mode", "minimize")]
                    [] [("fixcom", XText "True")] "bogus" (XNode "bogus" [] [])
                    demo_node demo_node_with_mode eq_refl eq_refl Hneq) eq_refl).
  - assert (Hneq : "motion" <> "_text") by discriminate.
    exact (proj2 (@unknown_tag_is_rejected Sample.env "motion" [("mode", "minimize")]
                    [] [] "motion" (XNode "motion" [] [])
                    demo_node demo_node_with_mode eq_refl eq_refl Hneq)
                 (Tree.SInput "InputInner" [] [] [] None None None (DValue PNone))
                 inner_node inner_node_parsed eq_refl eq_refl eq_refl).
Defined.

(** A tag with a child that is neither a field, nor "_text", nor a dynamic
    template is never accepted, wherever the child stands. *)
Lemma fields_with_unknown_tag_fail
      (E : external) (p : xml_node -> Tree.node -> Tree.node * res unit) (name : string)
      (l : list (string * xml_node)) (f : string) (D : Tree.decl) :
  In f (map fst l) ->
  has_key f (Tree.fields D) = false ->
  f <> "_text" ->
  has_key f (Tree.dynamic D) = false ->
  forall c, Tree.cdecl c = D -> is_ok (snd (Tree.parse_fields E p name l c)) = false.
Proof.
  intros Hin Hfield Htext Hdyn. apply String.eqb_neq in Htext.
  induction l as [|[g v] rest IH]; [destruct Hin|].
  intros c Hc. cbn [Tree.parse_fields]. rewrite Hc.
  destruct (String.eqb_spec g f) as [->|Hgf].
  - now rewrite Hfield, Htext, Hdyn.
  - assert (Hin' : In f (map fst rest)) by (destruct Hin as [H|H]; [contradiction|exact H]).
    destruct (has_key g (Tree.fields D)).
    + destruct (assoc g (Tree.dict c)) as [child|]; [|reflexivity].
      destruct (p v child) as [child' [[]|e]]; [|reflexivity].
      apply IH; [assumption|]. now destruct c.
    + destruct (String.eqb g "_text"); [now apply IH|].
      destruct (has_key g (Tree.dynamic D)); [|reflexivity].
      unfold bind.
      destruct (Tree.extend E p g v c) as [c1 [[]|e]] eqn:Hext; [|reflexivity].
      apply IH; [assumption|]. apply extend_keeps_decl in Hext. congruence.
Qed.

Lemma unknown_tag_never_parses
      (E : external) (name : string) (xa : list (string * string))
      (xf : list (string * xml_node)) (f : string) (c : Tree.composite) :
  In f (map fst xf) ->
  has_key f (Tree.fields (Tree.cdecl c)) = false ->
  f <> "_text" ->
  has_key f (Tree.dynamic (Tree.cdecl c)) = false ->
  is_ok (snd (Tree.parse E (XNode name xa xf) (Tree.NInput c))) = false.
Proof.
  intros Hin Hfield Htext Hdyn.
  destruct (processed E name xa xf c) as [c' [[]|e]] eqn:Hp.
  - exfalso. unfold processed, bind, Tree.adapt, ret in Hp.
    destruct (Tree.parse_attribs E name xa (Tree.reset c)) as [c0 [[]|e]] eqn:Ha;
      [|discriminate].
    pose proof (@fields_with_unknown_tag_fail E (Tree.parse E) name xf f (Tree.cdecl c)
                  Hin Hfield Htext Hdyn c0) as Hfail.
    rewrite Hp in Hfail. cbn in Hfail.
    apply attribs_keep_decl in Ha.
    assert (Hc0 : Tree.cdecl c0 = Tree.cdecl c) by (rewrite Ha; now destruct c).
    specialize (Hfail Hc0). discriminate.
  - now rewrite (@parse_stops_at_error _ _ _ _ _ _ _ Hp).
Qed.

(** ** The variant dispatcher *)

Lemma array_store_base (E : external) (v : pyval) (a : InputArray.t) :
  InputArray.base (fst (InputArray.store E v a)) = Input.set_explicit true (InputArray.base a).
Proof.
  unfold InputArray.store, InputArray.shape_attr, InputArray.read_value. run.
  destruct (np.shape v) as [sh|e]; [|reflexivity]. cbn.
  destruct (InputValue.store sh (InputArray.shape a)) as [n1 [[]|e]]; [|reflexivity]. cbn.
  destruct (np.flatten (InputArray.type a) v) as [d|e]; [|reflexivity]. cbn.
  destruct (InputValue.fetch E n1) as [n2 [cur|e]]; [|reflexivity]. cbn.
  destruct (py_eq cur InputArray.zero_shape); [|reflexivity]. cbn.
  destruct (InputValue.store _ n2) as [n3 r]. reflexivity.
Qed.

Lemma fresh_dispatcher_constructed :
  InputMotionBase.__init__ Sample.env None None None (DValue PNone) = Ok fresh_dispatcher.
Proof. reflexivity. Qed.

Lemma bool_store_ok (v : pyval) (n : InputValue.t) :
  InputValue.type n = py_bool -> is_ok (py_bool v) = true ->
  snd (InputValue.store v n) = Ok tt.
Proof.
  intros Hty Hv. unfold InputValue.store. run. rewrite Hty.
  destruct (py_bool v); [reflexivity|discriminate].
Qed.


Lemma str_store (E : external) (tag : string) (n : InputValue.t) :
  InputValue.type n = str_type E ->
  InputValue.store (PStr tag) n =
    (InputValue.set_value (PStr (py_str E (PStr tag)))
       (InputValue.with_base (Input.set_explicit true (InputValue.base n)) n), Ok tt).
Proof.
  intros Hty. apply value_store_ok. now rewrite Hty.
Qed.

Ltac open_store :=
  unfold InputMotionBase.store, InputMotionBase.mode_, InputMotionBase.optimizer_,
    InputMotionBase.neb_optimizer_, InputMotionBase.dynamics_, InputMotionBase.file_,
    InputMotionBase.vibrations_, InputMotionBase.alchemy_,
    InputMotionBase.fixcom_, InputMotionBase.fixatoms_;
  run.




(** ** The "multi" kind *)

Lemma fresh_motion_constructed :
  InputMotion.__init__ Sample.env None None None (DValue PNone) = Ok fresh_motion.
Proof. reflexivity. Qed.

Section Multi.
Context {SL : Slots}.
Variable E : external.

(** The loop over the sub-objects touches [extra] only. *)
Lemma store_each_keeps_base (l : list pyval) :
  forall s, InputMotion.as_base (fst (InputMotion.store_each E l s)) = InputMotion.as_base s.
Proof.
  induction l as [|m rest IH]; intros s; cbn [InputMotion.store_each]; [reflexivity|].
  unfold bind, lift.
  destruct (InputMotionBase.__init__ E None None None (DValue PNone)) as [im|e];
    [|reflexivity].
  destruct (InputMotionBase.store E m im) as [im' [[]|e]]; [|reflexivity].
  rewrite IH. reflexivity.
Qed.

(** Storing a "multi" object never touches the explicit flag of the
    receiver. *)
Lemma multi_store_keeps_explicit (ml : list pyval) (s : InputMotion.t) :
  InputMotion.explicit (fst (InputMotion.store E (new_MultiMotion ml) s)) =
    InputMotion.explicit s.
Proof.
  unfold InputMotion.store, new_MultiMotion. cbn [type_is String.eqb Ascii.eqb Bool.eqb].
  cbv beta iota.
  unfold InputMotion.mode_, InputMotion.super, InputMotionBase.mode_. run.
  destruct (InputValue.store (PStr "multi") (InputMotionBase.mode (InputMotion.as_base s)))
    as [n [[]|e]]; [|reflexivity].
  unfold InputMotion.explicit. rewrite store_each_keeps_base. reflexivity.
Qed.

(** Storing any other object marks the receiver explicit, whether or not
    the store goes through. *)
Lemma dispatcher_store_explicit (sc : pyval) (s : InputMotionBase.t) :
  Input._explicit (InputMotionBase.base (fst (InputMotionBase.store E sc s))) = true.
Proof.
  open_store.
  repeat match goal with
         | |- context [if ?b then _ else _] => destruct b; cbn
         | |- context [InputValue.store ?v ?n] => destruct (InputValue.store v n) as [? [[]|?]]; cbn
         | |- context [InputArray.store E ?v ?n] => destruct (InputArray.store E v n) as [? [[]|?]]; cbn
         | |- context [slot_store ?k ?v ?n] => destruct (slot_store k v n) as [? [[]|?]]; cbn
         | |- context [getattr ?x ?k] => destruct (getattr x k); cbn
         end; reflexivity.
Qed.

End Multi.

(** Every node of the generic tree is explicit after [store], whatever is
    stored and whether or not the store goes through. *)
Lemma node_store_explicit (E : external) (v : pyval) (n : Tree.node) :
  Tree.is_explicit (fst (Tree.store E v n)) = true.
Proof.
  destruct n as [x|a|c]; cbn [Tree.store].
  - pose proof (value_store_explicit v x) as H.
    destruct (InputValue.store v x). exact H.
  - pose proof (array_store_base E v a) as H.
    destruct (InputArray.store E v a) as [a' r]. cbn in *.
    unfold Tree.is_explicit. cbn. now rewrite H.
  - reflexivity.
Qed.

(** C2 at its failing input.  A new [InputMotion] that is given a "multi"
    object of two sub-objects stores it without error and is still not
    explicit afterwards, while the same node given the "minimize" object
    alone is explicit. *)
Theorem multi_store_is_not_explicit :
  InputMotion.__init__ Sample.env None None None (DValue PNone) = Ok fresh_motion /\
  snd (InputMotion.store Sample.env (new_MultiMotion [a_replay; a_minimize]) fresh_motion)
    = Ok tt /\
  InputMotion.explicit
    (fst (InputMotion.store Sample.env (new_MultiMotion [a_replay; a_minimize]) fresh_motion))
    = false /\
  InputMotion.explicit (fst (InputMotion.store Sample.env a_minimize fresh_motion)) = true.
Proof.
  split; [reflexivity|]. split; [reflexivity|]. split.
  - now rewrite multi_store_keeps_explicit.
  - reflexivity.
Qed.

(** ** Fetching from the dispatcher *)

Lemma value_fetch_invalid (E : external) (s : InputValue.t) (v : pyval) (opts : list pyval) :
  (explicit_value s || Input._optional (InputValue.base s) = true)%bool ->
  InputValue.value s = Some v ->
  InputValue._valid s = Some opts ->
  py_in v opts = false ->
  InputValue.fetch E s =
    (s, Raise (ValueError (py_str E v ++ " is not a valid option ("
                           ++ py_str E (PList opts) ++ ")"))).
Proof.
  intros Hx Hv Ho Hin.
  unfold InputValue.fetch, InputValue.check, Input.check, InputValue.read_value,
    Input.explicit, Input.optional, explicit_value in *.
  run. rewrite Hx. cbn. rewrite Ho. cbn. rewrite Hv. cbn. rewrite Hin. reflexivity.
Qed.

Section Fetch.
Context {SL : Slots}.
Variable E : external.

Lemma mode_is_eval (s : InputMotionBase.t) (m tag : string) :
  (explicit_value (InputMotionBase.mode s)
   || Input._optional (InputValue.base (InputMotionBase.mode s)) = true)%bool ->
  InputValue.value (InputMotionBase.mode s) = Some (PStr m) ->
  Input._dimension (InputValue.base (InputMotionBase.mode s)) = "undefined" ->
  match InputValue._valid (InputMotionBase.mode s) with
  | None => True
  | Some opts => py_in (PStr m) opts = true
  end ->
  InputMotionBase.mode_is E tag s = (s, Ok (String.eqb m tag)).
Proof.
  intros Hx Hv Hd Hin.
  unfold InputMotionBase.mode_is, InputMotionBase.mode_, bind.
  erewrite on_attr_eq by (apply value_fetch_plain; eassumption).
  destruct s; reflexivity.
Qed.

(** C3, as the code has it.  On a dispatcher that passes its own check and
    whose discriminator holds a string [m]: if [m] is in the option list of
    the discriminator and is none of the six tags with a constructor
    branch, [fetch] returns the placeholder [Motion()] and changes nothing;
    if [m] is not in the option list, [fetch] raises the invalid-option
    error. *)
Theorem listed_unmatched_mode_yields_placeholder
        (s : InputMotionBase.t) (m : string) (opts : list pyval) :
  (Input._explicit (InputMotionBase.base s)
   || Input._optional (InputMotionBase.base s) = true)%bool ->
  (explicit_value (InputMotionBase.mode s)
   || Input._optional (InputValue.base (InputMotionBase.mode s)) = true)%bool ->
  InputValue.value (InputMotionBase.mode s) = Some (PStr m) ->
  Input._dimension (InputValue.base (InputMotionBase.mode s)) = "undefined" ->
  InputValue._valid (InputMotionBase.mode s) = Some opts ->
  (py_in (PStr m) opts = true ->
   existsb (String.eqb m) constructible_tags = false ->
   InputMotionBase.fetch E s = (s, Ok (new_object "Motion" []))) /\
  (py_in (PStr m) opts = false ->
   snd (InputMotionBase.fetch E s) =
     Raise (ValueError (py_str E (PStr m) ++ " is not a valid option ("
                        ++ py_str E (PList opts) ++ ")"))).
Proof.
  intros Hs Hx Hv Hd Ho. split.
  - intros Hin Htags.
    assert (Hm : forall tag, InputMotionBase.mode_is E tag s = (s, Ok (String.eqb m tag))).
    { intros tag. apply mode_is_eval; try assumption. now rewrite Ho. }
    unfold constructible_tags in Htags. cbn [existsb] in Htags.
    repeat (apply orb_false_elim in Htags as [?H Htags]).
    unfold InputMotionBase.fetch, InputMotionBase.fetch_as.
    unfold bind at 1. unfold Input.check, Input.explicit, Input.optional.
    cbn [InputMotionBase.cls Input.base]. rewrite Hs. cbn [negb].
    repeat (unfold bind at 1; rewrite Hm;
            match goal with H : String.eqb m _ = false |- _ => rewrite H; clear H end).
    reflexivity.
  - intros Hin.
    unfold InputMotionBase.fetch, InputMotionBase.fetch_as.
    unfold bind at 1. unfold Input.check, Input.explicit, Input.optional.
    cbn [InputMotionBase.cls Input.base]. rewrite Hs. cbn [negb].
    unfold bind at 1. unfold InputMotionBase.mode_is, InputMotionBase.mode_.
    unfold bind at 1.
    erewrite on_attr_eq by (apply value_fetch_invalid; eassumption).
    reflexivity.
Qed.

End Fetch.

Lemma listed_unmatched_mode_yields_placeholder_witness :
  InputValue.value (InputMotionBase.mode dummy_dispatcher) = Some (PStr "dummy") /\
  InputMotionBase.fetch Sample.env dummy_dispatcher =
    (dummy_dispatcher, Ok (new_object "Motion" [])) /\
  snd (InputMotionBase.fetch Sample.env foo_dispatcher) =
    Raise (ValueError (py_str Sample.env (PStr "foo") ++ " is not a valid option ("
                       ++ py_str Sample.env (PList InputMotionBase.options) ++ ")")).
Proof.
  split; [reflexivity|]. split.
  - exact (proj1 (@listed_unmatched_mode_yields_placeholder Sample.slots Sample.env
                    dummy_dispatcher "dummy" InputMotionBase.options
                    eq_refl eq_refl eq_refl eq_refl eq_refl) eq_refl eq_refl).
  - exact (proj2 (@listed_unmatched_mode_yields_placeholder Sample.slots Sample.env
                    foo_dispatcher "foo" InputMotionBase.options
                    eq_refl eq_refl eq_refl eq_refl eq_refl) eq_refl).
Defined.

(** C3 as stated fails: a dispatcher whose discriminator holds "foo",
    which no kind is registered under, does not fetch a placeholder; it
    raises. *)
Lemma unlisted_mode_raises :
  InputMotionBase.__init__ Sample.env None None None (DValue PNone) = Ok fresh_dispatcher /\
  snd (InputMotionBase.store Sample.env a_dummy fresh_dispatcher) = Ok tt /\
  snd (InputMotionBase.mode_ (InputValue.store (PStr "foo")) dummy_dispatcher) = Ok tt /\
  InputValue.value (InputMotionBase.mode foo_dispatcher) = Some (PStr "foo") /\
  py_in (PStr "foo") InputMotionBase.options = false /\
  (exists msg, snd (InputMotionBase.fetch Sample.env foo_dispatcher) = Raise (ValueError msg)).
Proof.
  repeat split; try reflexivity. eexists. reflexivity.
Qed.

(** ** One child of a "multi" node *)

Ltac cases :=
  repeat (cbn; match goal with
               | |- context [match ?x with _ => _ end] =>
                   lazymatch x with
                   | context [match _ with _ => _ end] => fail
                   | _ => destruct x
                   end
               end);
  cbn; try reflexivity.

Lemma value_fetch_state (E : external) (s : InputValue.t) : fst (InputValue.fetch E s) = s.
Proof.
  unfold InputValue.fetch, InputValue.check, Input.check, InputValue.read_value. run.
  cases.
Qed.

Section Child.
Context {SL : Slots}.
Variable E : external.

Ltac open_fetch :=
  unfold InputMotionBase.build, InputMotionBase.common, InputMotionBase.optimizer_,
    InputMotionBase.neb_optimizer_, InputMotionBase.dynamics_, InputMotionBase.file_,
    InputMotionBase.vibrations_, InputMotionBase.alchemy_,
    InputMotionBase.fixcom_, InputMotionBase.fixatoms_;
  run.

Ltac fetch_tail :=
  destruct (InputValue.fetch E _) as [? [?|?]]; cbn; [|discriminate];
  destruct (InputArray.fetch E _) as [? [?|?]]; cbn; [|discriminate];
  destruct (slot_fetch _ _) as [? [?|?]]; cbn; [|discriminate];
  try (destruct (InputMotionBase.expand _) as [?|?]; cbn; [|discriminate]);
  intros [= <- <-]; split; [reflexivity|]; intros _; split; reflexivity.

Lemma fetch_by_tag (s s'  : InputMotionBase.t) (cls tag : string) (o : pyval) :
  In (cls, tag) registered ->
  Input._explicit (InputMotionBase.base s) = true ->
  explicit_value (InputMotionBase.mode s) = true ->
  InputValue.value (InputMotionBase.mode s) = Some (PStr tag) ->
  InputValue._valid (InputMotionBase.mode s) = Some InputMotionBase.options ->
  Input._dimension (InputValue.base (InputMotionBase.mode s)) = "undefined" ->
  InputMotionBase.fetch E s = (s', Ok o) ->
  class_of o = Some cls /\
  (tag <> "dummy" ->
   snd (InputValue.fetch E (InputMotionBase.fixcom s)) = getattr o "fixcom" /\
   snd (InputArray.fetch E (InputMotionBase.fixatoms s)) = getattr o "fixatoms").
Proof.
  intros Hin Hs Hx Hv Ho Hd.
  assert (Hm : forall t, InputMotionBase.mode_is E t s = (s, Ok (String.eqb tag t))).
  { intros t. apply mode_is_eval; try assumption.
    - now rewrite Hx.
    - rewrite Ho. unfold registered in Hin. cbn in Hin.
      repeat (destruct Hin as [[= <- <-]|Hin]; [reflexivity|]). destruct Hin. }
  unfold InputMotionBase.fetch, InputMotionBase.fetch_as.
  unfold bind at 1. unfold Input.check, Input.explicit, Input.optional.
  cbn [InputMotionBase.cls Input.base]. rewrite Hs. cbn [negb orb].
  unfold registered in Hin. cbn in Hin.
  destruct Hin as [[= <- <-]|[[= <- <-]|[[= <- <-]|[[= <- <-]|[[= <- <-]|[[= <- <-]|[[= <- <-]|[]]]]]]]];
    repeat (unfold bind at 1; rewrite Hm; cbn [String.eqb Ascii.eqb Bool.eqb]; cbv beta iota).
  - unfold ret. intros [= <- <-]. split; [reflexivity|]. congruence.
  - open_fetch. fetch_tail.
  - open_fetch. fetch_tail.
  - open_fetch. fetch_tail.
  - open_fetch. fetch_tail.
  - open_fetch. fetch_tail.
  - open_fetch. fetch_tail.
Qed.

Lemma fresh_parts (im0 : InputMotionBase.t) :
  InputMotionBase.__init__ E None None None (DValue PNone) = Ok im0 ->
  InputMotionBase.mode im0 = fresh_mode E /\
  InputMotionBase.fixcom im0 = fresh_fixcom /\
  InputMotionBase.fixatoms im0 = fresh_fixatoms E.
Proof.
  assert (H1 : InputMotionBase.new_mode E = Ok (fresh_mode E)) by reflexivity.
  assert (H2 : InputMotionBase.new_fixcom E = Ok fresh_fixcom) by reflexivity.
  assert (H3 : InputMotionBase.new_fixatoms E = Ok (fresh_fixatoms E)) by reflexivity.
  unfold InputMotionBase.__init__, Input.__init__, InputMotionBase.children.
  cbn [Input.take_default]. rewrite H1, H2, H3. cbn [rbind].
  repeat (destruct (slot_new _) as [?|?]; cbn [rbind]; [|discriminate]).
  cbn. intros [= <-]. repeat split.
Qed.

Ltac common_tail cls tag :=
  destruct (slot_store _ _ _) as [? [[]|?]]; cbn; [|discriminate];
  match goal with
  | |- context [assoc "fixcom" ?attrs] =>
      destruct (assoc "fixcom" attrs) as [?fc|]; cbn; [|discriminate]
  end;
  match goal with
  | |- context [InputValue.store ?fc fresh_fixcom] =>
      let Hs := fresh "Hs" in
      destruct (InputValue.store fc fresh_fixcom) as [? [[]|?]] eqn:Hs;
      cbn; [|discriminate];
      match goal with
      | |- context [assoc "fixatoms" ?attrs] =>
          destruct (assoc "fixatoms" attrs) as [?fa|]; cbn; [|discriminate]
      end;
      match goal with
      | |- context [InputArray.store E ?fa (fresh_fixatoms E)] =>
          let Ha := fresh "Ha" in
          destruct (InputArray.store E fa (fresh_fixatoms E)) as [? [[]|?]] eqn:Ha;
          cbn; [|discriminate];
          intros [= <-]; exists cls, tag; cbn;
          repeat split; try tauto;
          exists fc, fa; rewrite ?Hs, ?Ha; repeat split; reflexivity
      end
  end.

Lemma store_by_kind (im0 im'  : InputMotionBase.t) (m : pyval) :
  (forall t, py_str E (PStr t) = t) ->
  InputMotionBase.mode im0 = fresh_mode E ->
  InputMotionBase.fixcom im0 = fresh_fixcom ->
  InputMotionBase.fixatoms im0 = fresh_fixatoms E ->
  InputMotionBase.store E m im0 = (im', Ok tt) ->
  exists cls tag,
    In (cls, tag) registered /\ class_of m = Some cls /\
    Input._explicit (InputMotionBase.base im') = true /\
    InputMotionBase.mode im' = mode_holding E tag /\
    (if existsb (String.eqb cls) common_kinds
     then exists fc fa,
            getattr m "fixcom" = Ok fc /\ getattr m "fixatoms" = Ok fa /\
            InputMotionBase.fixcom im' = fst (InputValue.store fc fresh_fixcom) /\
            InputMotionBase.fixatoms im' = fst (InputArray.store E fa (fresh_fixatoms E))
     else InputMotionBase.fixcom im' = fresh_fixcom /\
          InputMotionBase.fixatoms im' = fresh_fixatoms E).
Proof.
  intros Hstr Hmode Hfc Hfa.
  assert (Hst : forall tag, InputValue.store (PStr tag) (fresh_mode E) =
                            (mode_holding E tag, Ok tt)).
  { intros tag. unfold mode_holding. rewrite <- (Hstr tag) at 2.
    now apply str_store. }
  destruct im0 as [b0 md fc0 fa0 o n d f v a]. cbn in Hmode, Hfc, Hfa. subst md fc0 fa0.
  destruct m as [ | | | | | | | |c attrs];
    try (open_store; discriminate).
  destruct (String.eqb_spec c "Motion") as [->|H1].
  { open_store. rewrite Hst. cbn. intros [= <-].
    exists "Motion", "dummy". cbn. intuition. }
  destruct (String.eqb_spec c "Replay") as [->|H2].
  { open_store. rewrite Hst. cbn.
    destruct (assoc "intraj" attrs) as [x|]; [|discriminate].
    destruct (slot_store _ _ _) as [t [[]|e]]; [|discriminate].
    intros [= <-]. exists "Replay", "replay". cbn. intuition. }
  destruct (String.eqb_spec c "GeopMotion") as [->|H3].
  { open_store. rewrite Hst. cbn. common_tail "GeopMotion" "minimize". }
  destruct (String.eqb_spec c "NEBMover") as [->|H4].
  { open_store. rewrite Hst. cbn. common_tail "NEBMover" "neb". }
  destruct (String.eqb_spec c "Dynamics") as [->|H5].
  { open_store. rewrite Hst. cbn. common_tail "Dynamics" "dynamics". }
  destruct (String.eqb_spec c "DynMatrixMover") as [->|H6].
  { open_store. rewrite Hst. cbn. common_tail "DynMatrixMover" "vibrations". }
  destruct (String.eqb_spec c "AlchemyMC") as [->|H7].
  { open_store. rewrite Hst. cbn. common_tail "AlchemyMC" "alchemy". }
  apply String.eqb_neq in H1, H2, H3, H4, H5, H6, H7.
  unfold InputMotionBase.store. cbn [type_is].
  rewrite H1, H2, H3, H4, H5, H6, H7. run. discriminate.
Qed.


Lemma fresh_fixatoms_declared : shape_as_declared (fresh_fixatoms E).
Proof. repeat split. Qed.

Lemma child_round_trip (im0 im' im'' : InputMotionBase.t) (m o : pyval) :
  (forall t, py_str E (PStr t) = t) ->
  InputMotionBase.__init__ E None None None (DValue PNone) = Ok im0 ->
  InputMotionBase.store E m im0 = (im', Ok tt) ->
  InputMotionBase.fetch E im' = (im'', Ok o) ->
  reconstructs E m o.
Proof.
  intros Hstr Hnew Hstore Hfetch.
  destruct (@fresh_parts im0 Hnew) as (Hmode & Hfc & Hfa).
  destruct (@store_by_kind im0 im' m Hstr Hmode Hfc Hfa Hstore)
    as (cls & tag & Hin & Hcls & Hx & Hm & Hcommon).
  assert (Hft := @fetch_by_tag im' im'' cls tag o Hin Hx).
  rewrite Hm in Hft. specialize (Hft eq_refl eq_refl eq_refl eq_refl Hfetch).
  destruct Hft as [Hco Hattrs].
  destruct m as [ | | | | | | | |c attrs]; try discriminate Hcls.
  injection Hcls as ->.
  unfold reconstructs. split; [exact Hco|].
  unfold registered in Hin. cbn [In] in Hin.
  destruct Hin as [[= <- <-]|[[= <- <-]|[[= <- <-]|[[= <- <-]|[[= <- <-]|[[= <- <-]|[[= <- <-]|[]]]]]]]];
    cbn in Hcommon; (split; [intros Hk; try discriminate Hk|intros Hk; try discriminate Hk]).
  all: try (destruct Hcommon as (fc & fa & Hgfc & Hgfa & Hsfc & Hsfa);
            destruct (Hattrs ltac:(discriminate)) as [Hafc Hafa];
            split;
            [ intros b Hb; cbn in Hb; rewrite Hgfc in Hb; injection Hb as ->;
              rewrite <- Hafc, Hsfc; reflexivity
            | intros sh d Hd Hwf Hel; cbn in Hd; rewrite Hgfa in Hd; injection Hd as ->;
              rewrite <- Hafa, Hsfa;
              rewrite (array_store_wf E fresh_fixatoms_declared Hwf Hel); cbn [fst];
              apply array_fetch_wf; [apply fresh_fixatoms_declared|assumption|reflexivity] ]).
  destruct Hcommon as [Hsfc Hsfa].
  destruct (Hattrs ltac:(discriminate)) as [Hafc Hafa].
  rewrite <- Hafc, <- Hafa, Hsfc, Hsfa. split; reflexivity.
Qed.


(** The loop of [InputMotion.store] over storable sub-objects. *)
Lemma store_each_all (im0 : InputMotionBase.t) (ml : list pyval) :
  InputMotionBase.__init__ E None None None (DValue PNone) = Ok im0 ->
  Forall (fun m => snd (InputMotionBase.store E m im0) = Ok tt) ml ->
  forall s,
    InputMotion.store_each E ml s =
      (InputMotion.set_extra
         (InputMotion.extra s
          ++ map (fun m => ("motion", fst (InputMotionBase.store E m im0))) ml) s,
       Ok tt).
Proof.
  intros Hnew Hall. induction Hall as [|m ml Hm _ IH]; intros s.
  - cbn. rewrite app_nil_r. destruct s; reflexivity.
  - cbn [InputMotion.store_each map]. unfold bind at 1, lift. rewrite Hnew.
    unfold bind at 1.
    destruct (InputMotionBase.store E m im0) as [im' r]. cbn in Hm. subst r.
    rewrite IH. cbn. rewrite <- app_assoc. reflexivity.
Qed.

(** The loop of [InputMotion.fetch] over children that can be fetched. *)
Lemma fetch_each_all (l : list (string * InputMotionBase.t)) :
  Forall (fun c => is_ok (snd (InputMotionBase.fetch E (snd c))) = true) l ->
  exists os,
    snd (InputMotion.fetch_each E l) = Ok os /\
    Forall2 (fun c o => snd (InputMotionBase.fetch E (snd c)) = Ok o) l os.
Proof.
  induction 1 as [|[k c] l Hc _ (os & Hos & Hall)].
  - exists []. split; [reflexivity|constructor].
  - cbn [InputMotion.fetch_each]. cbn [snd] in Hc.
    destruct (InputMotionBase.fetch E c) as [c' [o|e]] eqn:Hf; [|discriminate].
    destruct (InputMotion.fetch_each E l) as [l' r]. cbn [snd] in Hos. subst r.
    exists (o :: os). split; [reflexivity|].
    constructor; [cbn; now rewrite Hf|assumption].
Qed.

Lemma children_reconstruct (im0 : InputMotionBase.t) (ml os : list pyval) :
  (forall t, py_str E (PStr t) = t) ->
  InputMotionBase.__init__ E None None None (DValue PNone) = Ok im0 ->
  Forall (fun m => snd (InputMotionBase.store E m im0) = Ok tt) ml ->
  Forall2 (fun c o => snd (InputMotionBase.fetch E (snd c)) = Ok o)
          (map (fun m => ("motion", fst (InputMotionBase.store E m im0))) ml) os ->
  Forall2 (reconstructs E) ml os.
Proof.
  intros Hstr Hnew Hall. revert os.
  induction Hall as [|m ml Hm _ IH]; intros os H; cbn [map] in H; inversion H; subst.
  - constructor.
  - constructor; [|now apply IH].
    match goal with Hf : snd (InputMotionBase.fetch E _) = Ok _ |- _ => cbn [snd] in Hf; rename Hf into Hfetch end.
    destruct (InputMotionBase.store E m im0) as [im' r] eqn:Hs. cbn in Hm. subst r.
    cbn [fst] in Hfetch.
    destruct (InputMotionBase.fetch E im') as [im'' r] eqn:Hf. cbn in Hfetch. subst r.
    eapply child_round_trip; eassumption.
Qed.

Ltac built_tail :=
  destruct (InputValue.fetch E _) as [? [?|?]]; cbn; [|discriminate];
  destruct (InputArray.fetch E _) as [? [?|?]]; cbn; [|discriminate];
  destruct (slot_fetch _ _) as [? [?|?]] eqn:Hslot; cbn; [|discriminate];
  try (destruct (InputMotionBase.expand _) as [?|?] eqn:Hexp; cbn; [|discriminate]);
  intros [= <- <-]; unfold built_from; cbn;
  rewrite ?Hslot; cbn;
  repeat eexists; eassumption.

Lemma fetch_builds (s s'  : InputMotionBase.t) (cls tag : string) (o : pyval) :
  In (cls, tag) registered ->
  Input._explicit (InputMotionBase.base s) = true ->
  explicit_value (InputMotionBase.mode s) = true ->
  InputValue.value (InputMotionBase.mode s) = Some (PStr tag) ->
  InputValue._valid (InputMotionBase.mode s) = Some InputMotionBase.options ->
  Input._dimension (InputValue.base (InputMotionBase.mode s)) = "undefined" ->
  InputMotionBase.fetch E s = (s', Ok o) ->
  built_from s cls o.
Proof.
  intros Hin Hs Hx Hv Ho Hd.
  assert (Hm : forall t, InputMotionBase.mode_is E t s = (s, Ok (String.eqb tag t))).
  { intros t. apply mode_is_eval; try assumption.
    - now rewrite Hx.
    - rewrite Ho. unfold registered in Hin. cbn in Hin.
      repeat (destruct Hin as [[= <- <-]|Hin]; [reflexivity|]). destruct Hin. }
  unfold InputMotionBase.fetch, InputMotionBase.fetch_as.
  unfold bind at 1. unfold Input.check, Input.explicit, Input.optional.
  cbn [InputMotionBase.cls Input.base]. rewrite Hs. cbn [negb orb].
  unfold registered in Hin. cbn in Hin.
  destruct Hin as [[= <- <-]|[[= <- <-]|[[= <- <-]|[[= <- <-]|[[= <- <-]|[[= <- <-]|[[= <- <-]|[]]]]]]]];
    repeat (unfold bind at 1; rewrite Hm; cbn [String.eqb Ascii.eqb Bool.eqb]; cbv beta iota).
  - unfold ret. intros [= <- <-]. reflexivity.
  - open_fetch. built_tail.
  - open_fetch. built_tail.
  - open_fetch. built_tail.
  - open_fetch. built_tail.
  - open_fetch. built_tail.
  - open_fetch. built_tail.
Qed.

Ltac holds_tail :=
  destruct (slot_store _ _ _) as [? [[]|?]] eqn:Hslot; cbn; [|discriminate];
  match goal with
  | |- context [assoc "fixcom" ?attrs] =>
      destruct (assoc "fixcom" attrs) as [?fc|]; cbn; [|discriminate]
  end;
  match goal with
  | |- context [InputValue.store ?fc ?n] =>
      destruct (InputValue.store fc n) as [? [[]|?]]; cbn; [|discriminate]
  end;
  match goal with
  | |- context [assoc "fixatoms" ?attrs] =>
      destruct (assoc "fixatoms" attrs) as [?fa|]; cbn; [|discriminate]
  end;
  match goal with
  | |- context [InputArray.store E ?fa ?n] =>
      destruct (InputArray.store E fa n) as [? [[]|?]]; cbn; [|discriminate]
  end;
  intros [= <-]; cbn; rewrite ?Hslot; reflexivity.

Lemma store_holds (im0 im'  : InputMotionBase.t) (m : pyval) :
  InputMotionBase.store E m im0 = (im', Ok tt) ->
  holds_fields_of im0 im' m.
Proof.
  destruct im0 as [b0 md fc0 fa0 o n d f v a].
  destruct m as [ | | | | | | | |c attrs];
    try (open_store; discriminate).
  unfold holds_fields_of, stored_in.
  destruct (String.eqb_spec c "Motion") as [->|H1].
  { intros _. exact I. }
  destruct (String.eqb_spec c "Replay") as [->|H2].
  { open_store.
    destruct (InputValue.store _ md) as [? [[]|?]]; cbn; [|discriminate].
    destruct (assoc "intraj" attrs) as [x|]; [|discriminate].
    destruct (slot_store _ _ _) as [? [[]|?]] eqn:Hslot; [|discriminate].
    intros [= <-]. exists x. cbn. now rewrite Hslot. }
  destruct (String.eqb_spec c "GeopMotion") as [->|H3].
  { open_store. destruct (InputValue.store _ md) as [? [[]|?]]; cbn; [|discriminate].
    holds_tail. }
  destruct (String.eqb_spec c "NEBMover") as [->|H4].
  { open_store. destruct (InputValue.store _ md) as [? [[]|?]]; cbn; [|discriminate].
    holds_tail. }
  destruct (String.eqb_spec c "Dynamics") as [->|H5].
  { open_store. destruct (InputValue.store _ md) as [? [[]|?]]; cbn; [|discriminate].
    holds_tail. }
  destruct (String.eqb_spec c "DynMatrixMover") as [->|H6].
  { open_store. destruct (InputValue.store _ md) as [? [[]|?]]; cbn; [|discriminate].
    holds_tail. }
  destruct (String.eqb_spec c "AlchemyMC") as [->|H7].
  { open_store. destruct (InputValue.store _ md) as [? [[]|?]]; cbn; [|discriminate].
    holds_tail. }
  intros _. exact I.
Qed.

Lemma child_rebuilt (im0 im' im'' : InputMotionBase.t) (m o : pyval) :
  (forall t, py_str E (PStr t) = t) ->
  InputMotionBase.__init__ E None None None (DValue PNone) = Ok im0 ->
  InputMotionBase.store E m im0 = (im', Ok tt) ->
  InputMotionBase.fetch E im' = (im'', Ok o) ->
  rebuilt_from im0 m o.
Proof.
  intros Hstr Hnew Hstore Hfetch.
  destruct (@fresh_parts im0 Hnew) as (Hmode & Hfc & Hfa).
  destruct (@store_by_kind im0 im' m Hstr Hmode Hfc Hfa Hstore)
    as (cls & tag & Hin & Hcls & Hx & Hm & _).
  exists im', cls. split; [exact Hcls|]. split.
  - now apply store_holds.
  - apply (@fetch_builds im' im'' cls tag o Hin Hx); try (rewrite Hm; reflexivity).
    exact Hfetch.
Qed.

Lemma children_rebuilt (im0 : InputMotionBase.t) (ml os : list pyval) :
  (forall t, py_str E (PStr t) = t) ->
  InputMotionBase.__init__ E None None None (DValue PNone) = Ok im0 ->
  Forall (fun m => snd (InputMotionBase.store E m im0) = Ok tt) ml ->
  Forall2 (fun c o => snd (InputMotionBase.fetch E (snd c)) = Ok o)
          (map (fun m => ("motion", fst (InputMotionBase.store E m im0))) ml) os ->
  Forall2 (rebuilt_from im0) ml os.
Proof.
  intros Hstr Hnew Hall. revert os.
  induction Hall as [|m ml Hm _ IH]; intros os H; cbn [map] in H; inversion H; subst.
  - constructor.
  - constructor; [|now apply IH].
    match goal with Hf : snd (InputMotionBase.fetch E _) = Ok _ |- _ => cbn [snd] in Hf; rename Hf into Hfetch end.
    destruct (InputMotionBase.store E m im0) as [im' r] eqn:Hs. cbn in Hm. subst r.
    cbn [fst] in Hfetch.
    destruct (InputMotionBase.fetch E im') as [im'' r] eqn:Hf. cbn in Hfetch. subst r.
    eapply child_rebuilt; eassumption.
Qed.

End Child.

(** C5, as the code has it.  Let the sub-objects of a composite object
    each be storable by a new base dispatcher.  Storing the composite
    object into an [InputMotion] succeeds, sets the discriminator to
    "multi", and appends to [extra], in list order, one pair of the tag
    "motion" and the base dispatcher that stored the sub-object.  If
    [extra] was empty before and every child can be fetched, [fetch]
    returns a composite object whose list has, position by position, an
    object of the kind of the sub-object stored there, with the
    sub-object's [fixcom] and [fixatoms] for the kinds that carry them and
    the schema defaults in their place for "replay".  Its other fields
    are the ones fetched from the node that stored them: the [intraj] of
    a "replay" sub-object from the [file] node that stored that [intraj],
    the keywords of every other kind from the sub-schema of that kind
    that stored the sub-object. *)
Theorem multi_round_trip
        {SL : Slots} (E : external) (s : InputMotion.t) (ml : list pyval)
        (im0 : InputMotionBase.t) :
  (forall t, py_str E (PStr t) = t) ->
  mode_as_declared E (InputMotionBase.mode (InputMotion.as_base s)) ->
  InputMotionBase.__init__ E None None None (DValue PNone) = Ok im0 ->
  Forall (fun m => snd (InputMotionBase.store E m im0) = Ok tt) ml ->
  let s' := fst (InputMotion.store E (new_MultiMotion ml) s) in
  let children := map (fun m => ("motion", fst (InputMotionBase.store E m im0))) ml in
  snd (InputMotion.store E (new_MultiMotion ml) s) = Ok tt /\
  InputValue.value (InputMotionBase.mode (InputMotion.as_base s')) = Some (PStr "multi") /\
  InputMotion.extra s' = (InputMotion.extra s ++ children)%list /\
  (InputMotion.extra s = [] ->
   Forall (fun c => is_ok (snd (InputMotionBase.fetch E (snd c))) = true) children ->
   exists os,
     snd (InputMotion.fetch E s') = Ok (new_MultiMotion os) /\
     Forall2 (reconstructs E) ml os /\
     Forall2 (rebuilt_from im0) ml os).
Proof.
  intros Hstr (Hty & Hvalid & Hdim) Hnew Hall s' children.
  assert (Hstore : InputMotion.store E (new_MultiMotion ml) s =
    (InputMotion.mk
       (InputMotionBase.set_mode
          (InputValue.set_value (PStr "multi")
             (InputValue.with_base
                (Input.set_explicit true
                   (InputValue.base (InputMotionBase.mode (InputMotion.as_base s))))
                (InputMotionBase.mode (InputMotion.as_base s))))
          (InputMotion.as_base s))
       (InputMotion.extra s ++ children), Ok tt)).
  { unfold InputMotion.store, new_MultiMotion.
    cbn [type_is String.eqb Ascii.eqb Bool.eqb]. cbv beta iota.
    unfold InputMotion.mode_, InputMotion.super, InputMotionBase.mode_. run.
    rewrite (str_store _ _ Hty). cbn. rewrite Hstr.
    rewrite (@store_each_all _ E im0 ml Hnew Hall). reflexivity. }
  subst s'. rewrite Hstore. cbn [fst snd].
  split; [reflexivity|]. split; [reflexivity|]. split; [reflexivity|].
  intros Hempty Hfetchable.
  destruct (@fetch_each_all _ E _ Hfetchable) as (os & Hos & Hf2).
  exists os. split.
  - unfold InputMotion.fetch, InputMotion.mode_, InputMotion.super, InputMotionBase.mode_.
    unfold bind at 1.
    erewrite on_attr_eq; cycle 1.
    { cbn. erewrite on_attr_eq; [reflexivity|]. cbn.
      apply value_fetch_plain; cbn; try reflexivity; try assumption.
      now rewrite Hvalid. }
    cbn [py_eq String.eqb Ascii.eqb Bool.eqb]. cbv beta iota.
    unfold bind, on_attr, ret. cbn [InputMotion.extra InputMotion.set_as_base].
    rewrite Hempty. cbn [app].
    destruct (InputMotion.fetch_each E children) as [l' r]. cbn in Hos. subst r.
    reflexivity.
  - split.
    + eapply children_reconstruct; eassumption.
    + eapply children_rebuilt; eassumption.
Qed.

Lemma multi_round_trip_witness :
  let stored := InputMotion.store Sample.env (new_MultiMotion [a_replay; a_minimize])
                                  fresh_motion in
  snd stored = Ok tt /\
  InputValue.value (InputMotionBase.mode (InputMotion.as_base (fst stored)))
    = Some (PStr "multi") /\
  map fst (InputMotion.extra (fst stored)) = ["motion"; "motion"] /\
  (exists os,
     snd (InputMotion.fetch Sample.env (fst stored)) = Ok (new_MultiMotion os) /\
     Forall2 (reconstructs Sample.env) [a_replay; a_minimize] os /\
     Forall2 (rebuilt_from fresh_dispatcher) [a_replay; a_minimize] os) /\
  snd (InputMotion.fetch Sample.env (fst stored)) =
    Ok (new_MultiMotion
          [new_object "Replay" [("fixcom", PBool true); ("fixatoms", PArray [0] []);
                                ("intraj", PStr "in.xyz")];
           new_object "GeopMotion" [("fixcom", PBool false);
                                    ("fixatoms", PArray [2] [PInt 3; PInt 7])]]).
Proof.
  intros stored.
  assert (Hstr : forall t, py_str Sample.env (PStr t) = t) by reflexivity.
  assert (Hmode : mode_as_declared Sample.env
                    (InputMotionBase.mode (InputMotion.as_base fresh_motion)))
    by (repeat split).
  assert (Hall : Forall (fun m => snd (InputMotionBase.store Sample.env m fresh_dispatcher)
                                  = Ok tt) [a_replay; a_minimize])
    by (repeat constructor).
  destruct (@multi_round_trip Sample.slots Sample.env fresh_motion [a_replay; a_minimize]
              fresh_dispatcher Hstr Hmode fresh_dispatcher_constructed Hall)
    as (Hok & Hm & Hextra & Hfetch).
  split; [exact Hok|]. split; [exact Hm|]. split; [|split].
  - unfold stored. rewrite Hextra. reflexivity.
  - apply Hfetch; [reflexivity|]. repeat constructor.
  - reflexivity.
Defined.

(** C5 as stated fails in two ways.  A composite object that holds a
    composite object cannot be stored: the child dispatcher raises and
    nothing is appended.  And a "replay" sub-object whose [fixcom] is
    false comes back with [fixcom] true. *)
Lemma multi_round_trip_fails :
  (exists msg,
     snd (InputMotion.store Sample.env (new_MultiMotion [new_MultiMotion []]) fresh_motion)
       = Raise (ValueError msg)) /\
  InputMotion.extra
    (fst (InputMotion.store Sample.env (new_MultiMotion [new_MultiMotion []]) fresh_motion))
    = [] /\
  getattr a_replay "fixcom" = Ok (PBool false) /\
  snd (InputMotion.store Sample.env (new_MultiMotion [a_replay]) fresh_motion) = Ok tt /\
  snd (InputMotion.fetch Sample.env
         (fst (InputMotion.store Sample.env (new_MultiMotion [a_replay]) fresh_motion)))
    = Ok (new_MultiMotion
            [new_object "Replay" [("fixcom", PBool true); ("fixatoms", PArray [0] []);
                                  ("intraj", PStr "in.xyz")]]).
Proof.
  split; [eexists; reflexivity|]. repeat split; reflexivity.
Qed.

(** ** The constructors of the classes of these files *)

Lemma init_leaves_flag_down {S : Type} (C : Input.class S)
      (help dimension units : option string) (default : default_arg)
      (children : Input.t -> res S) (s : S) :
  (forall b x, Input.base C (Input.with_base C b x) = b) ->
  (forall b x, children b = Ok x -> Input.base C x = b) ->
  Input.__init__ C help dimension units default children = Ok s ->
  Input.explicit C s = false.
Proof.
  intros Hlens Hch. unfold Input.__init__.
  destruct (Input.take_default default) as [[d opt]|e]; [|discriminate].
  match goal with |- context [children ?b] =>
    destruct (children b) as [s0|e] eqn:Hs0; [|discriminate]
  end.
  cbn [rbind]. apply Hch in Hs0.
  unfold Input.apply_default, Input.explicit. rewrite Hs0. cbn [Input._default].
  destruct d;
    try (intros [= <-]; rewrite Hs0; reflexivity);
    unfold bind, modify;
    match goal with |- context [Input.vstore C ?d s0] =>
      destruct (Input.vstore C d s0) as [? [[]|?]]; [|discriminate]
    end;
    intros [= <-]; unfold Input.mark; now rewrite Hlens.
Qed.

Lemma new_scalar_leaf_not_explicit (E : external) (help dimension units : option string)
      (default : default_arg) (dtype : option pytype) (options : option (list pyval))
      (s : InputValue.t) :
  InputValue.__init__ E help dimension units default dtype options = Ok s ->
  explicit_value s = false.
Proof.
  unfold InputValue.__init__. destruct dtype as [ty|]; [|discriminate].
  destruct (Input.__init__ InputValue.cls help dimension units default
              (fun b => Ok (InputValue.mk b ty None None))) as [s0|e] eqn:Hs0;
    [|discriminate].
  apply init_leaves_flag_down in Hs0;
    [|reflexivity|intros b x [= <-]; reflexivity].
  cbn [rbind]. destruct options as [opts|].
  - destruct (_ && _); [discriminate|]. intros [= <-]. exact Hs0.
  - intros [= <-]. exact Hs0.
Qed.

Lemma new_array_leaf_not_explicit (E : external) (help dimension units : option string)
      (default : default_arg) (dtype : option pytype) (a : InputArray.t) :
  InputArray.__init__ E help dimension units default dtype = Ok a ->
  Input._explicit (InputArray.base a) = false.
Proof.
  unfold InputArray.__init__. destruct dtype as [ty|]; [|discriminate].
  intros H. apply init_leaves_flag_down in H; [exact H|reflexivity|].
  intros b x. destruct (InputArray.new_shape E); [|discriminate].
  intros [= <-]. reflexivity.
Qed.

Lemma dispatcher_children_base {SL : Slots} (E : external) (b : Input.t)
      (x : InputMotionBase.t) :
  InputMotionBase.children E b = Ok x -> InputMotionBase.base x = b.
Proof.
  unfold InputMotionBase.children.
  repeat match goal with
         | |- context [rbind ?r _] => destruct r; cbn [rbind]; [|discriminate]
         end.
  intros [= <-]. reflexivity.
Qed.

Lemma new_dispatcher_not_explicit {SL : Slots} (E : external)
      (help dimension units : option string) (default : default_arg)
      (s : InputMotionBase.t) :
  InputMotionBase.__init__ E help dimension units default = Ok s ->
  Input._explicit (InputMotionBase.base s) = false.
Proof.
  unfold InputMotionBase.__init__.
  intros H. apply init_leaves_flag_down in H; [exact H|reflexivity|].
  intros b x. apply dispatcher_children_base.
Qed.

Lemma new_motion_not_explicit {SL : Slots} (E : external)
      (help dimension units : option string) (default : default_arg)
      (s : InputMotion.t) :
  InputMotion.__init__ E help dimension units default = Ok s ->
  InputMotion.explicit s = false.
Proof.
  unfold InputMotion.__init__.
  intros H. apply init_leaves_flag_down in H; [exact H|reflexivity|].
  intros b x. destruct (InputMotionBase.children E b) as [y|e] eqn:Hy; [|discriminate].
  cbn [rbind]. intros [= <-]. cbn. now apply dispatcher_children_base in Hy.
Qed.

(** ** Leaves with a dimension *)

(** On a scalar leaf with a dimension, [fetch] after [store(v)] returns
    the converted value, not [v]. *)
Lemma dimension_scales_fetch (E : external) (s : InputValue.t) (v : pyval) :
  InputValue.type s v = Ok v ->
  Input._dimension (InputValue.base s) <> "undefined" ->
  InputValue._valid s = None ->
  snd (InputValue.fetch E (fst (InputValue.store v s))) =
    Ok (unit_to_internal E (Input._dimension (InputValue.base s))
                         (Input.units (InputValue.base s)) v).
Proof.
  intros Hty Hdim Hvalid. rewrite (value_store_ok _ _ Hty). cbn [fst].
  apply String.eqb_neq in Hdim.
  unfold InputValue.fetch, InputValue.check, Input.check, InputValue.read_value. run.
  rewrite Hvalid. cbn. rewrite Hdim. reflexivity.
Qed.

(** * Further properties of the code *)

(** ** [Input.parse]: attributes *)

Lemma parse_attribs_app (E : external) (name : string) (l1 l2 : list (string * string)) :
  forall c, Tree.parse_attribs E name (l1 ++ l2) c =
            match Tree.parse_attribs E name l1 c with
            | (c1, Ok _) => Tree.parse_attribs E name l2 c1
            | (c1, Raise e) => (c1, Raise e)
            end.
Proof.
  induction l1 as [|[a v] rest IH]; intros c; cbn [Tree.parse_attribs app].
  - reflexivity.
  - destruct (has_key a (Tree.attribs (Tree.cdecl c))).
    + destruct (assoc a (Tree.dict c)) as [child|]; [|reflexivity].
      destruct (Tree.parse_text E v child) as [child' [[]|e]]; [apply IH|reflexivity].
    + destruct (String.eqb a "_text"); [apply IH|reflexivity].
Qed.

(** X1.  When [parse] has gone through the attributes before an attribute
    [a] without error, and [a] is neither declared nor "_text", [parse]
    raises the error for an unrecognized attribute, naming [a] and the tag;
    no child of the tag is looked at. *)
Theorem unknown_attribute_is_rejected
        (E : external) (name : string) (pre post : list (string * string))
        (a v : string) (xf : list (string * xml_node)) (c c1 : Tree.composite) :
  Tree.parse_attribs E name pre (Tree.reset c) = (c1, Ok tt) ->
  has_key a (Tree.attribs (Tree.cdecl c)) = false ->
  a <> "_text" ->
  Tree.parse E (XNode name (pre ++ (a, v) :: post) xf) (Tree.NInput c) =
    (Tree.NInput c1, Raise (InputValue.unrecognized_attribute a name)).
Proof.
  intros Hpre Hattr Htext. apply String.eqb_neq in Htext.
  pose proof (@attribs_keep_decl E name pre _ _ _ Hpre) as Hdecl.
  assert (Hreset : Tree.cdecl (Tree.reset c) = Tree.cdecl c) by now destruct c.
  rewrite Hreset in Hdecl.
  apply parse_stops_at_error. unfold processed, bind.
  rewrite parse_attribs_app, Hpre. cbn [Tree.parse_attribs].
  now rewrite Hdecl, Hattr, Htext.
Qed.

Lemma unknown_attribute_is_rejected_witness :
  Tree.parse Sample.env
             (XNode "motion" ([("mode", "minimize")] ++ ("colour", "red") :: [])
                    [("fixcom", XText "True")])
             (Tree.NInput demo_node) =
    (Tree.NInput demo_node_with_mode,
     Raise (NameError
              "Attribute name 'colour' is not a recognized property of 'motion' objects")).
Proof.
  assert (Hneq : "colour" <> "_text") by discriminate.
  exact (@unknown_attribute_is_rejected Sample.env "motion" [("mode", "minimize")] []
           "colour" "red" [("fixcom", XText "True")] demo_node demo_node_with_mode
           eq_refl eq_refl Hneq).
Defined.

(** ** [Input.parse]: the [extra] list *)

Lemma attribs_keep_extra (E : external) (name : string) (l : list (string * string)) :
  forall c c' r, Tree.parse_attribs E name l c = (c', r) -> Tree.extra c' = Tree.extra c.
Proof.
  induction l as [|[a v] rest IH]; intros c c' r; cbn.
  - unfold ret. now intros [= <- _].
  - destruct (has_key a (Tree.attribs (Tree.cdecl c))).
    + destruct (assoc a (Tree.dict c)) as [child|]; [|now intros [= <- _]].
      destruct (Tree.parse_text E v child) as [child' [[]|e]].
      * intros H. apply IH in H. rewrite H. now destruct c.
      * intros [= <- _]. now destruct c.
    + destruct (String.eqb a "_text"); [apply IH|now intros [= <- _]].
Qed.

Lemma fields_extend_extra (E : external) (p : xml_node -> Tree.node -> Tree.node * res unit)
      (name : string) (l : list (string * xml_node)) :
  forall c c',
    Tree.parse_fields E p name l c = (c', Ok tt) ->
    map fst (Tree.extra c') = (map fst (Tree.extra c) ++ dynamic_tags (Tree.cdecl c) l)%list.
Proof.
  unfold dynamic_tags.
  induction l as [|[f v] rest IH]; intros c c'; cbn [Tree.parse_fields map filter fst].
  - unfold ret. intros [= <-]. now rewrite app_nil_r.
  - destruct (has_key f (Tree.fields (Tree.cdecl c))) eqn:Hf; cbn [negb andb].
    + destruct (assoc f (Tree.dict c)) as [child|]; [|discriminate].
      destruct (p v child) as [child' [[]|e]]; [|discriminate].
      intros H. apply IH in H. rewrite H. now destruct c.
    + destruct (String.eqb f "_text"); cbn [negb]; [apply IH|].
      destruct (has_key f (Tree.dynamic (Tree.cdecl c))); [|discriminate].
      unfold bind.
      destruct (Tree.extend E p f v c) as [c1 [[]|e]] eqn:Hext; [|discriminate].
      intros H. apply IH in H. rewrite H.
      pose proof (@extend_keeps_decl _ _ _ _ _ _ _ Hext) as Hd. rewrite Hd.
      unfold Tree.extend in Hext.
      destruct (assoc f (Tree.dynamic (Tree.cdecl c))) as [tmpl|]; [|discriminate].
      destruct (Tree.construct E tmpl) as [nf|e]; [|discriminate].
      destruct (p v nf) as [nf' [[]|e]]; [|discriminate].
      injection Hext as <-. destruct c. cbn.
      rewrite map_app. cbn. now rewrite <- app_assoc.
Qed.

(** X2.  After [parse] has gone through a tag without error, [extra]
    holds one entry per child that is neither a declared field nor
    "_text", under the child's tag and in document order; what [extra]
    held before the parse is gone. *)
Theorem extra_follows_document_order
        (E : external) (name : string) (xa : list (string * string))
        (xf : list (string * xml_node)) (c c' : Tree.composite) :
  processed E name xa xf c = (c', Ok tt) ->
  map fst (Tree.extra c') = dynamic_tags (Tree.cdecl c) xf.
Proof.
  unfold processed, bind, Tree.adapt, ret.
  destruct (Tree.parse_attribs E name xa (Tree.reset c)) as [c0 [[]|e]] eqn:Ha;
    [|discriminate].
  intros Hf. apply fields_extend_extra in Hf. rewrite Hf.
  rewrite (@attribs_keep_extra E name xa _ _ _ Ha).
  rewrite (@attribs_keep_decl E name xa _ _ _ Ha).
  destruct c; reflexivity.
Qed.

Lemma extra_follows_document_order_witness :
  let old := Tree.set_extra [("motion", inner_node); ("motion", inner_node)] demo_node in
  let xf := [("motion", XNode "a" [] []);
             ("fixcom", XNode "fixcom" [] [("_text", XText "True")]);
             ("_text", XText " "); ("motion", XNode "b" [] [])] in
  is_ok (snd (processed Sample.env "motion" [("mode", "minimize")] xf old)) = true /\
  map fst (Tree.extra (fst (processed Sample.env "motion" [("mode", "minimize")] xf old)))
    = ["motion"; "motion"].
Proof.
  intros old xf. split; [reflexivity|].
  exact (@extra_follows_document_order Sample.env "motion" [("mode", "minimize")] xf old
           (fst (processed Sample.env "motion" [("mode", "minimize")] xf old)) eq_refl).
Defined.

(** ** [Input.__init__] and [Input.parse]: the children of a node *)

Lemma has_key_assoc_set {A} (k k' : string) (v : A) (m : list (string * A)) :
  has_key k (assoc_set k' v m) = (String.eqb k k' || has_key k m)%bool.
Proof.
  unfold has_key. induction m as [|[k0 v0] m IH]; cbn.
  - destruct (String.eqb k k'); reflexivity.
  - destruct (String.eqb_spec k' k0) as [->|Hne]; cbn.
    + destruct (String.eqb k k0); reflexivity.
    + destruct (String.eqb_spec k k0) as [->|Hk].
      * now rewrite orb_true_r.
      * exact IH.
Qed.

Lemma build_keys (new : Tree.schema -> res Tree.node) (l : list (string * Tree.schema)) :
  forall m m',
    Tree.build new l m = Ok m' ->
    (forall k, has_key k m = true -> has_key k m' = true) /\
    (forall k, In k (map fst l) -> has_key k m' = true).
Proof.
  induction l as [|[f v] rest IH]; intros m m'; cbn [Tree.build].
  - intros [= <-]. split; [auto|intros k []].
  - destruct (new v) as [n|e]; [|discriminate]. cbn [rbind].
    intros H. apply IH in H as [Hold Hnew]. split.
    + intros k Hk. apply Hold. rewrite has_key_assoc_set, Hk. apply orb_true_r.
    + intros k [<-|Hin]; [|now apply Hnew].
      apply Hold. rewrite has_key_assoc_set. cbn. now rewrite String.eqb_refl.
Qed.

(** X3.  A composite node, once constructed, has an object in its
    dictionary for every attribute and every field its class declares,
    carries the class's dictionaries, and has an empty [extra]. *)
Theorem constructed_node_has_its_children
        (E : external) (cname : string) (ats fs dyn : list (string * Tree.schema))
        (h d u : option string) (def : default_arg) (n : Tree.node) :
  Tree.construct E (Tree.SInput cname ats fs dyn h d u def) = Ok n ->
  exists c, n = Tree.NInput c /\
            Tree.cdecl c = Tree.mkDecl cname ats fs dyn /\
            children_present c = true /\
            Tree.extra c = [].
Proof.
  cbn [Tree.construct]. unfold Input.__init__.
  destruct (Input.take_default def) as [[dv opt]|e]; [|discriminate].
  destruct (Tree.build (Tree.construct E) fs []) as [m1|e] eqn:H1; [|discriminate].
  cbn [rbind].
  destruct (Tree.build (Tree.construct E) ats m1) as [m2|e] eqn:H2; [|discriminate].
  cbn [rbind].
  apply build_keys in H1 as [_ Hfs]. apply build_keys in H2 as [Hkeep Hats].
  assert (Hpresent : forallb (fun k => has_key k m2) (map fst ats ++ map fst fs) = true).
  { apply forallb_forall. intros k Hin. apply in_app_or in Hin as [Hin|Hin]; auto. }
  unfold Input.apply_default. cbn [Tree.cls Input.base Tree.base Input._default Input.vstore].
  destruct dv; cbn; intros [= <-]; eexists; (split; [reflexivity|]);
    repeat split; exact Hpresent.
Qed.

Lemma constructed_node_has_its_children_witness :
  exists c, Tree.NInput demo_node = Tree.NInput c /\
            Tree.cdecl c = Tree.cdecl demo_node /\
            children_present c = true /\
            Tree.extra c = [].
Proof.
  exact (@constructed_node_has_its_children Sample.env _ _ _ _ _ _ _ _
           (Tree.NInput demo_node) demo_node_constructed).
Defined.

Lemma attribs_keep_keys (E : external) (name : string) (l : list (string * string)) :
  forall c c' r k,
    Tree.parse_attribs E name l c = (c', r) ->
    has_key k (Tree.dict c) = true -> has_key k (Tree.dict c') = true.
Proof.
  induction l as [|[a v] rest IH]; intros c c' r k; cbn.
  - unfold ret. now intros [= <- _].
  - destruct (has_key a (Tree.attribs (Tree.cdecl c))).
    + destruct (assoc a (Tree.dict c)) as [child|]; [|now intros [= <- _]].
      destruct (Tree.parse_text E v child) as [child' [[]|e]].
      * intros H Hk. eapply IH; [exact H|]. destruct c. cbn in *.
        rewrite has_key_assoc_set, Hk. apply orb_true_r.
      * intros [= <- _] Hk. destruct c. cbn in *.
        rewrite has_key_assoc_set, Hk. apply orb_true_r.
    + destruct (String.eqb a "_text"); [apply IH|now intros [= <- _]].
Qed.

Lemma extend_keeps_dict (E : external) (p : xml_node -> Tree.node -> Tree.node * res unit)
      (f : string) (v : xml_node) (c c' : Tree.composite) (r : res unit) :
  Tree.extend E p f v c = (c', r) ->
  Tree.dict c' = Tree.dict c /\ Tree.base c' = Tree.base c.
Proof.
  unfold Tree.extend.
  destruct (assoc f (Tree.dynamic (Tree.cdecl c))) as [tmpl|]; [|now intros [= <- _]].
  destruct (Tree.construct E tmpl) as [nf|e]; [|now intros [= <- _]].
  destruct (p v nf) as [nf' [[]|e]]; intros [= <- _]; now destruct c.
Qed.

Lemma fields_keep_keys (E : external) (p : xml_node -> Tree.node -> Tree.node * res unit)
      (name : string) (l : list (string * xml_node)) :
  forall c c' r k,
    Tree.parse_fields E p name l c = (c', r) ->
    has_key k (Tree.dict c) = true -> has_key k (Tree.dict c') = true.
Proof.
  induction l as [|[f v] rest IH]; intros c c' r k; cbn.
  - unfold ret. now intros [= <- _].
  - destruct (has_key f (Tree.fields (Tree.cdecl c))).
    + destruct (assoc f (Tree.dict c)) as [child|]; [|now intros [= <- _]].
      destruct (p v child) as [child' [[]|e]].
      * intros H Hk. eapply IH; [exact H|]. destruct c. cbn in *.
        rewrite has_key_assoc_set, Hk. apply orb_true_r.
      * intros [= <- _] Hk. destruct c. cbn in *.
        rewrite has_key_assoc_set, Hk. apply orb_true_r.
    + destruct (String.eqb f "_text"); [apply IH|].
      destruct (has_key f (Tree.dynamic (Tree.cdecl c))); [|now intros [= <- _]].
      unfold bind.
      destruct (Tree.extend E p f v c) as [c1 [[]|e]] eqn:Hext.
      * intros H Hk. eapply IH; [exact H|].
        apply extend_keeps_dict in Hext as [-> _]. exact Hk.
      * intros [= <- _] Hk. apply extend_keeps_dict in Hext as [-> _]. exact Hk.
Qed.

Lemma processed_keeps_keys (E : external) (name : string) (xa : list (string * string))
      (xf : list (string * xml_node)) (c c' : Tree.composite) (r : res unit) (k : string) :
  processed E name xa xf c = (c', r) ->
  has_key k (Tree.dict c) = true -> has_key k (Tree.dict c') = true.
Proof.
  unfold processed, bind, Tree.adapt, ret.
  destruct (Tree.parse_attribs E name xa (Tree.reset c)) as [c0 [[]|e]] eqn:Ha.
  - intros Hf Hk. eapply fields_keep_keys; [exact Hf|].
    eapply attribs_keep_keys; [exact Ha|]. now destruct c.
  - intros [= <- _] Hk. eapply attribs_keep_keys; [exact Ha|]. now destruct c.
Qed.

Lemma check_mandatory_state (name : string) (c : Tree.composite) :
  fst (Tree.check_mandatory name c) = c.
Proof.
  unfold Tree.check_mandatory.
  destruct (Tree.first_missing _ (Tree.dict c)) as [[a|]|e]; try reflexivity.
  destruct (Tree.first_missing _ (Tree.dict c)) as [[a|]|e]; reflexivity.
Qed.

(** X4.  Parsing, whether it succeeds or fails, never removes the object
    of a declared attribute or field from the dictionary of the node. *)
Theorem parse_keeps_the_children
        (E : external) (name : string) (xa : list (string * string))
        (xf : list (string * xml_node)) (c c' : Tree.composite) (r : res unit) :
  children_present c = true ->
  Tree.parse E (XNode name xa xf) (Tree.NInput c) = (Tree.NInput c', r) ->
  children_present c' = true.
Proof.
  unfold children_present, attrib_names, field_names. intros Hpres Hparse.
  destruct (processed E name xa xf c) as [c1 r1] eqn:Hp.
  assert (Hc1 : Tree.cdecl c1 = Tree.cdecl c)
    by exact (@processed_keeps_decl _ _ _ _ _ _ _ Hp).
  assert (Hc' : c' = c1).
  { destruct r1 as [[]|e].
    - rewrite (@parse_after_processing _ _ _ _ _ _ Hp) in Hparse.
      pose proof (check_mandatory_state name c1) as Hst.
      destruct (Tree.check_mandatory name c1) as [c2 r2]. cbn in Hst. subst c2.
      now injection Hparse as <-.
    - rewrite (@parse_stops_at_error _ _ _ _ _ _ _ Hp) in Hparse.
      now injection Hparse as <-. }
  subst c'. rewrite Hc1.
  apply forallb_forall. intros k Hin.
  eapply processed_keeps_keys; [exact Hp|].
  revert k Hin. now apply forallb_forall.
Qed.

Lemma parse_keeps_the_children_witness :
  children_present demo_node = true /\
  children_present (Tree.reset demo_node) = true.
Proof.
  split; [reflexivity|].
  apply (@parse_keeps_the_children Sample.env "motion" [] [] demo_node
           (Tree.reset demo_node) (Raise (Tree.mandatory_attribute "mode" "motion"))).
  - reflexivity.
  - vm_compute. reflexivity.
Defined.

(** ** [Input.parse]: what an accepted tag guarantees *)

Lemma first_missing_clean (m : list (string * Tree.node)) (keys : list string) :
  Tree.first_missing keys m = Ok None ->
  forall k, In k keys -> exists n, assoc k m = Some n /\ Tree.missing n = false.
Proof.
  induction keys as [|k0 keys IH]; cbn; [intros _ k []|].
  destruct (assoc k0 m) as [n|] eqn:Hk; [|discriminate].
  destruct (Tree.missing n) eqn:Hm; [discriminate|].
  intros H k [<-|Hin]; [now exists n|now apply IH].
Qed.

(** X5.  When [Input.parse] accepts a tag, no declared attribute or field
    of the node is left unset: each one has its object in the dictionary
    and that object is explicit or optional. *)
Theorem accepted_tag_has_nothing_missing
        (E : external) (name : string) (xa : list (string * string))
        (xf : list (string * xml_node)) (c : Tree.composite) (n' : Tree.node) :
  Tree.parse E (XNode name xa xf) (Tree.NInput c) = (n', Ok tt) ->
  exists c', n' = Tree.NInput c' /\
             Tree.cdecl c' = Tree.cdecl c /\
             forall k, In k (attrib_names c ++ field_names c) ->
                       exists n, assoc k (Tree.dict c') = Some n /\
                                 (Tree.is_explicit n || Tree.is_optional n) = true.
Proof.
  intros Hparse.
  destruct (processed E name xa xf c) as [c1 r1] eqn:Hp.
  destruct r1 as [[]|e].
  2:{ rewrite (@parse_stops_at_error _ _ _ _ _ _ _ Hp) in Hparse. discriminate. }
  rewrite (@parse_after_processing _ _ _ _ _ _ Hp) in Hparse.
  assert (Hc1 : Tree.cdecl c1 = Tree.cdecl c)
    by exact (@processed_keeps_decl _ _ _ _ _ _ _ Hp).
  unfold Tree.check_mandatory in Hparse.
  destruct (Tree.first_missing (map fst (Tree.attribs (Tree.cdecl c1))) (Tree.dict c1))
    as [[a|]|e] eqn:Ha; try discriminate.
  destruct (Tree.first_missing (map fst (Tree.fields (Tree.cdecl c1))) (Tree.dict c1))
    as [[f|]|e] eqn:Hf; try discriminate.
  injection Hparse as <-. exists c1. repeat split; [exact Hc1|].
  unfold attrib_names, field_names. rewrite <- Hc1. intros k Hin.
  assert (Hn : exists n, assoc k (Tree.dict c1) = Some n /\ Tree.missing n = false).
  { apply in_app_or in Hin as [Hin|Hin];
      [exact (first_missing_clean _ _ Ha k Hin)|exact (first_missing_clean _ _ Hf k Hin)]. }
  destruct Hn as [n [Hk Hm]]. exists n. split; [exact Hk|].
  unfold Tree.missing in Hm. now apply negb_false_iff in Hm.
Qed.

Lemma accepted_tag_has_nothing_missing_witness :
  let x := XNode "motion" [("mode", "minimize")] [] in
  exists c', fst (Tree.parse Sample.env x (Tree.NInput demo_node)) = Tree.NInput c' /\
             Tree.cdecl c' = Tree.cdecl demo_node /\
             forall k, In k ["mode"; "fixcom"] ->
                       exists n, assoc k (Tree.dict c') = Some n /\
                                 (Tree.is_explicit n || Tree.is_optional n) = true.
Proof.
  intros x.
  apply (@accepted_tag_has_nothing_missing Sample.env "motion" [("mode", "minimize")] []
           demo_node (fst (Tree.parse Sample.env x (Tree.NInput demo_node)))).
  vm_compute. reflexivity.
Defined.

(** ** [parse] marks the node it is called on *)

Lemma value_parse_explicit (E : external) (x : option xml_node) (text : string)
      (s : InputValue.t) :
  Input._explicit (InputValue.base (fst (InputValue.parse E x text s))) = true.
Proof.
  unfold InputValue.parse. run.
  destruct x as [[t|name xa xf]|]; cbn.
  - reflexivity.
  - destruct (assoc "units" xa) as [u|];
      (destruct (InputValue.parse_attribs _ _ xa); cbn; [|reflexivity];
       destruct xf as [|[tag body] xf]; cbn; [reflexivity|];
       destruct (read_type E _ body); reflexivity).
  - destruct (read_type E _ _); reflexivity.
Qed.

Lemma array_parse_explicit (E : external) (x : option xml_node) (text : string)
      (s : InputArray.t) :
  Input._explicit (InputArray.base (fst (InputArray.parse E x text s))) = true.
Proof.
  unfold InputArray.parse, InputArray.read_into_value, InputArray.shape_attr,
    InputArray.read_value. run.
  destruct x as [[t|name xa [|[tag body] xf]]|]; cbn; try reflexivity.
  - destruct (negb (String.eqb tag "_text")); cbn; [reflexivity|].
    destruct (read_array E _ body); cbn; [|reflexivity].
    destruct (assoc "units" xa) as [u|];
      (destruct (assoc "shape" xa) as [txt|]; cbn;
       [destruct (read_type E py_tuple (XText txt)); cbn; [|reflexivity]|];
       destruct (InputValue.store _ _) as [sh' [[]|e]]; reflexivity).
  - destruct (read_array E _ _); reflexivity.
Qed.

Lemma attribs_keep_base (E : external) (name : string) (l : list (string * string)) :
  forall c, Tree.base (fst (Tree.parse_attribs E name l c)) = Tree.base c.
Proof.
  induction l as [|[a v] rest IH]; intros c; cbn; [reflexivity|].
  destruct (has_key a (Tree.attribs (Tree.cdecl c))).
  - destruct (assoc a (Tree.dict c)) as [child|]; [|reflexivity].
    destruct (Tree.parse_text E v child) as [child' [[]|e]].
    + rewrite IH. now destruct c.
    + now destruct c.
  - destruct (String.eqb a "_text"); [apply IH|reflexivity].
Qed.

Lemma fields_keep_base (E : external) (p : xml_node -> Tree.node -> Tree.node * res unit)
      (name : string) (l : list (string * xml_node)) :
  forall c, Tree.base (fst (Tree.parse_fields E p name l c)) = Tree.base c.
Proof.
  induction l as [|[f v] rest IH]; intros c; cbn; [reflexivity|].
  destruct (has_key f (Tree.fields (Tree.cdecl c))).
  - destruct (assoc f (Tree.dict c)) as [child|]; [|reflexivity].
    destruct (p v child) as [child' [[]|e]].
    + rewrite IH. now destruct c.
    + now destruct c.
  - destruct (String.eqb f "_text"); [apply IH|].
    destruct (has_key f (Tree.dynamic (Tree.cdecl c))); [|reflexivity].
    unfold bind.
    destruct (Tree.extend E p f v c) as [c1 [[]|e]] eqn:Hext;
      apply extend_keeps_dict in Hext as [_ Hb]; [now rewrite IH|exact Hb].
Qed.

(** X6.  [parse] marks the node it is called on as explicit, whatever the
    class of the node and whether or not the parse succeeds. *)
Theorem parse_marks_the_node_explicit (E : external) (x : xml_node) (n : Tree.node) :
  Tree.is_explicit (fst (Tree.parse E x n)) = true.
Proof.
  unfold Tree.is_explicit.
  destruct n as [v|a|c].
  - destruct x; cbn [Tree.parse];
      match goal with
      | |- context [InputValue.parse E ?o ?t v] =>
          pose proof (value_parse_explicit E o t v) as H;
          destruct (InputValue.parse E o t v); exact H
      end.
  - destruct x; cbn [Tree.parse];
      match goal with
      | |- context [InputArray.parse E ?o ?t a] =>
          pose proof (array_parse_explicit E o t a) as H;
          destruct (InputArray.parse E o t a); exact H
      end.
  - destruct x as [t|name xa xf].
    + now destruct c.
    + rewrite parse_composite. unfold bind, Tree.adapt, ret.
      pose proof (attribs_keep_base E name xa (Tree.reset c)) as Ha.
      destruct (Tree.parse_attribs E name xa (Tree.reset c)) as [c1 [[]|e]]; cbn in Ha.
      * pose proof (fields_keep_base E (Tree.parse E) name xf c1) as Hf.
        destruct (Tree.parse_fields E (Tree.parse E) name xf c1) as [c2 [[]|e]]; cbn in Hf.
        -- pose proof (check_mandatory_state name c2) as Hm.
           destruct (Tree.check_mandatory name c2) as [c3 r3]. cbn in Hm. subst c3.
           cbn. rewrite Hf, Ha. now destruct c.
        -- cbn. rewrite Hf, Ha. now destruct c.
      * cbn. rewrite Ha. now destruct c.
Qed.

(** ** [InputValue.parse] on a tag *)

Lemma value_attribs_ok (name : string) (keys : list string) (xa : list (string * string)) :
  is_ok (InputValue.parse_attribs name keys xa) =
    forallb (fun kv => String.eqb (fst kv) "units") xa.
Proof.
  induction xa as [|[a v] rest IH]; cbn; [reflexivity|].
  destruct (String.eqb a "units"); cbn; [exact IH|].
  destruct (negb (existsb (String.eqb a) keys)); reflexivity.
Qed.

Lemma value_parse_tag (E : external) (name : string) (xa : list (string * string))
      (xf : list (string * xml_node)) (text : string) (s : InputValue.t) :
  let s1 := InputValue.with_base (Input.set_explicit true (InputValue.base s)) s in
  let s2 := match assoc "units" xa with
            | Some u => InputValue.set_units u s1
            | None => s1
            end in
  InputValue.parse E (Some (XNode name xa xf)) text s =
    match InputValue.parse_attribs name (InputValue.dict_keys s2) xa with
    | Raise e => (s2, Raise e)
    | Ok _ =>
        match xf with
        | [] => (s2, Raise (IndexError "list index out of range"))
        | (_, body) :: _ =>
            match read_type E (InputValue.type s) body with
            | Ok v => (InputValue.set_value v s2, Ok tt)
            | Raise e => (s2, Raise e)
            end
        end
    end.
Proof.
  unfold InputValue.parse. run.
  destruct (assoc "units" xa) as [u|];
    (destruct (InputValue.parse_attribs _ _ xa); cbn; [|reflexivity];
     destruct xf as [|[tag body] xf]; cbn; reflexivity).
Qed.

(** X7.  [InputValue.parse] accepts a tag exactly when every attribute of
    the tag is [units], the tag has at least one child, and the first
    child (whatever its name) can be read as a value of the node's type. *)
Theorem scalar_tag_acceptance
        (E : external) (name : string) (xa : list (string * string))
        (xf : list (string * xml_node)) (text : string) (s : InputValue.t) :
  is_ok (snd (InputValue.parse E (Some (XNode name xa xf)) text s)) = true <->
  forallb (fun kv => String.eqb (fst kv) "units") xa = true /\
  exists tag body rest,
    xf = (tag, body) :: rest /\ is_ok (read_type E (InputValue.type s) body) = true.
Proof.
  rewrite value_parse_tag. cbv zeta.
  match goal with
  | |- context [InputValue.parse_attribs name ?k xa] =>
      pose proof (value_attribs_ok name k xa) as Hat;
      destruct (InputValue.parse_attribs name k xa) as [[]|e]
  end; cbn in Hat; rewrite <- Hat.
  - destruct xf as [|[tag body] rest]; cbn.
    + split; [discriminate|]. intros [_ (tag & body & rest & Hxf & _)]. discriminate.
    + destruct (read_type E (InputValue.type s) body) as [v|e] eqn:Hr; cbn.
      * split; [|reflexivity]. intros _. split; [reflexivity|].
        exists tag, body, rest. rewrite Hr. now split.
      * split; [discriminate|].
        intros [_ (tag' & body' & rest' & [= _ <- _] & Hok)].
        rewrite Hr in Hok. discriminate.
  - cbn. split; [discriminate|]. intros [H _]. discriminate.
Qed.

(** X8.  [InputValue.parse] does not look at the list of valid options:
    a tag whose text reads as a value outside that list is accepted, and
    it is the [fetch] that follows which raises the error naming the
    value and the options. *)
Theorem parsed_value_outside_options
        (E : external) (name : string) (xa : list (string * string))
        (xf : list (string * xml_node)) (tag : string) (body : xml_node)
        (s : InputValue.t) (v : pyval) (opts : list pyval) :
  forallb (fun kv => String.eqb (fst kv) "units") xa = true ->
  read_type E (InputValue.type s) body = Ok v ->
  InputValue._valid s = Some opts ->
  py_in v opts = false ->
  exists s',
    InputValue.parse E (Some (XNode name xa ((tag, body) :: xf))) "" s = (s', Ok tt) /\
    InputValue.value s' = Some v /\
    InputValue.fetch E s' =
      (s', Raise (ValueError (py_str E v ++ " is not a valid option ("
                              ++ py_str E (PList opts) ++ ")"))).
Proof.
  intros Hat Hr Ho Hin. rewrite value_parse_tag. cbv zeta.
  match goal with
  | |- context [InputValue.parse_attribs name ?k xa] =>
      pose proof (value_attribs_ok name k xa) as Hok;
      destruct (InputValue.parse_attribs name k xa) as [[]|e]
  end; cbn in Hok; rewrite Hat in Hok; [|discriminate].
  rewrite Hr. eexists. split; [reflexivity|]. split.
  - reflexivity.
  - apply value_fetch_invalid with (v := v) (opts := opts); try assumption.
    + destruct (assoc "units" xa); reflexivity.
    + reflexivity.
    + destruct (assoc "units" xa); exact Ho.
Qed.

Lemma parsed_value_outside_options_witness :
  exists s',
    InputValue.parse Sample.env
      (Some (XNode "mode" [] [("_text", XText "minimize")])) "" ab_leaf = (s', Ok tt) /\
    InputValue.value s' = Some (PStr "minimize") /\
    InputValue.fetch Sample.env s' =
      (s', Raise (ValueError "minimize is not a valid option (<object>)")).
Proof.
  apply (@parsed_value_outside_options Sample.env "mode" [] [] "_text"
           (XText "minimize") ab_leaf (PStr "minimize") [PStr "a"; PStr "b"]);
    reflexivity.
Defined.

(** ** Nodes without a default *)

Lemma init_without_default {S : Type} (C : Input.class S)
      (help dimension units : option string) (children : Input.t -> res S) (s : S) :
  (forall b x, children b = Ok x -> Input.base C x = b) ->
  Input.__init__ C help dimension units (DValue PNone) children = Ok s ->
  Input.explicit C s = false /\ Input.optional C s = false /\
  exists b, children b = Ok s.
Proof.
  intros Hch. unfold Input.__init__. cbn [Input.take_default].
  match goal with |- context [children ?b] =>
    destruct (children b) as [s0|e] eqn:Hs0; [|discriminate]
  end.
  cbn [rbind]. pose proof (Hch _ _ Hs0) as Hb.
  unfold Input.apply_default, Input.explicit, Input.optional. rewrite Hb.
  cbn [Input._default Input.default_value]. intros [= <-]. rewrite Hb.
  repeat split. eexists. exact Hs0.
Qed.

Lemma check_raises {S : Type} (C : Input.class S) (s : S) :
  Input.explicit C s = false -> Input.optional C s = false ->
  Input.check C s =
    (s, Raise (ValueError ("Uninitialized Input value of type " ++ Input.__name__ C))).
Proof. intros Hx Ho. unfold Input.check. now rewrite Hx, Ho. Qed.

(** X9.  A node of any of the three classes that was constructed without
    a default cannot be fetched: [fetch] raises the error for an
    uninitialized value, naming the class of the node, and leaves the
    node as it was. *)
Theorem node_without_default_cannot_be_fetched
        (E : external) (s : Tree.schema) (n : Tree.node) :
  Tree.construct E s = Ok n ->
  schema_default s = DValue PNone ->
  Tree.fetch E n =
    (n, Raise (ValueError ("Uninitialized Input value of type " ++ class_name n))).
Proof.
  destruct s as [h d u def ty opts|h d u def ty|cname ats fs dyn h d u def];
    cbn [Tree.construct schema_default]; intros Hn ->.
  - unfold InputValue.__init__ in Hn. destruct ty as [ty|]; [|discriminate].
    destruct (Input.__init__ InputValue.cls h d u (DValue PNone)
                (fun b => Ok (InputValue.mk b ty None None))) as [s0|e] eqn:Hs0;
      [|discriminate].
    apply init_without_default in Hs0 as (Hx & Ho & _);
      [|intros b x [= <-]; reflexivity].
    cbn [rbind] in Hn.
    assert (Hv : exists o, n = Tree.NValue (InputValue.set_valid o s0)).
    { destruct opts as [o|]; cbn in Hn; injection Hn as <-; eexists; reflexivity. }
    destruct Hv as [o ->]. cbn [Tree.fetch class_name].
    unfold InputValue.fetch, InputValue.check, bind.
    rewrite (@check_raises _ InputValue.cls (InputValue.set_valid o s0) Hx Ho).
    reflexivity.
  - unfold InputArray.__init__ in Hn. destruct ty as [ty|]; [|discriminate].
    match type of Hn with
    | rbind ?i _ = _ => destruct i as [a|e] eqn:Ha; [|discriminate]
    end.
    apply init_without_default in Ha as (Hx & Ho & _).
    2:{ intros b x. destruct (InputArray.new_shape E); [|discriminate].
        intros [= <-]. reflexivity. }
    injection Hn as <-. cbn [Tree.fetch class_name].
    unfold InputArray.fetch, bind.
    rewrite (@check_raises _ (InputArray.cls E) a Hx Ho). reflexivity.
  - match type of Hn with
    | rbind ?i _ = _ => destruct i as [c|e] eqn:Hc; [|discriminate]
    end.
    apply init_without_default in Hc as (Hx & Ho & b & Hb).
    2:{ intros b x.
        destruct (rbind (Tree.build (Tree.construct E) fs [])
                        (Tree.build (Tree.construct E) ats)); [|discriminate].
        intros [= <-]. reflexivity. }
    injection Hn as <-.
    assert (Hd : Tree.cdecl c = Tree.mkDecl cname ats fs dyn).
    { destruct (rbind (Tree.build (Tree.construct E) fs [])
                      (Tree.build (Tree.construct E) ats)); [|discriminate].
      now injection Hb as <-. }
    cbn [Tree.fetch class_name]. unfold bind. rewrite Hd in *.
    rewrite (@check_raises _ (Tree.cls (Tree.mkDecl cname ats fs dyn)) c Hx Ho).
    reflexivity.
Qed.

Lemma node_without_default_cannot_be_fetched_witness :
  Tree.fetch Sample.env (Tree.NInput demo_node) =
    (Tree.NInput demo_node,
     Raise (ValueError "Uninitialized Input value of type InputDemo")).
Proof.
  exact (@node_without_default_cannot_be_fetched Sample.env demo_schema
           (Tree.NInput demo_node) demo_node_constructed eq_refl).
Defined.

(** ** Nodes with a default *)

(** X10.  A scalar leaf constructed with a literal default [d] and no
    dimension holds [dtype(d)] and is optional but not explicit.  Its
    [fetch] returns that converted value, unless the leaf has a list of
    options that does not contain it: the constructor tested the raw
    default against the options, [fetch] tests the converted one. *)
Theorem constructed_default_is_fetched
        (E : external) (help units : option string) (d : pyval) (ty : pytype)
        (opts : option (list pyval)) (s : InputValue.t) :
  d <> PNone ->
  InputValue.__init__ E help None units (DValue d) (Some ty) opts = Ok s ->
  exists v,
    ty d = Ok v /\
    InputValue.value s = Some v /\
    Input._optional (InputValue.base s) = true /\
    explicit_value s = false /\
    match opts with Some o => py_in d o = true | None => True end /\
    InputValue.fetch E s =
      (s, match opts with
          | Some o =>
              if py_in v o then Ok v
              else Raise (ValueError (py_str E v ++ " is not a valid option ("
                                      ++ py_str E (PList o) ++ ")"))
          | None => Ok v
          end).
Proof.
  intros Hd. unfold InputValue.__init__, Input.__init__.
  rewrite (take_default_literal Hd). cbn [rbind Input.or_default].
  rewrite apply_default_literal by exact Hd.
  cbn [Input.base Input.vstore InputValue.cls InputValue.base Input._default].
  unfold bind. unfold InputValue.store at 1. unfold bind, modify.
  cbn [InputValue.type InputValue.with_base].
  destruct (ty d) as [v|e] eqn:Hty; [|discriminate].
  cbn [Input.mark Input.base Input.with_base InputValue.cls].
  destruct opts as [o|].
  - assert (Hn : InputValue.is_none (DValue d) = false)
      by (destruct d; try reflexivity; now destruct Hd).
    cbn [rbind Input._default InputValue.base InputValue.set_value
         InputValue.set_valid InputValue.with_base Input.set_explicit].
    rewrite Hn. cbn [negb andb].
    destruct (py_in d o) eqn:Hraw; cbn [negb]; [|discriminate].
    intros [= <-]. exists v. repeat split.
    destruct (py_in v o) eqn:Hin.
    + apply value_fetch_plain; cbn; try reflexivity. exact Hin.
    + apply value_fetch_invalid with (v := v) (opts := o); try reflexivity.
      exact Hin.
  - intros [= <-]. exists v. repeat split.
Qed.

Lemma constructed_default_is_fetched_witness :
  exists s,
    InputValue.__init__ Sample.env None None None (DValue (PBool true))
                        (Some (str_type Sample.env)) (Some [PBool true]) = Ok s /\
    exists v,
      str_type Sample.env (PBool true) = Ok v /\
      InputValue.value s = Some v /\
      Input._optional (InputValue.base s) = true /\
      explicit_value s = false /\
      py_in (PBool true) [PBool true] = true /\
      InputValue.fetch Sample.env s =
        (s, if py_in v [PBool true] then Ok v
            else Raise (ValueError (py_str Sample.env v ++ " is not a valid option ("
                                    ++ py_str Sample.env (PList [PBool true]) ++ ")"))).
Proof.
  eexists. split; [reflexivity|].
  apply (@constructed_default_is_fetched Sample.env None None (PBool true)
           (str_type Sample.env) (Some [PBool true])).
  - discriminate.
  - reflexivity.
Defined.

(** ** [InputArray.parse] on a tag without a shape *)

(** X11.  An array tag without a [shape] attribute, whose attributes are
    at most [units] and whose first child is the text, is parsed into the
    flat data with the one-dimensional shape [(len(data),)]; the [fetch]
    that follows returns the data as a one-dimensional array, also when
    no element was read. *)
Theorem shapeless_array_is_one_dimensional
        (E : external) (a : InputArray.t) (name : string) (attribs : list (string * string))
        (body : xml_node) (rest : list (string * xml_node)) (d : list pyval) :
  shape_as_declared a ->
  Input._dimension (InputArray.base a) = "undefined" ->
  forallb shape_or_units attribs = true ->
  assoc "shape" attribs = None ->
  read_array E (InputArray.type a) body = Ok d ->
  let xml := XNode name attribs (("_text", body) :: rest) in
  let n := Z.of_nat (length d) in
  let a' := parsed_array (assoc "units" attribs) [PInt n] d a in
  InputArray.parse E (Some xml) "" a = (a', Ok tt) /\
  snd (InputArray.fetch E a') = Ok (PArray [n] d).
Proof.
  intros (Hty & Hv & Hd) Hdim Hattr Hshape Hdata xml n a'. split.
  - unfold InputArray.parse, xml, InputArray.read_into_value, InputArray.shape_attr,
      InputArray.read_value.
    run. rewrite Hdata, Hshape. cbn.
    unfold InputValue.store. run.
    destruct (assoc "units" attribs) as [u|]; cbn; rewrite Hty; cbn;
      rewrite array_attribs_ok by assumption; reflexivity.
  - unfold a', parsed_array. rewrite array_fetch_parsed; try assumption.
    + destruct (py_eq (PTuple [PInt n]) InputArray.zero_shape) eqn:Hz.
      * apply (zero_shape_test [n]) in Hz. injection Hz as Hn.
        unfold n in *. destruct d; [reflexivity|cbn in Hn; lia].
      * apply (reshape_wf (sh := [n])). split.
        -- constructor; [unfold n; lia|constructor].
        -- cbn. lia.
    + destruct (assoc "units" attribs); reflexivity.
    + destruct (assoc "units" attribs); cbn; assumption.
Qed.

Lemma shapeless_array_is_one_dimensional_witness :
  let xml := XNode "fixatoms" [("units", "angstrom")] [("_text", XText "[ 3, 7 ]")] in
  let a' := parsed_array (Some "angstrom") [PInt 2] [PInt 3; PInt 7] int_array_leaf in
  InputArray.parse Sample.env (Some xml) "" int_array_leaf = (a', Ok tt) /\
  snd (InputArray.fetch Sample.env a') = Ok (PArray [2] [PInt 3; PInt 7]).
Proof.
  intros xml a'.
  apply (@shapeless_array_is_one_dimensional Sample.env int_array_leaf "fixatoms"
           [("units", "angstrom")] (XText "[ 3, 7 ]") [] [PInt 3; PInt 7]);
    try reflexivity.
  repeat split.
Defined.

Lemma array_attribs_bad (name : string) (keys : list string)
      (attribs : list (string * string)) :
  existsb (fun kv => negb (shape_or_units kv)) attribs = true ->
  is_ok (InputArray.parse_attribs name keys attribs) = false.
Proof.
  induction attribs as [|[a v] rest IH]; cbn; [discriminate|].
  unfold shape_or_units at 1. cbn [fst].
  destruct (String.eqb a "shape" || String.eqb a "units"); cbn.
  - exact IH.
  - intros _. destruct (negb (existsb (String.eqb a) keys)); reflexivity.
Qed.

(** X12.  [InputArray.parse] looks at the names of the attributes last.
    A tag with an attribute other than [shape] and [units] is rejected,
    but by then the node already holds the data read from the tag and
    the shape derived from it: the failed parse has replaced the value. *)
Theorem rejected_array_tag_replaces_the_value
        (E : external) (a : InputArray.t) (name : string) (attribs : list (string * string))
        (body : xml_node) (rest : list (string * xml_node)) (d : list pyval) :
  InputValue.type (InputArray.shape a) = py_tuple ->
  existsb (fun kv => negb (shape_or_units kv)) attribs = true ->
  assoc "shape" attribs = None ->
  read_array E (InputArray.type a) body = Ok d ->
  let r := InputArray.parse E (Some (XNode name attribs (("_text", body) :: rest))) "" a in
  is_ok (snd r) = false /\
  InputArray.value (fst r) = Some d /\
  InputValue.value (InputArray.shape (fst r)) = Some (PTuple [PInt (Z.of_nat (length d))]).
Proof.
  intros Hty Hbad Hshape Hdata r. subst r.
  unfold InputArray.parse, InputArray.read_into_value, InputArray.shape_attr,
    InputArray.read_value.
  run. rewrite Hdata, Hshape. cbn.
  unfold InputValue.store. run.
  destruct (assoc "units" attribs) as [u|]; cbn; rewrite Hty; cbn;
    match goal with
    | |- context [InputArray.parse_attribs name ?k attribs] =>
        pose proof (@array_attribs_bad name k attribs Hbad) as Hr;
        destruct (InputArray.parse_attribs name k attribs) as [[]|e]
    end; try discriminate Hr; repeat split.
Qed.

Lemma rejected_array_tag_replaces_the_value_witness :
  let r := InputArray.parse Sample.env
             (Some (XNode "fixatoms" [("mode", "x")] [("_text", XText "[ 3, 7 ]")])) ""
             (array_after [PInt 5] [PInt 1; PInt 2; PInt 3; PInt 4; PInt 5] int_array_leaf) in
  is_ok (snd r) = false /\
  InputArray.value (fst r) = Some [PInt 3; PInt 7] /\
  InputValue.value (InputArray.shape (fst r)) = Some (PTuple [PInt 2]).
Proof.
  apply (@rejected_array_tag_replaces_the_value Sample.env
           (array_after [PInt 5] [PInt 1; PInt 2; PInt 3; PInt 4; PInt 5] int_array_leaf)
           "fixatoms" [("mode", "x")] (XText "[ 3, 7 ]") [] [PInt 3; PInt 7]);
    reflexivity.
Defined.

(** ** [fetch] leaves the node alone *)

Lemma read_only_ret {S A} (a : A) : read_only (@ret S A a).
Proof. intros s. reflexivity. Qed.

Lemma read_only_raise {S A} (e : exn) : read_only (@raise S A e).
Proof. intros s. reflexivity. Qed.

Lemma read_only_lift {S A} (r : res A) : read_only (@lift S A r).
Proof. intros s. reflexivity. Qed.

Lemma read_only_bind {S A B} (m : M S A) (k : A -> M S B) :
  read_only m -> (forall a, read_only (k a)) -> read_only (bind m k).
Proof.
  intros Hm Hk s. unfold bind. specialize (Hm s).
  destruct (m s) as [s' [a|e]]; cbn in Hm; subst s'; [apply Hk|reflexivity].
Qed.

Lemma read_only_on_attr {S T A} (rd : S -> T) (wr : T -> S -> S) (m : M T A) :
  (forall s, wr (rd s) s = s) -> read_only m -> read_only (on_attr rd wr m).
Proof.
  intros Hlens Hm s. unfold on_attr. specialize (Hm (rd s)).
  destruct (m (rd s)) as [t' r]. cbn in *. subst t'. apply Hlens.
Qed.

Lemma read_only_check {S} (C : Input.class S) : read_only (Input.check C).
Proof. intros s. unfold Input.check. now destruct (negb _). Qed.

Lemma value_fetch_read_only (E : external) : read_only (InputValue.fetch E).
Proof. intros s. apply value_fetch_state. Qed.

Lemma array_read_value_read_only : read_only InputArray.read_value.
Proof. intros s. unfold InputArray.read_value. now destruct (InputArray.value s). Qed.

Lemma shape_fetch_read_only (E : external) :
  read_only (InputArray.shape_attr (InputValue.fetch E)).
Proof.
  apply read_only_on_attr; [now intros []|apply value_fetch_read_only].
Qed.

Lemma array_fetch_read_only (E : external) : read_only (InputArray.fetch E).
Proof.
  unfold InputArray.fetch.
  apply read_only_bind; [apply read_only_check|intros _].
  apply read_only_bind; [apply shape_fetch_read_only|intros cur].
  apply read_only_bind.
  - destruct (py_eq cur InputArray.zero_shape).
    + apply read_only_bind; [apply array_read_value_read_only|intros d].
      apply read_only_ret.
    + apply read_only_bind; [apply array_read_value_read_only|intros d].
      apply read_only_bind; [apply shape_fetch_read_only|intros sh].
      apply read_only_lift.
  - intros arr s. now destruct (negb _).
Qed.

(** X13.  [fetch] never changes the node it is called on, for a scalar
    leaf, an array leaf and a composite node, whether it returns a value
    or raises. *)
Theorem fetch_changes_nothing (E : external) (n : Tree.node) :
  fst (Tree.fetch E n) = n.
Proof.
  destruct n as [v|a|c]; cbn [Tree.fetch].
  - pose proof (value_fetch_read_only E v) as H.
    destruct (InputValue.fetch E v) as [v' r]. cbn in *. now subst v'.
  - pose proof (array_fetch_read_only E a) as H.
    destruct (InputArray.fetch E a) as [a' r]. cbn in *. now subst a'.
  - assert (H : read_only (Input.check (Tree.cls (Tree.cdecl c)) ;;; ret PNone))
      by (apply read_only_bind; [apply read_only_check|intros _; apply read_only_ret]).
    specialize (H c).
    destruct ((Input.check (Tree.cls (Tree.cdecl c)) ;;; ret PNone) c) as [c' r].
    cbn in *. now subst c'.
Qed.

Section DispatcherFetch.
Context {SL : Slots}.
Variable E : external.
Hypothesis slots_read_only : forall k, read_only (slot_fetch k).

Ltac attr := apply read_only_on_attr; [now intros []|].

Lemma mode_is_read_only (tag : string) : read_only (InputMotionBase.mode_is E tag).
Proof.
  unfold InputMotionBase.mode_is, InputMotionBase.mode_.
  apply read_only_bind; [attr; apply value_fetch_read_only|intros m].
  apply read_only_ret.
Qed.

Lemma common_read_only : read_only (InputMotionBase.common E).
Proof.
  unfold InputMotionBase.common, InputMotionBase.fixcom_, InputMotionBase.fixatoms_.
  apply read_only_bind; [attr; apply value_fetch_read_only|intros fc].
  apply read_only_bind; [attr; apply array_fetch_read_only|intros fa].
  apply read_only_ret.
Qed.

Lemma build_read_only (cls : string) (slot : M InputMotionBase.t pyval) :
  read_only slot -> read_only (InputMotionBase.build E cls slot).
Proof.
  intros Hslot. unfold InputMotionBase.build.
  apply read_only_bind; [apply common_read_only|intros kw].
  apply read_only_bind; [exact Hslot|intros v].
  apply read_only_bind; [apply read_only_lift|intros x].
  apply read_only_ret.
Qed.

Lemma base_fetch_as_read_only (name : string) :
  read_only (InputMotionBase.fetch_as E name).
Proof.
  unfold InputMotionBase.fetch_as.
  apply read_only_bind; [apply read_only_check|intros _].
  repeat (apply read_only_bind; [apply mode_is_read_only|intros [|]];
          [first [ apply build_read_only; attr; apply slots_read_only
                 | apply read_only_bind; [apply common_read_only|intros kw];
                   apply read_only_bind; [attr; apply slots_read_only|intros x];
                   apply read_only_ret ]|]).
  apply read_only_ret.
Qed.

Lemma base_fetch_read_only : read_only (InputMotionBase.fetch E).
Proof. apply base_fetch_as_read_only. Qed.

Lemma fetch_each_read_only : read_only (InputMotion.fetch_each E).
Proof.
  intros l. induction l as [|[k m] rest IH]; cbn [InputMotion.fetch_each]; [reflexivity|].
  pose proof (base_fetch_read_only m) as Hm.
  destruct (InputMotionBase.fetch E m) as [m' [v|e]]; cbn in Hm; subst m'; [|reflexivity].
  destruct (InputMotion.fetch_each E rest) as [rest' r]. cbn in *. now subst rest'.
Qed.

Lemma motion_fetch_read_only : read_only (InputMotion.fetch E).
Proof.
  unfold InputMotion.fetch, InputMotion.mode_, InputMotion.super, InputMotionBase.mode_.
  apply read_only_bind.
  - attr. attr. apply value_fetch_read_only.
  - intros m. destruct (py_eq m (PStr "multi")).
    + apply read_only_bind; [attr; apply fetch_each_read_only|intros l].
      apply read_only_ret.
    + attr. apply base_fetch_as_read_only.
Qed.

End DispatcherFetch.

(** X14.  When the [fetch] of each sub-schema leaves its node alone,
    [InputMotionBase.fetch] and [InputMotion.fetch] leave the dispatcher
    alone: mode, common fields, sub-schemas and the children in [extra]
    are as before, whether an object is returned or an exception
    raised. *)
Theorem dispatcher_fetch_changes_nothing
        {SL : Slots} (E : external) (b : InputMotionBase.t) (s : InputMotion.t) :
  (forall k x, fst (slot_fetch k x) = x) ->
  fst (InputMotionBase.fetch E b) = b /\ fst (InputMotion.fetch E s) = s.
Proof.
  intros Hslots. split.
  - now apply base_fetch_read_only.
  - now apply motion_fetch_read_only.
Qed.

Lemma dispatcher_fetch_changes_nothing_witness :
  fst (InputMotionBase.fetch Sample.env fresh_dispatcher) = fresh_dispatcher /\
  fst (InputMotion.fetch Sample.env fresh_motion) = fresh_motion.
Proof.
  apply (@dispatcher_fetch_changes_nothing Sample.slots Sample.env
           fresh_dispatcher fresh_motion).
  intros k x. reflexivity.
Defined.

(** ** A "multi" object with a sub-object that cannot be stored *)

Lemma store_each_stops {SL : Slots} (E : external) (im0 : InputMotionBase.t)
      (pre post : list pyval) (bad : pyval) (e : exn) :
  InputMotionBase.__init__ E None None None (DValue PNone) = Ok im0 ->
  Forall (fun m => snd (InputMotionBase.store E m im0) = Ok tt) pre ->
  snd (InputMotionBase.store E bad im0) = Raise e ->
  forall s,
    InputMotion.store_each E (pre ++ bad :: post) s =
      (InputMotion.set_extra
         (InputMotion.extra s
          ++ map (fun m => ("motion", fst (InputMotionBase.store E m im0))) pre) s,
       Raise e).
Proof.
  intros Hnew Hall Hbad. induction Hall as [|m ml Hm _ IH]; intros s.
  - cbn [app map InputMotion.store_each]. unfold bind at 1, lift. rewrite Hnew.
    unfold bind at 1.
    destruct (InputMotionBase.store E bad im0) as [im' r]. cbn in Hbad. subst r.
    rewrite app_nil_r. destruct s; reflexivity.
  - cbn [app map InputMotion.store_each]. unfold bind at 1, lift. rewrite Hnew.
    unfold bind at 1.
    destruct (InputMotionBase.store E m im0) as [im' r]. cbn in Hm. subst r.
    rewrite IH. cbn. rewrite <- app_assoc. reflexivity.
Qed.

(** X15.  [InputMotion.store] of a "multi" object stops at the first
    sub-object that a new base dispatcher cannot store and raises its
    exception.  The store is not undone: the discriminator already holds
    "multi", and [extra] has gained one child for each sub-object before
    the failing one and none for those after it. *)
Theorem failed_multi_store_keeps_earlier_children
        {SL : Slots} (E : external) (s : InputMotion.t) (pre post : list pyval)
        (bad : pyval) (e : exn) (im0 : InputMotionBase.t) :
  (forall t, py_str E (PStr t) = t) ->
  InputValue.type (InputMotionBase.mode (InputMotion.as_base s)) = str_type E ->
  InputMotionBase.__init__ E None None None (DValue PNone) = Ok im0 ->
  Forall (fun m => snd (InputMotionBase.store E m im0) = Ok tt) pre ->
  snd (InputMotionBase.store E bad im0) = Raise e ->
  let r := InputMotion.store E (new_MultiMotion (pre ++ bad :: post)) s in
  snd r = Raise e /\
  InputValue.value (InputMotionBase.mode (InputMotion.as_base (fst r))) = Some (PStr "multi") /\
  InputMotion.extra (fst r) =
    (InputMotion.extra s
     ++ map (fun m => ("motion", fst (InputMotionBase.store E m im0))) pre)%list.
Proof.
  intros Hstr Hty Hnew Hall Hbad r. subst r.
  unfold InputMotion.store, new_MultiMotion.
  cbn [type_is String.eqb Ascii.eqb Bool.eqb]. cbv beta iota.
  unfold InputMotion.mode_, InputMotion.super, InputMotionBase.mode_. run.
  rewrite (str_store _ _ Hty). cbn. rewrite Hstr.
  rewrite (@store_each_stops _ E im0 pre post bad e Hnew Hall Hbad).
  repeat split.
Qed.

Lemma failed_multi_store_keeps_earlier_children_witness :
  let r := InputMotion.store Sample.env
             (new_MultiMotion ([a_replay] ++ new_MultiMotion [] :: [a_minimize]))
             fresh_motion in
  snd r = Raise (ValueError "Cannot store Mover calculator of type MultiMotion") /\
  InputValue.value (InputMotionBase.mode (InputMotion.as_base (fst r))) = Some (PStr "multi") /\
  InputMotion.extra (fst r) =
    (InputMotion.extra fresh_motion
     ++ map (fun m => ("motion", fst (InputMotionBase.store Sample.env m fresh_dispatcher)))
            [a_replay])%list.
Proof.
  apply (@failed_multi_store_keeps_earlier_children Sample.slots Sample.env fresh_motion
           [a_replay] [a_minimize] (new_MultiMotion [])
           (ValueError "Cannot store Mover calculator of type MultiMotion")
           fresh_dispatcher).
  - reflexivity.
  - reflexivity.
  - reflexivity.
  - repeat constructor.
  - reflexivity.
Defined.

(** ** The units of a tag *)

(** X16.  On a scalar leaf with a dimension, the value read from an
    accepted tag is converted by the following [fetch] from the units
    named in the tag's [units] attribute; a tag without that attribute
    leaves the units of the node in force. *)
Theorem tag_units_are_converted
        (E : external) (name : string) (xa : list (string * string))
        (tag : string) (body : xml_node) (rest : list (string * xml_node))
        (s : InputValue.t) (v : pyval) :
  forallb (fun kv => String.eqb (fst kv) "units") xa = true ->
  read_type E (InputValue.type s) body = Ok v ->
  Input._dimension (InputValue.base s) <> "undefined" ->
  InputValue._valid s = None ->
  let r := InputValue.parse E (Some (XNode name xa ((tag, body) :: rest))) "" s in
  snd r = Ok tt /\
  snd (InputValue.fetch E (fst r)) =
    Ok (unit_to_internal E (Input._dimension (InputValue.base s))
                         (match assoc "units" xa with
                          | Some u => u
                          | None => Input.units (InputValue.base s)
                          end) v).
Proof.
  intros Hat Hr Hdim Hvalid r. subst r. rewrite value_parse_tag. cbv zeta.
  match goal with
  | |- context [InputValue.parse_attribs name ?k xa] =>
      pose proof (value_attribs_ok name k xa) as Hok;
      destruct (InputValue.parse_attribs name k xa) as [[]|e]
  end; cbn in Hok; rewrite Hat in Hok; [|discriminate].
  rewrite Hr. cbn [fst snd]. split; [reflexivity|].
  apply String.eqb_neq in Hdim.
  unfold InputValue.fetch, InputValue.check, Input.check, InputValue.read_value. run.
  destruct (assoc "units" xa) as [u|]; cbn; rewrite Hvalid; cbn; rewrite Hdim; reflexivity.
Qed.

Lemma tag_units_are_converted_witness :
  let s := InputValue.mk (Input.mk "" "length" "bohr" PNone false false "")
                         py_bool None None in
  let r := InputValue.parse Sample.env
             (Some (XNode "fixcom" [("units", "angstrom")] [("_text", XText "True")])) "" s in
  snd r = Ok tt /\
  snd (InputValue.fetch Sample.env (fst r)) =
    Ok (unit_to_internal Sample.env "length" "angstrom" (PBool true)).
Proof.
  intros s.
  apply (@tag_units_are_converted Sample.env "fixcom" [("units", "angstrom")] "_text"
           (XText "True") [] s (PBool true)); try reflexivity.
  discriminate.
Defined.

(** ** Array leaves with a default *)

(** X17.  An array leaf can be constructed with any well-formed array of
    its element type as default and no dimension.  The new leaf is
    optional and not explicit, holds the flattened default, and its
    [fetch] returns the default with its shape. *)
Theorem constructed_array_default_is_fetched
        (E : external) (help units : option string) (ty : pytype)
        (sh : list Z) (d : list pyval) :
  np.wf sh d ->
  Forall (fun x => ty x = Ok x) d ->
  exists a,
    InputArray.__init__ E help None units (DValue (PArray sh d)) (Some ty) = Ok a /\
    Input._optional (InputArray.base a) = true /\
    Input._explicit (InputArray.base a) = false /\
    InputArray.value a = Some d /\
    snd (InputArray.fetch E a) = Ok (PArray sh d).
Proof.
  intros Hwf Hel.
  assert (Hshape : InputArray.new_shape E = Ok new_shape_leaf) by reflexivity.
  unfold InputArray.__init__, Input.__init__.
  rewrite take_default_literal by discriminate.
  rewrite Hshape. cbn [rbind Input.or_default].
  rewrite apply_default_literal by (cbn; discriminate).
  cbn [Input.base Input.vstore InputArray.cls InputArray.base Input._default].
  unfold bind at 1.
  rewrite array_store_wf; [|repeat split|exact Hwf|exact Hel].
  cbn [modify Input.mark Input.base Input.with_base InputArray.cls].
  eexists. split; [reflexivity|].
  split; [reflexivity|]. split; [reflexivity|]. split; [reflexivity|].
  unfold array_after, InputArray.with_base.
  cbn [InputArray.base InputArray.type InputArray.value InputArray.shape].
  rewrite array_fetch_checked; try reflexivity.
  destruct (py_eq (PTuple (map PInt sh)) InputArray.zero_shape) eqn:Hz.
  - apply zero_shape_test in Hz. subst sh.
    destruct Hwf as [_ Hlen]. cbn in Hlen.
    destruct d; [reflexivity|cbn in Hlen; lia].
  - now apply reshape_wf.
Qed.

Lemma constructed_array_default_is_fetched_witness :
  exists a,
    InputArray.__init__ Sample.env None None None (DValue (PArray [0] []))
                        (Some Sample.int) = Ok a /\
    Input._optional (InputArray.base a) = true /\
    Input._explicit (InputArray.base a) = false /\
    InputArray.value a = Some [] /\
    snd (InputArray.fetch Sample.env a) = Ok (PArray [0] []).
Proof.
  apply (@constructed_array_default_is_fetched Sample.env None None Sample.int [0] []).
  - split; [repeat constructor; lia|reflexivity].
  - constructor.
Defined.

(** ** The [extra] list after a failed parse *)

Lemma fields_extra_prefix (E : external) (p : xml_node -> Tree.node -> Tree.node * res unit)
      (name : string) (l : list (string * xml_node)) :
  forall c c' r,
    Tree.parse_fields E p name l c = (c', r) ->
    exists n,
      map fst (Tree.extra c') =
        (map fst (Tree.extra c) ++ firstn n (dynamic_tags (Tree.cdecl c) l))%list.
Proof.
  unfold dynamic_tags.
  induction l as [|[f v] rest IH]; intros c c' r; cbn [Tree.parse_fields map filter fst].
  - unfold ret. intros [= <- _]. exists O. now rewrite app_nil_r.
  - destruct (has_key f (Tree.fields (Tree.cdecl c))) eqn:Hf; cbn [negb andb].
    + destruct (assoc f (Tree.dict c)) as [child|].
      2:{ intros [= <- _]. exists O. now rewrite app_nil_r. }
      destruct (p v child) as [child' [[]|e]].
      * intros H. apply IH in H as [n H]. exists n. rewrite H. now destruct c.
      * intros [= <- _]. exists O. cbn. rewrite app_nil_r. now destruct c.
    + destruct (String.eqb f "_text"); cbn [negb]; [apply IH|].
      destruct (has_key f (Tree.dynamic (Tree.cdecl c))).
      2:{ intros [= <- _]. exists O. now rewrite app_nil_r. }
      unfold bind.
      destruct (Tree.extend E p f v c) as [c1 [[]|e]] eqn:Hext.
      * intros H. apply IH in H as [n H]. exists (S n). rewrite H.
        pose proof (@extend_keeps_decl _ _ _ _ _ _ _ Hext) as Hd. rewrite Hd.
        unfold Tree.extend in Hext.
        destruct (assoc f (Tree.dynamic (Tree.cdecl c))) as [tmpl|]; [|discriminate].
        destruct (Tree.construct E tmpl) as [nf|e]; [|discriminate].
        destruct (p v nf) as [nf' [[]|e]]; [|discriminate].
        injection Hext as <-. destruct c. cbn.
        rewrite map_app. cbn. now rewrite <- app_assoc.
      * intros [= <- _]. exists O. cbn. rewrite app_nil_r.
        unfold Tree.extend in Hext.
        destruct (assoc f (Tree.dynamic (Tree.cdecl c))) as [tmpl|];
          [|now injection Hext as <-].
        destruct (Tree.construct E tmpl) as [nf|e']; [|now injection Hext as <-].
        destruct (p v nf) as [nf' [[]|e']]; [discriminate|now injection Hext as <-].
Qed.

Lemma fields_extra_accepted (E : external)
      (p : xml_node -> Tree.node -> Tree.node * res unit)
      (name : string) (l : list (string * xml_node)) :
  forall c c' r,
    Tree.parse_fields E p name l c = (c', r) ->
    forall e, In e (Tree.extra c') ->
      In e (Tree.extra c) \/
      exists x tmpl nf,
        In (fst e, x) l /\
        assoc (fst e) (Tree.dynamic (Tree.cdecl c)) = Some tmpl /\
        Tree.construct E tmpl = Ok nf /\
        p x nf = (snd e, Ok tt).
Proof.
  induction l as [|[f v] rest IH]; intros c c' r; cbn [Tree.parse_fields].
  - unfold ret. intros [= <- _] e He. now left.
  - assert (Hweak : forall (c0 : Tree.composite) e,
              Tree.cdecl c0 = Tree.cdecl c -> Tree.extra c0 = Tree.extra c ->
              (In e (Tree.extra c0) \/
               exists x tmpl nf,
                 In (fst e, x) rest /\
                 assoc (fst e) (Tree.dynamic (Tree.cdecl c0)) = Some tmpl /\
                 Tree.construct E tmpl = Ok nf /\ p x nf = (snd e, Ok tt)) ->
              In e (Tree.extra c) \/
              exists x tmpl nf,
                In (fst e, x) ((f, v) :: rest) /\
                assoc (fst e) (Tree.dynamic (Tree.cdecl c)) = Some tmpl /\
                Tree.construct E tmpl = Ok nf /\ p x nf = (snd e, Ok tt)).
    { intros c0 e Hd Hx [Hin|(x & tmpl & nf & Hin & Ha & Hc & Hp)].
      - left. now rewrite <- Hx.
      - right. exists x, tmpl, nf. rewrite <- Hd. repeat split; try assumption.
        now right. }
    destruct (has_key f (Tree.fields (Tree.cdecl c))).
    + destruct (assoc f (Tree.dict c)) as [child|];
        [|intros [= <- _] e He; now left].
      destruct (p v child) as [child' [[]|e0]].
      * intros H e He. apply (Hweak _ e) with (3 := IH _ _ _ H e He); now destruct c.
      * intros [= <- _] e He. left. now destruct c.
    + destruct (String.eqb f "_text").
      { intros H e He. now apply (Hweak c e eq_refl eq_refl), (IH _ _ _ H). }
      destruct (has_key f (Tree.dynamic (Tree.cdecl c)));
        [|intros [= <- _] e He; now left].
      unfold bind, Tree.extend.
      destruct (assoc f (Tree.dynamic (Tree.cdecl c))) as [tmpl|] eqn:Ha;
        [|intros [= <- _] e He; now left].
      destruct (Tree.construct E tmpl) as [nf|e0] eqn:Hc;
        [|intros [= <- _] e He; now left].
      destruct (p v nf) as [nf' [[]|e0]] eqn:Hp;
        [|intros [= <- _] e He; now left].
      intros H e He.
      destruct (IH _ _ _ H e He) as [Hin|(x & tmpl' & nf0 & Hin & Ha' & Hc' & Hp')].
      * assert (Hin' : In e (Tree.extra c ++ [(f, nf')])) by (now destruct c).
        apply in_app_or in Hin' as [Hold|[<-|[]]]; [now left|].
        right. exists v, tmpl, nf. cbn [fst snd].
        split; [now left|]. split; [exact Ha|]. split; [exact Hc|exact Hp].
      * right. exists x, tmpl', nf0.
        split; [now right|]. split; [now destruct c|]. split; [exact Hc'|exact Hp'].
Qed.

(** X18.  Whatever the outcome of [Input.parse] on a tag, the [extra]
    list of the node holds entries for an initial part of the tag's
    dynamic children, in document order, and nothing else; every entry
    is the node of a dynamic child that was itself parsed without error.
    So a dynamic child whose own parse fails is not added, and no child
    after a failure is. *)
Theorem extra_is_a_prefix_of_the_dynamic_children
        (E : external) (name : string) (xa : list (string * string))
        (xf : list (string * xml_node)) (c : Tree.composite) :
  exists c' n,
    fst (Tree.parse E (XNode name xa xf) (Tree.NInput c)) = Tree.NInput c' /\
    map fst (Tree.extra c') = firstn n (dynamic_tags (Tree.cdecl c) xf) /\
    Forall (parsed_from E (Tree.cdecl c) xf) (Tree.extra c').
Proof.
  rewrite parse_composite. unfold bind, Tree.adapt, ret.
  destruct (Tree.parse_attribs E name xa (Tree.reset c)) as [c0 [[]|e]] eqn:Ha.
  - destruct (Tree.parse_fields E (Tree.parse E) name xf c0) as [c1 r1] eqn:Hf.
    pose proof (fields_extra_prefix _ _ _ _ _ Hf) as [n Hn].
    pose proof (fields_extra_accepted _ _ _ _ _ Hf) as Hacc.
    rewrite (@attribs_keep_extra E name xa _ _ _ Ha) in Hn, Hacc.
    rewrite (@attribs_keep_decl E name xa _ _ _ Ha) in Hn, Hacc.
    assert (Hn' : map fst (Tree.extra c1) = firstn n (dynamic_tags (Tree.cdecl c) xf))
      by (rewrite Hn; now destruct c).
    assert (Hall : Forall (parsed_from E (Tree.cdecl c) xf) (Tree.extra c1)).
    { apply Forall_forall. intros e0 He0.
      destruct (Hacc e0 He0) as [Hin|H]; [now destruct c|].
      unfold parsed_from. now destruct c. }
    destruct r1 as [[]|e].
    + pose proof (check_mandatory_state name c1) as Hm.
      destruct (Tree.check_mandatory name c1) as [c2 r2]. cbn in Hm. subst c2.
      exists c1, n. now repeat split.
    + exists c1, n. now repeat split.
  - exists c0, O. split; [reflexivity|].
    rewrite (@attribs_keep_extra E name xa _ _ _ Ha).
    split; [now destruct c|]. destruct c. constructor.
Qed.

Lemma failed_dynamic_child_is_not_added :
  let xf := [("motion", XNode "a" [] []); ("motion", XNode "b" [("mode", "x")] []);
             ("motion", XNode "c" [] [])] in
  is_ok (snd (Tree.parse Sample.env (XNode "motion" [("mode", "minimize")] xf)
                         (Tree.NInput demo_node))) = false /\
  exists c',
    fst (Tree.parse Sample.env (XNode "motion" [("mode", "minimize")] xf)
                    (Tree.NInput demo_node)) = Tree.NInput c' /\
    map fst (Tree.extra c') = ["motion"].
Proof.
  split; [reflexivity|]. eexists. split; reflexivity.
Qed.

(** ** The class named by the inherited check *)

(** An [InputMotion] whose discriminator was set but that is itself
    neither explicit nor optional: the check reached through
    [super().fetch()] names the class of the instance. *)
Lemma unset_motion_names_its_class :
  let im := fst (InputMotion.mode_ (InputValue.store (PStr "dummy")) fresh_motion) in
  snd (InputMotion.fetch Sample.env im) =
    Raise (ValueError "Uninitialized Input value of type InputMotion") /\
  snd (InputMotionBase.fetch Sample.env (InputMotion.as_base im)) =
    Raise (ValueError "Uninitialized Input value of type InputMotionBase").
Proof. split; reflexivity. Qed.
